(** * An iterative DNS resolver: cache, logger, resolution engine, UDP server

    Shallow embedding of [custom_resolver.py].  The program keeps two
    process-wide objects, [dns_log] and [dns_cache]; they are threaded
    explicitly through every function below.  The outside world (the wall
    clock and the network) is an environment of oracles indexed by how many
    times they have been consulted, so that every sequence of clock readings
    and of network replies is covered.

    Conventions.
    - A Python [str] is represented by its UTF-8 encoding, a [string]; a
      Python [bytes] object is a [list ascii].
    - A Python [int] is a [Z].
    - A reading of [time.time()] or [datetime.now()] is an exact rational
      [Q]; rounding of floating-point subtraction is not modelled, and the
      ["%.4fs"] rendering of durations in log entries is left out (the log
      keeps the number).
    - [print] goes to the terminal only and is left out; the log file
      receives exactly the entries appended to [log_entries].
    - Packets are scapy's; of a packet the model keeps the fields the
      program reads or sets.  A name given to scapy as text is stored with a
      final full stop ([dns_name]), and [DNS()] built without a question
      carries scapy's default one. *)

From Stdlib Require Import ZArith QArith String Ascii List Lia Lqa.
From stdpp Require Import gmap strings list fin_maps.

Local Open Scope Z_scope.
Local Open Scope string_scope.

Abbreviation bytes := (list ascii).

(** ** Python built-ins used by the program *)

Module Py.

(** Truth value of a [str]: empty is false. *)
Definition truthy (s : string) : bool :=
  match s with EmptyString => false | String _ _ => true end.

(** [s.rstrip('.')]: drop every trailing full stop. *)
Fixpoint rstrip_dot (s : string) : string :=
  match s with
  | EmptyString => EmptyString
  | String c r =>
      match rstrip_dot r with
      | EmptyString => if Ascii.eqb c "." then EmptyString else String c EmptyString
      | r' => String c r'
      end
  end.

(** [sep.join(l)]. *)
Definition join (sep : string) (l : list string) : string := String.concat sep l.

(** The text after the last full stop: [s.split('.')[-1]]. *)
Fixpoint last_segment (s : string) : string :=
  match s with
  | EmptyString => EmptyString
  | String c r =>
      if existsb (Ascii.eqb ".") (list_ascii_of_string r) then last_segment r
      else if Ascii.eqb c "." then r else s
  end.

Definition is_ascii_digit (c : ascii) : bool :=
  let n := N_of_ascii c in (48 <=? n)%N && (n <=? 57)%N.

(** [s.isdigit()] on the texts met here (addresses are ASCII): non-empty and
    all decimal digits. *)
Definition isdigit (s : string) : bool :=
  truthy s && forallb is_ascii_digit (list_ascii_of_string s).

(** *** UTF-8 decoding of [bytes]

    [decode ignore b] is [b.decode()] when [ignore] is [false] ([None] when
    the call raises [UnicodeDecodeError]) and [b.decode(errors='ignore')]
    when it is [true] (ill-formed bytes are dropped, the result is always
    [Some]).  Since a [str] is kept as its UTF-8 encoding, decoding keeps
    the bytes of every well-formed sequence. *)

Definition between (lo hi : N) (c : ascii) : bool :=
  let n := N_of_ascii c in (lo <=? n)%N && (n <=? hi)%N.

Definition cont (c : ascii) : bool := between 128 191 c.

(** Admissible second byte after lead byte [b0] of a 3- or 4-byte sequence
    (no overlong forms, no surrogates, nothing above U+10FFFF). *)
Definition second_ok (b0 b1 : ascii) : bool :=
  let n := N_of_ascii b0 in
  if (n =? 224)%N then between 160 191 b1
  else if (n =? 237)%N then between 128 159 b1
  else if (n =? 240)%N then between 144 191 b1
  else if (n =? 244)%N then between 128 143 b1
  else cont b1.

Fixpoint decode (ignore : bool) (b : bytes) : option string :=
  match b with
  | [] => Some EmptyString
  | b0 :: r0 =>
      let bad := if ignore then decode ignore r0 else None in
      if between 0 127 b0 then
        option_map (String b0) (decode ignore r0)
      else if between 194 223 b0 then
        match r0 with
        | b1 :: r1 =>
            if cont b1
            then option_map (fun s => String b0 (String b1 s)) (decode ignore r1)
            else bad
        | _ => bad
        end
      else if between 224 239 b0 then
        match r0 with
        | b1 :: b2 :: r2 =>
            if second_ok b0 b1 && cont b2
            then option_map (fun s => String b0 (String b1 (String b2 s)))
                            (decode ignore r2)
            else bad
        | _ => bad
        end
      else if between 240 244 b0 then
        match r0 with
        | b1 :: b2 :: b3 :: r3 =>
            if second_ok b0 b1 && cont b2 && cont b3
            then option_map
                   (fun s => String b0 (String b1 (String b2 (String b3 s))))
                   (decode ignore r3)
            else bad
        | _ => bad
        end
      else bad
  end.

End Py.

(** ** Constants *)

Definition ROOT_SERVER_IP : string := "198.41.0.4".
Definition CACHE_TTL_SECONDS : Q := 3600%Q.

(** ** DNS messages, as far as the program reads and builds them *)

(** The [rdata] of a resource record.  scapy dissects the data of a type-1
    (A) record into the dotted text of the address, a [str], and the data of
    the other record types met here into [bytes] (a host name for NS).  Every
    read of [rdata] in the program sits under a test of [type], so the field
    is typed by it. *)
Definition rdata_of (is_a : bool) : Set := if is_a then string else bytes.

Record DNSRR := mkRR { rrname : bytes; type : Z; rdata : rdata_of (type =? 1)%Z }.

(** [rr.rdata] under the guard [rr.type == 1]. *)
Definition a_rdata (rr : DNSRR) : option string :=
  match rr with
  | mkRR _ t d =>
      (if (t =? 1)%Z as b return (rdata_of b -> option string)
       then fun ip => Some ip else fun _ => None) d
  end.

(** [rr.rdata] of a record that is not of type 1. *)
Definition raw_rdata (rr : DNSRR) : option bytes :=
  match rr with
  | mkRR _ t d =>
      (if (t =? 1)%Z as b return (rdata_of b -> option bytes)
       then fun _ => None else fun raw => Some raw) d
  end.

Record DNSQR := mkQR { qname : bytes }.

Record DNS := mkDNS {
  id : Z; qr : Z; aa : Z; rd : Z; ra : Z; rcode : Z;
  qd : list DNSQR; an : list DNSRR; ns : list DNSRR; ar : list DNSRR
}.

(** What scapy stores in a name field that is set from text, as in
    [DNSRR(rrname=domain)]: the bytes of the text, with a full stop added at
    the end when there is none; the empty name is the root.  (A name without
    any full stop whose last bytes read as a compression pointer is left
    alone by scapy; that exception is not modelled.) *)
Definition dns_name (x : string) : bytes :=
  match last (list_ascii_of_string x) with
  | None => ["."%char]
  | Some c =>
      if Ascii.eqb c "." then list_ascii_of_string x
      else (list_ascii_of_string x ++ ["."%char])%list
  end.

(** Field values of [DNS()] when a keyword is not given (scapy's defaults):
    [rd] is 1 and every other flag is 0; the question section holds the
    default question, for www.example.com.; the other sections are empty. *)
Definition DNS_default : DNS :=
  {| id := 0; qr := 0; aa := 0; rd := 1; ra := 0; rcode := 0;
     qd := [mkQR (list_ascii_of_string "www.example.com.")];
     an := []; ns := []; ar := [] |}.

(** What [sr1] hands back: nothing within the timeout, or a packet that may
    or may not carry a DNS layer. *)
Inductive reply := NoReply | Reply (dns_layer : option DNS).

(** [not resp or not resp.haslayer(DNS)] fails exactly on [Reply (Some _)]. *)
Definition dns_of (r : reply) : option DNS :=
  match r with NoReply => None | Reply l => l end.

(** ** The outside world *)

Record Env := mkEnv {
  (** the [k]-th reading of the clock ([time.time()] or [datetime.now()]) *)
  clock : nat -> Q;
  (** the reply to the [n]-th query sent, given its destination and name *)
  sr1 : nat -> string -> string -> reply
}.

(** ** Logger *)

Record entry := mkEntry {
  timestamp : Q;
  domain_name : string;
  resolution_mode : string;
  dns_server_ip : string;
  step_of_resolution : string;
  response_or_referral : string;
  round_trip_time : Q;
  total_time_to_resolution : option Q;
  cache_status : string
}.

Record plot_datum := mkDatum { total_servers_visited : Z; total_latency : Q }.

(** [plot_data] is a Python dict, which keeps insertion order (the summary is
    printed in that order): an association list, new keys at the end. *)
Record DnsLog := mkLog {
  log_entries : list entry;
  plot_data : list (string * plot_datum);
  unique_domains_resolved_count : Z;
  max_domains_for_plot : Z
}.

Definition plot_lookup (domain : string) (p : list (string * plot_datum))
  : option plot_datum :=
  snd <$> List.find (fun kv => String.eqb domain (fst kv)) p.

Module Log.

(** [DnsLog.__init__] *)
Definition init : DnsLog :=
  {| log_entries := []; plot_data := [];
     unique_domains_resolved_count := 0; max_domains_for_plot := 10 |}.

Definition log_step (e : entry) (l : DnsLog) : DnsLog :=
  {| log_entries := log_entries l ++ [e];
     plot_data := plot_data l;
     unique_domains_resolved_count := unique_domains_resolved_count l;
     max_domains_for_plot := max_domains_for_plot l |}.

Definition record_plot_data (domain : string) (total_servers : Z)
    (latency : Q) (l : DnsLog) : DnsLog :=
  if negb (bool_decide (is_Some (plot_lookup domain (plot_data l))))
     && (unique_domains_resolved_count l <? max_domains_for_plot l)%Z
  then {| log_entries := log_entries l;
          plot_data := plot_data l ++ [(domain, mkDatum total_servers latency)];
          unique_domains_resolved_count := unique_domains_resolved_count l + 1;
          max_domains_for_plot := max_domains_for_plot l |}
  else l.

End Log.

(** ** Cache *)

Module DnsCache.

(** [DnsCache.get] at clock reading [now]: the result pair and the cache
    afterwards (a stale entry is deleted). *)
Definition get (domain : string) (now : Q) (cache : gmap string (string * Q))
  : (option string * string) * gmap string (string * Q) :=
  match cache !! domain with
  | Some (ip, cached_time) =>
      if QMicromega.Qlt_bool (now - cached_time) CACHE_TTL_SECONDS
      then ((Some ip, "HIT"), cache)
      else ((None, "MISS"), delete domain cache)
  | None => ((None, "MISS"), cache)
  end.

(** [DnsCache.set] at clock reading [now]. *)
Definition set (domain ip : string) (now : Q) (cache : gmap string (string * Q))
  : gmap string (string * Q) :=
  <[domain := (ip, now)]> cache.

End DnsCache.

(** ** Program state and the effects of the engine *)

Record State := mkState {
  dns_log : DnsLog;
  dns_cache : gmap string (string * Q);
  (** how many clock readings have been taken *)
  ticks : nat;
  (** the queries sent so far, oldest first: destination and queried name *)
  sent : list (string * string)
}.

Definition initial_state : State :=
  {| dns_log := Log.init; dns_cache := ∅; ticks := 0%nat; sent := [] |}.

(** Computations that change the state; [None] only when the recursion
    budget of the model (not of the program) is used up. *)
Definition M (A : Type) : Type := State -> option (A * State).

Definition ret {A} (a : A) : M A := fun s => Some (a, s).

Definition bind {A B} (m : M A) (k : A -> M B) : M B :=
  fun s => match m s with Some (a, s') => k a s' | None => None end.

Notation "x <- m ;; k" := (bind m (fun x => k))
  (at level 100, m at next level, right associativity).
Notation "m ;;; k" := (bind m (fun _ => k))
  (at level 100, right associativity).

(** The four ways the state changes. *)
Definition tick (s : State) : State :=
  {| dns_log := dns_log s; dns_cache := dns_cache s;
     ticks := S (ticks s); sent := sent s |}.

Definition push_query (dst name : string) (s : State) : State :=
  {| dns_log := dns_log s; dns_cache := dns_cache s;
     ticks := ticks s; sent := sent s ++ [(dst, name)] |}.

Definition upd_log (f : DnsLog -> DnsLog) (s : State) : State :=
  {| dns_log := f (dns_log s); dns_cache := dns_cache s;
     ticks := ticks s; sent := sent s |}.

Definition with_cache (c : gmap string (string * Q)) (s : State) : State :=
  {| dns_log := dns_log s; dns_cache := c; ticks := ticks s; sent := sent s |}.

Section Effects.
Variable env : Env.

(** [time.time()] and [datetime.now()] *)
Definition time : M Q := fun s => Some (clock env (ticks s), tick s).

(** [sr1(IP(dst=dst)/UDP(dport=53)/DNS(rd=0, qd=DNSQR(qname=name)), timeout=2)] *)
Definition send (dst name : string) : M reply := fun s =>
  Some (sr1 env (length (sent s)) dst name, push_query dst name s).

Definition with_log (f : DnsLog -> DnsLog) : M unit := fun s =>
  Some (tt, upd_log f s).

Definition log_step (ts : Q) (domain mode server_ip step referral : string)
    (rtt : Q) (total_time : option Q) (status : string) : M unit :=
  with_log (Log.log_step (mkEntry ts domain mode server_ip step referral
                                  rtt total_time status)).

Definition record_plot_data (domain : string) (total_servers : Z) (latency : Q)
  : M unit :=
  with_log (Log.record_plot_data domain total_servers latency).

(** [dns_cache.get(domain)]: the clock is read only when the key is there. *)
Definition cache_get (domain : string) : M (option string * string) := fun s =>
  match dns_cache s !! domain with
  | Some _ =>
      (now <- time ;;
       fun s1 => let '(r, c) := DnsCache.get domain now (dns_cache s1) in
                 Some (r, with_cache c s1)) s
  | None => Some ((None, "MISS"), s)
  end.

(** [dns_cache.set(domain, ip)] *)
Definition cache_set (domain ip : string) : M unit :=
  now <- time ;;
  fun s => Some (tt, with_cache (DnsCache.set domain ip now (dns_cache s)) s).

(** ** Resolution logic *)

Definition get_step_type (current_ip : string) : string :=
  if String.eqb current_ip ROOT_SERVER_IP then "Root"
  else if Py.isdigit (Py.last_segment current_ip) then "TLD/Authoritative"
  else "Unknown".

(** [[rr.rdata for rr in dns_resp.an if rr.type == 1]] *)
Definition answers (dns_resp : DNS) : list string := omap a_rdata (an dns_resp).

(** The names collected from the authority section: the decoded data of the
    type-2 records, a record whose data does not decode being skipped. *)
Definition ns_names (dns_resp : DNS) : list string :=
  omap (fun rr => if (type rr =? 2)%Z
                  then raw_rdata rr ≫= Py.decode false else None)
       (ns dns_resp).

(** The data of the first type-1 record of the additional section. *)
Definition glue_ip (dns_resp : DNS) : option string :=
  head (omap a_rdata (ar dns_resp)).

(** The synthetic packet returned on a cache hit,
    [DNS(an=DNSRR(rrname=domain, type=1, rdata=ip))]: every field but the
    answer section has its default, the question section included, and the
    owner name of the record is stored with its final full stop; the
    enclosing IP and UDP layers are never read by a caller. *)
Definition cached_response (domain ip : string) : DNS :=
  {| id := id DNS_default; qr := qr DNS_default; aa := aa DNS_default;
     rd := rd DNS_default; ra := ra DNS_default; rcode := rcode DNS_default;
     qd := qd DNS_default;
     an := [mkRR (dns_name domain) 1 ip];
     ns := ns DNS_default; ar := ar DNS_default |}.

(** [temp_ns_resp and temp_ns_resp.an and temp_ns_resp.an[0].type == 1],
    giving [temp_ns_resp.an[0].rdata]. *)
Definition first_answer_address (temp_ns_resp : option DNS) : option string :=
  match temp_ns_resp with
  | Some d => match an d with rr :: _ => a_rdata rr | [] => None end
  | None => None
  end.

(** How one turn of the hop loop ends: the function returns, or the loop
    goes on with the next server. *)
Inductive hop_result :=
| Return (result : option DNS)
| Continue (next_ip : string).

Section Hop.
(** the function itself, for the nested resolution of a name server *)
Variable self : string -> option string -> Z -> Z -> M (option DNS).
Variables (domain original_domain : string) (depth : Z) (total_start_time : Q).

Section Turn.
(** what a turn has computed before it looks at the reply *)
Variables (ts rtt : Q) (current_ns_ip step_type : string).

(** The common end of both delegation branches: log the step and go round
    the loop again with [current_ns_ip = next_ip]. *)
Definition delegate (response_referral next_ip : string) : M hop_result :=
  log_step ts domain "Iterative (Delegation)" current_ns_ip step_type
           response_referral rtt None "MISS" ;;;
  ret (Continue next_ip).

(** The branch taken when no usable glue address was found. *)
Definition no_glue (fallback_ns : string) : M hop_result :=
  if String.eqb fallback_ns original_domain then
    log_step ts domain "Iterative (Failed delegation)" current_ns_ip step_type
             "No glue IP and NS same as original domain" rtt None "MISS" ;;;
    ret (Return None)
  else
    temp_ns_resp <- self fallback_ns (Some original_domain) (depth + 1) 10 ;;
    match first_answer_address temp_ns_resp with
    | Some next_ip =>
        (* [response_referral] still holds its initial text here *)
        delegate "Timeout or invalid response" next_ip
    | None =>
        log_step ts domain "Iterative (Failed delegation)" current_ns_ip
                 step_type ("Failed to resolve next NS IP: " ++ fallback_ns)
                 rtt None "MISS" ;;;
        ret (Return None)
    end.

(** What a turn does with a reply that carries a DNS layer. *)
Definition on_response (servers_visited : Z) (dns_resp : DNS) : M hop_result :=
  match answers dns_resp with
  | final_ip :: _ =>
      t2 <- time ;;
      let total_latency := (t2 - total_start_time)%Q in
      log_step ts domain "Iterative (Resolved)" current_ns_ip "Authoritative"
               ("Answer: " ++ final_ip) rtt (Some total_latency) "MISS" ;;;
      cache_set domain final_ip ;;;
      record_plot_data domain servers_visited total_latency ;;;
      ret (Return (Some dns_resp))
  | [] =>
      match ns_names dns_resp with
      | fallback_ns :: _ =>
          match glue_ip dns_resp with
          | Some glue =>
              if Py.truthy glue then
                delegate ("Delegation to: " ++ Py.join ", " (ns_names dns_resp)
                          ++ " @ Glue IP: " ++ glue) glue
              else no_glue fallback_ns
          | None => no_glue fallback_ns
          end
      | [] =>
          log_step ts domain "Iterative (Failed delegation)" current_ns_ip
                   step_type "No authority section for delegation"
                   rtt None "MISS" ;;;
          ret (Return None)
      end
  end.

End Turn.

(** The body of [for hop in range(max_depth)], entered with the number of
    servers visited so far and the server to ask. *)
Definition hop (servers_visited : Z) (current_ns_ip : string) : M hop_result :=
  step_start_time <- time ;;
  resp <- send current_ns_ip domain ;;
  t1 <- time ;;
  let rtt := (t1 - step_start_time)%Q in
  ts <- time ;;
  let servers_visited := servers_visited + 1 in
  let step_type := get_step_type current_ns_ip in
  match dns_of resp with
  | None =>
      log_step ts domain "Iterative (Query Failed)" current_ns_ip step_type
               "Timeout or invalid response" rtt None "MISS" ;;;
      ret (Return None)
  | Some dns_resp =>
      on_response ts rtt current_ns_ip step_type servers_visited dns_resp
  end.

(** The loop, with [hops] turns left; when none is left the function logs
    that the iteration limit is reached and returns [None]. *)
Fixpoint hop_loop (hops : nat) (servers_visited : Z) (current_ns_ip : string)
  : M (option DNS) :=
  match hops with
  | O =>
      t <- time ;;
      let total_latency := (t - total_start_time)%Q in
      ts <- time ;;
      log_step ts domain "Iterative (Failed)" current_ns_ip
               (get_step_type current_ns_ip) "Iteration limit reached"
               0 (Some total_latency) "MISS" ;;;
      ret None
  | S hops' =>
      r <- hop servers_visited current_ns_ip ;;
      match r with
      | Return result => ret result
      | Continue next_ip => hop_loop hops' (servers_visited + 1) next_ip
      end
  end.

End Hop.

(** [resolve_iteratively] with a budget for the depth of nested calls. *)
Fixpoint resolve_fuel (fuel : nat) (domain : string)
    (original_domain : option string) (depth max_depth : Z) : M (option DNS) :=
  match fuel with
  | O => fun _ => None
  | S fuel' =>
      if (depth >? max_depth)%Z then ret None
      else
        let original_domain := default domain original_domain in
        total_start_time <- time ;;
        hit <- cache_get domain ;;
        let cache_status := snd hit in
        match fst hit with
        | Some ip =>
            if Py.truthy ip then
              t <- time ;;
              let total_latency := (t - total_start_time)%Q in
              ts <- time ;;
              log_step ts domain "Iterative (Cached)" "N/A" "Cache"
                       ("Answer: " ++ ip) 0 (Some total_latency) cache_status ;;;
              record_plot_data domain 1 total_latency ;;;
              ret (Some (cached_response domain ip))
            else
              hop_loop (resolve_fuel fuel') domain original_domain depth
                       total_start_time (Z.to_nat max_depth) 0 ROOT_SERVER_IP
        | None =>
            hop_loop (resolve_fuel fuel') domain original_domain depth
                     total_start_time (Z.to_nat max_depth) 0 ROOT_SERVER_IP
        end
  end.

(** A budget that is never used up: a nested call is made at [depth + 1]
    with the default [max_depth] of 10, and returns at once beyond it. *)
Definition fuel_for (depth : Z) : nat := S (S (Z.to_nat (10 - depth))).

Definition resolve_iteratively (domain : string)
    (original_domain : option string) (depth max_depth : Z) (s : State)
  : option DNS * State :=
  match resolve_fuel (fuel_for depth) domain original_domain depth max_depth s with
  | Some r => r
  | None => (None, s)
  end.

(** ** The UDP server *)

(** [dns_query.qd.qname.decode(errors='ignore').rstrip('.')] *)
Definition query_domain (q : DNSQR) : string :=
  Py.rstrip_dot (default EmptyString (Py.decode true (qname q))).

(** One turn of [while True] on the datagram already parsed by [DNS(data)]:
    the new state and the packet handed to [sendto], if any. *)
Definition serve_one (dns_query : DNS) (s : State) : option DNS * State :=
  match qd dns_query with
  | [] => (None, s)
  | q :: _ =>
      let domain := query_domain q in
      let '(dns_response, s') := resolve_iteratively domain None 0 10 s in
      let answer_pkt :=
        match dns_response with
        | Some resp =>
            match an resp with
            | _ :: _ =>
                {| id := id dns_query; qr := 1; aa := 1; rd := rd DNS_default;
                   ra := 0; rcode := rcode DNS_default;
                   qd := qd dns_query; an := an resp;
                   ns := ns DNS_default; ar := ar DNS_default |}
            | [] =>
                {| id := id dns_query; qr := 1; aa := aa DNS_default;
                   rd := rd DNS_default; ra := ra DNS_default; rcode := 2;
                   qd := qd dns_query; an := an DNS_default;
                   ns := ns DNS_default; ar := ar DNS_default |}
            end
        | None =>
            {| id := id dns_query; qr := 1; aa := aa DNS_default;
               rd := rd DNS_default; ra := ra DNS_default; rcode := 2;
               qd := qd dns_query; an := an DNS_default;
               ns := ns DNS_default; ar := ar DNS_default |}
        end in
      (Some answer_pkt, s')
  end.

(** The server loop over the datagrams received until it is interrupted. *)
Fixpoint start_dns_server (datagrams : list DNS) (s : State)
  : list DNS * State :=
  match datagrams with
  | [] => ([], s)
  | d :: rest =>
      let '(out, s1) := serve_one d s in
      let '(outs, s2) := start_dns_server rest s1 in
      (match out with Some p => p :: outs | None => outs end, s2)
  end.

End Effects.

(** * Vocabulary of the statements *)

(** *** Relations kept by the runs of the engine *)

(** The nested calls made on behalf of [original] keep the relation [R]
    between the state before and the state after. *)
Definition self_keeps (R : State -> State -> Prop) (original : string)
    (self : string -> option string -> Z -> Z -> M (option DNS)) : Prop :=
  forall name depth max_depth s r s',
    name <> original ->
    self name (Some original) depth max_depth s = Some (r, s') -> R s s'.

(** *** The recursion budget *)

(** [self'] returns whatever [self] returns. *)
Definition extends (self self' : string -> option string -> Z -> Z -> M (option DNS))
  : Prop :=
  forall name o depth max_depth s x,
    self name o depth max_depth s = Some x ->
    self' name o depth max_depth s = Some x.

(** With enough budget, a result is produced. *)
Definition always_returns (self : string -> option string -> Z -> Z -> M (option DNS))
    (depth : Z) : Prop :=
  forall name o s, is_Some (self name o depth 10 s).

(** *** Counting queries *)

(** The queries a nested call can send when [levels] levels of nesting
    remain under it: ten turns, each one query and one nested call. *)
Fixpoint work (levels : nat) : nat :=
  match levels with
  | O => O
  | S n => 10 * (1 + work n)
  end.

Definition sends_at_most
    (self : string -> option string -> Z -> Z -> M (option DNS))
    (depth : Z) (W : nat) : Prop :=
  forall name o s r s',
    self name o depth 10 s = Some (r, s') ->
    (length (sent s') <= length (sent s) + W)%nat.

(** *** Delegation chains *)

(** A reply that refers the resolver on and carries a usable glue address:
    no address in the answer section, at least one name in the authority
    section, and a first type-1 record with non-empty data in the additional
    section. *)
Definition glue_referral (d : DNS) (glue : string) : Prop :=
  answers d = [] /\ ns_names d <> [] /\
  glue_ip d = Some glue /\ Py.truthy glue = true.

(** The replies to the queries numbered from [n0] on, the first sent to
    [server]: each is a referral with glue to the server asked next. *)
Fixpoint referral_chain (env : Env) (domain : string) (n0 : nat)
    (server : string) (chain : list DNS) (asked_last : string) : Prop :=
  match chain with
  | [] => asked_last = server
  | d :: rest =>
      dns_of (sr1 env n0 server domain) = Some d /\
      exists glue, glue_referral d glue /\
                   referral_chain env domain (S n0) glue rest asked_last
  end.

(** What the engine leaves in the log: [entries] appended, data for the
    plot untouched. *)
Definition logged (entries : list entry) (before after : DnsLog) : Prop :=
  log_entries after = (log_entries before ++ entries)%list /\
  plot_data after = plot_data before /\
  unique_domains_resolved_count after = unique_domains_resolved_count before /\
  max_domains_for_plot after = max_domains_for_plot before.

(** No entry for the name that is both fresh at the reading the lookup
    takes and non-empty. *)
Definition cache_misses (env : Env) (domain : string) (s : State) : Prop :=
  forall ip t,
    dns_cache s !! domain = Some (ip, t) ->
    Py.truthy ip = true ->
    ~ (clock env (S (ticks s)) - t < 3600)%Q.

(** *** Queries, log records and cache entries *)

(** The list of queries and the log of [s'] extend those of [s]. *)
Definition grows (s s' : State) : Prop :=
  sent s `prefix_of` sent s' /\
  log_entries (dns_log s) `prefix_of` log_entries (dns_log s').

(** Between [s] and [s'], every query that got no reply, or a reply without
    a DNS layer, made the call fail and left a Query Failed record. *)
Definition reports (env : Env) (s s' : State) (failed : Prop) : Prop :=
  forall i dst name,
    (length (sent s) <= i)%nat ->
    sent s' !! i = Some (dst, name) ->
    dns_of (sr1 env i dst name) = None ->
    failed /\
    exists j e,
      (length (log_entries (dns_log s)) <= j)%nat /\
      log_entries (dns_log s') !! j = Some e /\
      resolution_mode e = "Iterative (Query Failed)" /\
      dns_server_ip e = dst /\ domain_name e = name.

Definition self_reports (env : Env)
    (self : string -> option string -> Z -> Z -> M (option DNS)) : Prop :=
  forall name o depth max_depth s r s',
    self name o depth max_depth s = Some (r, s') ->
    reports env s s' (r = None).

(** No entry is written under [k]: what is found there afterwards was there
    before. *)
Definition no_write (k : string) (s s' : State) : Prop :=
  forall v, dns_cache s' !! k = Some v -> dns_cache s !! k = Some v.

(** *** The data kept for the plot *)

(** What holds of the logger from its creation on. *)
Definition plot_inv (l : DnsLog) : Prop :=
  max_domains_for_plot l = 10 /\
  unique_domains_resolved_count l = Z.of_nat (length (plot_data l)) /\
  (length (plot_data l) <= 10)%nat /\
  NoDup (map fst (plot_data l)).

(** The plot data of [s'] are those of [s], in the same order, with new
    domains (if any) after them. *)
Definition plot_rel (s s' : State) : Prop :=
  plot_inv (dns_log s) ->
  plot_inv (dns_log s') /\
  plot_data (dns_log s) `prefix_of` plot_data (dns_log s').

(** The domain has its datum, or the ten places are taken. *)
Definition settled (domain : string) (l : DnsLog) : Prop :=
  is_Some (plot_lookup domain (plot_data l)) \/ length (plot_data l) = 10%nat.

Record call := mkCall {
  call_domain : string;
  call_original : option string;
  call_depth : Z;
  call_max_depth : Z
}.

(** A sequence of calls of [resolve_iteratively], each on the state the
    previous one left. *)
Fixpoint run_calls (env : Env) (calls : list call) (s : State) : State :=
  match calls with
  | [] => s
  | c :: rest =>
      run_calls env rest
        (snd (resolve_iteratively env (call_domain c) (call_original c)
                                  (call_depth c) (call_max_depth c) s))
  end.

(** ** Concrete networks and states *)

Module Scenario.

Definition name (s : string) : bytes := list_ascii_of_string s.

Definition A_record (owner ip : string) : DNSRR := mkRR (name owner) 1 ip.
Definition NS_record (owner target : string) : DNSRR :=
  mkRR (name owner) 2 (name target).
Definition CNAME_record (owner target : string) : DNSRR :=
  mkRR (name owner) 5 (name target).

Definition response (an_ ns_ ar_ : list DNSRR) : DNS :=
  {| id := 0; qr := 1; aa := 0; rd := 0; ra := 0; rcode := 0;
     qd := []; an := an_; ns := ns_; ar := ar_ |}.

(** A clock that advances one second per reading. *)
Definition seconds (k : nat) : Q := inject_Z (Z.of_nat k).

(** The root refers to a.example-servers.net with glue 199.43.135.53, which
    answers with the address of example.com. *)
Definition referral : DNS :=
  response [] [NS_record "com." "a.example-servers.net."]
           [A_record "a.example-servers.net." "199.43.135.53"].

Definition answer : DNS :=
  response [A_record "example.com." "93.184.216.34"] [] [].

Definition glue_env : Env :=
  mkEnv seconds
        (fun _ dst _ =>
           if String.eqb dst ROOT_SERVER_IP then Reply (Some referral)
           else if String.eqb dst "199.43.135.53" then Reply (Some answer)
           else NoReply).

(** A state whose cache holds example.com, stored at clock reading 0. *)
Definition cached_state : State :=
  with_cache (DnsCache.set "example.com" "93.184.216.34" 0 ∅) initial_state.

(** A referral whose additional section opens with the address of a host
    that is not the name server named in the authority section. *)
Definition mismatched_referral : DNS :=
  response [] [NS_record "example.com." "ns1.example.net."]
           [A_record "mail.example.org." "203.0.113.9";
            A_record "ns1.example.net." "192.0.2.53"].

Definition mismatched_env : Env :=
  mkEnv seconds
        (fun _ dst _ =>
           if String.eqb dst ROOT_SERVER_IP then Reply (Some mismatched_referral)
           else NoReply).

(** The root first refers ns1.example.net. to itself without glue, then
    gives its address; the server at that address never replies. *)
Definition self_hosted_env : Env :=
  mkEnv seconds
        (fun n _ _ =>
           match n with
           | 0%nat => Reply (Some (response []
                        [NS_record "example.net." "ns1.example.net."] []))
           | 1%nat => Reply (Some (response
                        [A_record "ns1.example.net." "192.0.2.53"] [] []))
           | _ => NoReply
           end).

(** No server ever replies. *)
Definition silent_env : Env := mkEnv seconds (fun _ _ _ => NoReply).

(** An entry for example.com stored at reading 0, met again at reading
    4000. *)
Definition stale_state : State :=
  {| dns_log := Log.init;
     dns_cache := DnsCache.set "example.com" "93.184.216.34" 0 ∅;
     ticks := 4000; sent := [] |}.

(** The name server of example.com is an alias: the answer to the query for
    its name opens with a CNAME record, the address record follows. *)
Definition alias_answer : DNS :=
  response [CNAME_record "ns1.example.net." "host.example.net.";
            A_record "host.example.net." "192.0.2.53"] [] [].

Definition alias_env : Env :=
  mkEnv seconds
        (fun _ dst name =>
           if String.eqb name "ns1.example.net." then Reply (Some alias_answer)
           else if String.eqb dst ROOT_SERVER_IP then
             Reply (Some (response []
                      [NS_record "example.com." "ns1.example.net."] []))
           else if String.eqb dst "192.0.2.53" then
             Reply (Some (response
                      [A_record "example.com." "93.184.216.34"] [] []))
           else NoReply).

(** Every server refers on to 192.0.2.1, glue included. *)
Definition endless_referral : DNS :=
  response [] [NS_record "com." "ns.loop.example."]
           [A_record "ns.loop.example." "192.0.2.1"].

Definition endless_env : Env :=
  mkEnv seconds (fun _ _ _ => Reply (Some endless_referral)).

(** The state after example.com was resolved once through the glue chain. *)
Definition resolved_once : State :=
  snd (resolve_iteratively glue_env "example.com" None 0 10
                           initial_state).

Definition again : list call :=
  [mkCall "example.com" None 0 10; mkCall "example.com" None 0 10].

Definition eleven : list string :=
  ["d1.example"; "d2.example"; "d3.example"; "d4.example"; "d5.example";
   "d6.example"; "d7.example"; "d8.example"; "d9.example"; "d10.example";
   "d11.example"].

(** A query for example.com. with ID 4660. *)
Definition query : DNS :=
  {| id := 4660; qr := 0; aa := 0; rd := 1; ra := 0; rcode := 0;
     qd := [mkQR (name "example.com.")]; an := []; ns := []; ar := [] |}.

End Scenario.

(** ** Vocabulary of the further properties *)

(** The shapes a log record can have: what goes with each resolution mode. *)
Definition record_ok (e : entry) : Prop :=
  (resolution_mode e = "Iterative (Cached)" /\ dns_server_ip e = "N/A" /\
   step_of_resolution e = "Cache" /\ round_trip_time e = 0%Q /\
   is_Some (total_time_to_resolution e) /\ cache_status e = "HIT") \/
  (resolution_mode e = "Iterative (Resolved)" /\
   step_of_resolution e = "Authoritative" /\
   is_Some (total_time_to_resolution e) /\ cache_status e = "MISS") \/
  ((resolution_mode e = "Iterative (Delegation)" \/
    resolution_mode e = "Iterative (Query Failed)" \/
    resolution_mode e = "Iterative (Failed delegation)") /\
   step_of_resolution e = get_step_type (dns_server_ip e) /\
   total_time_to_resolution e = None /\ cache_status e = "MISS") \/
  (resolution_mode e = "Iterative (Failed)" /\
   step_of_resolution e = get_step_type (dns_server_ip e) /\
   response_or_referral e = "Iteration limit reached" /\
   round_trip_time e = 0%Q /\
   is_Some (total_time_to_resolution e) /\ cache_status e = "MISS").

(** The record a turn of the hop loop writes for its own query. *)
Definition own_record (domain ip : string) (e : entry) : Prop :=
  domain_name e = domain /\ dns_server_ip e = ip /\ record_ok e.

(** A relation between the state before and after a run that is kept by
    every run of [self]. *)
Definition self_satisfies (R : State -> State -> Prop)
    (self : string -> option string -> Z -> Z -> M (option DNS)) : Prop :=
  forall name o depth max_depth s r s',
    self name o depth max_depth s = Some (r, s') -> R s s'.

(** At least one new record per new query. *)
Definition accounted (s s' : State) : Prop :=
  grows s s' /\
  (length (sent s') + length (log_entries (dns_log s))
   <= length (sent s) + length (log_entries (dns_log s')))%nat.

(** Every new query has a new record naming its server and its name. *)
Definition queries_logged (s s' : State) : Prop :=
  grows s s' /\
  forall i dst name,
    (length (sent s) <= i)%nat ->
    sent s' !! i = Some (dst, name) ->
    exists j e,
      (length (log_entries (dns_log s)) <= j)%nat /\
      log_entries (dns_log s') !! j = Some e /\
      dns_server_ip e = dst /\ domain_name e = name.

(** Every new record has one of the shapes of [record_ok]. *)
Definition records_ok (s s' : State) : Prop :=
  grows s s' /\
  forall j e,
    (length (log_entries (dns_log s)) <= j)%nat ->
    log_entries (dns_log s') !! j = Some e ->
    record_ok e.

(** Every cache entry was there before or has a new Resolved record for its
    name and address. *)
Definition cache_backed (s s' : State) : Prop :=
  grows s s' /\
  forall k a t,
    dns_cache s' !! k = Some (a, t) ->
    dns_cache s !! k = Some (a, t) \/
    exists j e,
      (length (log_entries (dns_log s)) <= j)%nat /\
      log_entries (dns_log s') !! j = Some e /\
      resolution_mode e = "Iterative (Resolved)" /\
      domain_name e = k /\
      response_or_referral e = "Answer: " ++ a.

(** Every datum for the plot was there before or has a new record for its
    name that carries its latency: a Resolved record, or a Cached record
    and then one server visited. *)
Definition plot_backed (s s' : State) : Prop :=
  grows s s' /\
  forall d x,
    (d, x) ∈ plot_data (dns_log s') ->
    (d, x) ∈ plot_data (dns_log s) \/
    exists j e,
      (length (log_entries (dns_log s)) <= j)%nat /\
      log_entries (dns_log s') !! j = Some e /\
      domain_name e = d /\
      total_time_to_resolution e = Some (total_latency x) /\
      (resolution_mode e = "Iterative (Resolved)" \/
       resolution_mode e = "Iterative (Cached)" /\
       total_servers_visited x = 1).

(** Whenever the root server is asked for [name] it refers to [name]
    itself as the first name server, without an answer and without a usable
    address in the additional section. *)
Definition self_referring (env : Env) (name : string) : Prop :=
  forall n, exists d rest,
    dns_of (sr1 env n ROOT_SERVER_IP name) = Some d /\
    answers d = [] /\
    ns_names d = name :: rest /\
    (forall glue, glue_ip d = Some glue -> Py.truthy glue = false).

(** The name, the mode, the server and the text of a log record. *)
Definition summary (e : entry) : string * string * string * string :=
  (domain_name e, resolution_mode e, dns_server_ip e, response_or_referral e).

(** The name does not end in a full stop. *)
Definition dotless (name : string) : Prop := forall p, name <> p ++ ".".

(** The name server named first in a reply ends in a full stop, as every
    name does that scapy dissects from a packet. *)
Definition dotted_referrals (env : Env) : Prop :=
  forall n dst name d fallback_ns rest,
    dns_of (sr1 env n dst name) = Some d ->
    ns_names d = fallback_ns :: rest ->
    exists p, fallback_ns = p ++ ".".

(** No new record says that the cycle guard fired. *)
Definition unguarded (s s' : State) : Prop :=
  grows s s' /\
  forall j e,
    (length (log_entries (dns_log s)) <= j)%nat ->
    log_entries (dns_log s') !! j = Some e ->
    response_or_referral e <> "No glue IP and NS same as original domain".

(** [unguarded] holds across the runs of [self] whose original domain has
    no final full stop. *)
Definition self_unguarded
    (self : string -> option string -> Z -> Z -> M (option DNS)) : Prop :=
  forall name o depth max_depth s r s',
    dotless (default name o) ->
    self name o depth max_depth s = Some (r, s') -> unguarded s s'.

(** [dns_query.qd] is not empty. *)
Definition has_question (dns_query : DNS) : bool :=
  match qd dns_query with [] => false | _ :: _ => true end.

(** The packet [pkt] is what the server may send back for [dns_query]: the
    ID and the question are those of the query, QR is set, and it is either
    an authoritative answer with records or SERVFAIL without any. *)
Definition reply_to (dns_query pkt : DNS) : Prop :=
  id pkt = id dns_query /\ qd pkt = qd dns_query /\ qr pkt = 1 /\
  ((rcode pkt = 0 /\ aa pkt = 1 /\ an pkt <> []) \/
   (rcode pkt = 2 /\ aa pkt = 0 /\ an pkt = [])).

(** ** Further concrete networks *)

Module Cases.
Import Scenario.

(** Two clock readings are 4000 seconds apart; the root server refers the
    first query on, with glue, and answers the later ones itself. *)
Definition shortcut_env : Env :=
  mkEnv (fun k => inject_Z (4000 * Z.of_nat k))
        (fun n dst _ =>
           if String.eqb dst ROOT_SERVER_IP then
             match n with
             | O => Reply (Some referral)
             | _ => Reply (Some answer)
             end
           else if String.eqb dst "199.43.135.53" then Reply (Some answer)
           else NoReply).

(** The state after example.com was resolved once through that chain, with
    two servers visited. *)
Definition shortcut_once : State :=
  snd (resolve_iteratively shortcut_env "example.com" None 0 10 initial_state).

(** An authority section with a type-6 (SOA) record only. *)
Definition no_data : DNS :=
  response [] [mkRR (name "com.") 6 (name "a.gtld-servers.net.")] [].

(** The root refers on with glue; the server referred to has no data. *)
Definition no_data_env : Env :=
  mkEnv seconds
        (fun _ dst _ =>
           if String.eqb dst ROOT_SERVER_IP then Reply (Some referral)
           else if String.eqb dst "199.43.135.53" then Reply (Some no_data)
           else NoReply).

(** A referral that names the queried domain itself as its name server,
    with an additional section that holds no address record. *)
Definition self_referral : DNS :=
  response [] [NS_record "example.com." "example.com."]
           [mkRR (name "example.com.") 28 (name "2001:db8::53")].

Definition self_referral_env : Env :=
  mkEnv seconds
        (fun _ dst _ =>
           if String.eqb dst ROOT_SERVER_IP then Reply (Some referral)
           else if String.eqb dst "199.43.135.53" then Reply (Some self_referral)
           else NoReply).

(** The root server refers every query for ns.example.net. to
    ns.example.net. itself, and example.com to ns.example.net., without
    glue. *)
Definition loop_env : Env :=
  mkEnv seconds
        (fun _ dst qname =>
           if String.eqb dst ROOT_SERVER_IP then
             Reply (Some (response []
                            [NS_record "example.net." "ns.example.net."] []))
           else NoReply).

(** A datagram without a question, then two queries. *)
Definition no_question : DNS :=
  {| id := 7; qr := 0; aa := 0; rd := 1; ra := 0; rcode := 0;
     qd := []; an := []; ns := []; ar := [] |}.

Definition other_query : DNS :=
  {| id := 4661; qr := 0; aa := 0; rd := 1; ra := 0; rcode := 0;
     qd := [mkQR (name "example.org.")]; an := []; ns := []; ar := [] |}.

End Cases.

(** * Properties *)

(** ** The built-ins at work *)

Example rstrip_dot_examples :
  Py.rstrip_dot "example.com." = "example.com" /\
  Py.rstrip_dot "a.b.." = "a.b" /\
  Py.rstrip_dot "..." = "" /\
  Py.rstrip_dot "Example.COM" = "Example.COM".
Proof. repeat split. Qed.

Example get_step_type_examples :
  get_step_type "198.41.0.4" = "Root" /\
  get_step_type "199.43.135.53" = "TLD/Authoritative" /\
  get_step_type "N/A" = "Unknown" /\
  get_step_type "192.0.2." = "Unknown".
Proof. repeat split. Qed.

Example decode_examples :
  Py.decode false (list_ascii_of_string "ns1.example.net.")
    = Some "ns1.example.net." /\
  Py.decode false ["a"; ascii_of_nat 200]%char = None /\
  Py.decode true ["a"; ascii_of_nat 200; "b"]%char = Some "ab" /\
  Py.decode true [ascii_of_nat 226; ascii_of_nat 130; "("]%char = Some "(".
Proof. repeat split. Qed.

Example cached_response_examples :
  dns_name "example.com" = list_ascii_of_string "example.com." /\
  dns_name "example.com." = list_ascii_of_string "example.com." /\
  dns_name "" = list_ascii_of_string "." /\
  rrname <$> an (cached_response "example.com" "93.184.216.34")
    = [list_ascii_of_string "example.com."] /\
  qname <$> qd (cached_response "example.com" "93.184.216.34")
    = [list_ascii_of_string "www.example.com."] /\
  answers (cached_response "example.com" "93.184.216.34") = ["93.184.216.34"].
Proof. repeat split. Qed.

(** ** Cache *)

Module CacheFacts.

Lemma get_lookup_None domain now (cache : gmap string (string * Q)) :
  cache !! domain = None -> DnsCache.get domain now cache = ((None, "MISS"), cache).
Proof. intros H. unfold DnsCache.get. now rewrite H. Qed.

Lemma get_fresh domain now (cache : gmap string (string * Q)) ip t :
  cache !! domain = Some (ip, t) -> (now - t < CACHE_TTL_SECONDS)%Q ->
  DnsCache.get domain now cache = ((Some ip, "HIT"), cache).
Proof.
  intros H Hlt. unfold DnsCache.get. rewrite H.
  apply QMicromega.Qlt_bool_iff in Hlt. now rewrite Hlt.
Qed.

Lemma get_stale domain now (cache : gmap string (string * Q)) ip t :
  cache !! domain = Some (ip, t) -> ~ (now - t < CACHE_TTL_SECONDS)%Q ->
  DnsCache.get domain now cache = ((None, "MISS"), delete domain cache).
Proof.
  intros H Hge. unfold DnsCache.get. rewrite H.
  destruct (QMicromega.Qlt_bool (now - t) CACHE_TTL_SECONDS) eqn:E; [|reflexivity].
  apply QMicromega.Qlt_bool_iff in E. contradiction.
Qed.

(** Whatever [get] answers, an entry found afterwards was there before. *)
Lemma get_no_write domain now (cache : gmap string (string * Q)) k v :
  snd (DnsCache.get domain now cache) !! k = Some v -> cache !! k = Some v.
Proof.
  unfold DnsCache.get. destruct (cache !! domain) as [[ip t]|] eqn:E; simpl; [|done].
  destruct (QMicromega.Qlt_bool _ _); simpl; [done|].
  intros H. apply lookup_delete_Some in H. tauto.
Qed.

End CacheFacts.

(** C6.  [get] answers the stored address with status HIT exactly when the
    key has an entry whose age [now - insertedAt] is below 3600 seconds, and
    then leaves the cache as it is; on an entry that is not fresh it deletes
    the entry and answers absent with MISS; on a missing key it answers
    absent with MISS; [set] overwrites whatever was stored under the key
    with the address and the current clock reading and touches no other
    key. *)
Theorem cache_get_set_spec
    (domain : string) (now : Q) (cache : gmap string (string * Q)) :
  (forall ip, fst (DnsCache.get domain now cache) = (Some ip, "HIT")
     <-> exists t, cache !! domain = Some (ip, t)
                   /\ (now - t < 3600)%Q) /\
  (forall ip status, fst (DnsCache.get domain now cache) = (Some ip, status)
     -> status = "HIT" /\ snd (DnsCache.get domain now cache) = cache) /\
  (forall ip t, cache !! domain = Some (ip, t) -> ~ (now - t < 3600)%Q ->
     DnsCache.get domain now cache = ((None, "MISS"), delete domain cache)) /\
  (cache !! domain = None ->
     DnsCache.get domain now cache = ((None, "MISS"), cache)) /\
  (forall ip, DnsCache.set domain ip now cache !! domain = Some (ip, now)) /\
  (forall ip other, other <> domain ->
     DnsCache.set domain ip now cache !! other = cache !! other).
Proof.
  repeat split.
  - unfold DnsCache.get. destruct (cache !! domain) as [[ip' t]|] eqn:E; [|discriminate].
    destruct (QMicromega.Qlt_bool (now - t) CACHE_TTL_SECONDS) eqn:L; [|discriminate].
    simpl. intros [= ->]. exists t. split; [reflexivity|].
    now apply QMicromega.Qlt_bool_iff in L.
  - intros [t [E L]]. now rewrite (CacheFacts.get_fresh _ _ _ _ _ E L).
  - revert H. unfold DnsCache.get. destruct (cache !! domain) as [[ip' t]|]; [|discriminate].
    destruct (QMicromega.Qlt_bool _ _); simpl; congruence.
  - revert H. unfold DnsCache.get. destruct (cache !! domain) as [[ip' t]|]; [|discriminate].
    destruct (QMicromega.Qlt_bool _ _); simpl; congruence.
  - intros ip t E L. now apply CacheFacts.get_stale with ip t.
  - apply CacheFacts.get_lookup_None.
  - intros ip. unfold DnsCache.set. apply lookup_insert_eq.
  - intros ip other Hne. unfold DnsCache.set. now apply lookup_insert_ne.
Qed.

(** An entry inserted at reading 100 is served at reading 3699 and purged at
    reading 3700. *)
Lemma cache_get_set_spec_witness :
  DnsCache.get "example.com" 3699 (DnsCache.set "example.com" "93.184.216.34" 100 ∅)
    = ((Some "93.184.216.34", "HIT"),
       DnsCache.set "example.com" "93.184.216.34" 100 ∅) /\
  DnsCache.get "example.com" 3700 (DnsCache.set "example.com" "93.184.216.34" 100 ∅)
    = ((None, "MISS"),
       delete "example.com" (DnsCache.set "example.com" "93.184.216.34" 100 ∅)).
Proof.
  pose proof (cache_get_set_spec "example.com" 100 ∅) as (_ & _ & _ & _ & Hset & _).
  split.
  - pose proof (cache_get_set_spec "example.com" 3699
                  (DnsCache.set "example.com" "93.184.216.34" 100 ∅))
      as (Hhit & Hkeep & _).
    assert (Hf : fst (DnsCache.get "example.com" 3699
                 (DnsCache.set "example.com" "93.184.216.34" 100 ∅))
                 = (Some "93.184.216.34", "HIT")).
    { apply Hhit. exists 100%Q. split; [apply Hset | reflexivity]. }
    destruct (Hkeep _ _ Hf) as [_ Hs].
    destruct (DnsCache.get _ _ _) as [r c]. simpl in *. congruence.
  - pose proof (cache_get_set_spec "example.com" 3700
                  (DnsCache.set "example.com" "93.184.216.34" 100 ∅))
      as (_ & _ & Hstale & _).
    apply (Hstale "93.184.216.34" 100%Q); [apply Hset|].
    intros H. vm_compute in H. discriminate.
Defined.

(** ** Reasoning about runs of the engine *)

Arguments tick : simpl never.
Arguments push_query : simpl never.
Arguments upd_log : simpl never.
Arguments with_cache : simpl never.

Lemma bind_Some {A B} (m : M A) (k : A -> M B) s b s' :
  bind m k s = Some (b, s') <->
  exists a s1, m s = Some (a, s1) /\ k a s1 = Some (b, s').
Proof.
  unfold bind. split.
  - destruct (m s) as [[a s1]|]; [eauto | discriminate].
  - intros (a & s1 & -> & H). exact H.
Qed.

(** The effects of a turn, laid open in a hypothesis or in the goal. *)
Ltac open_run H :=
  unfold hop, on_response, no_glue, delegate, log_step, record_plot_data,
    cache_set, with_log, bind, time, send, ret in H; simpl in H.

Ltac open_goal :=
  unfold hop, on_response, no_glue, delegate, log_step, record_plot_data,
    cache_set, with_log, bind, time, send, ret; simpl.

(** *** A relation kept by every step is kept by every run

    [R] relates the state before to the state after.  Caching a name [d]
    keeps [R] only when [K d]; every name resolved by a nested call differs
    from [original] and must satisfy [K]. *)
Section Preserved.
Variable env : Env.
Variable R : State -> State -> Prop.
Variable original : string.
Variable K : string -> Prop.
Hypothesis R_refl : forall s, R s s.
Hypothesis R_trans : forall s1 s2 s3, R s1 s2 -> R s2 s3 -> R s1 s3.
Hypothesis R_tick : forall s, R s (tick s).
Hypothesis R_push : forall dst name s, R s (push_query dst name s).
Hypothesis R_log : forall e s, R s (upd_log (Log.log_step e) s).
Hypothesis R_plot :
  forall d n l s, R s (upd_log (Log.record_plot_data d n l) s).
Hypothesis R_get :
  forall d now s, R s (with_cache (snd (DnsCache.get d now (dns_cache s))) s).
Hypothesis R_set :
  forall d ip now s, K d -> R s (with_cache (DnsCache.set d ip now (dns_cache s)) s).
Hypothesis K_ns : forall name, name <> original -> K name.

Ltac chain :=
  lazymatch goal with
  | |- R ?s ?s => apply R_refl
  | |- R ?s (tick ?x) => apply R_trans with x; [chain | apply R_tick]
  | |- R ?s (push_query _ _ ?x) => apply R_trans with x; [chain | apply R_push]
  | |- R ?s (upd_log (Log.log_step _) ?x) =>
      apply R_trans with x; [chain | apply R_log]
  | |- R ?s (upd_log (Log.record_plot_data _ _ _) ?x) =>
      apply R_trans with x; [chain | apply R_plot]
  | |- R ?s (with_cache (DnsCache.set ?d ?a ?t _) ?x) =>
      apply R_trans with x; [chain | exact (R_set d a t x ltac:(auto))]
  | |- R ?s (with_cache (snd (DnsCache.get ?d ?t _)) ?x) =>
      apply R_trans with x; [chain | exact (R_get d t x)]
  | H : R ?y ?x |- R ?s ?x => apply R_trans with y; [chain | exact H]
  end.

Lemma hop_keeps self domain depth t0 sv ip s out s' :
  self_keeps R original self ->
  hop env self domain original depth t0 sv ip s = Some (out, s') ->
  K domain \/ (forall d, out <> Return (Some d)) ->
  R s s'.
Proof.
  intros Hself H HK. open_run H.
  repeat case_match; simplify_eq;
    try match goal with
        | E : String.eqb _ _ = false, C : self _ _ _ _ _ = Some _ |- _ =>
            apply String.eqb_neq in E; apply (Hself _ _ _ _ _ _ E) in C
        end;
    try (destruct HK as [HK|HK]; [|exfalso; eapply HK; reflexivity]);
    chain.
Qed.

Lemma hop_loop_keeps self domain depth t0 hops :
  self_keeps R original self ->
  forall sv ip s r s',
    hop_loop env self domain original depth t0 hops sv ip s = Some (r, s') ->
    K domain \/ r = None ->
    R s s'.
Proof.
  intros Hself. induction hops as [|hops IH]; intros sv ip s r s' H HK.
  - simpl in H. open_run H. simplify_eq. chain.
  - simpl in H. apply bind_Some in H as (out & s1 & Hhop & Hk).
    destruct out as [result|next_ip].
    + unfold ret in Hk. simplify_eq.
      eapply hop_keeps; [exact Hself | exact Hhop |].
      destruct HK as [HK| ->]; [now left | right; discriminate].
    + apply R_trans with s1.
      * eapply hop_keeps; [exact Hself | exact Hhop | right; discriminate].
      * eapply IH; eassumption.
Qed.

Lemma cache_get_keeps domain s hit s' :
  cache_get env domain s = Some (hit, s') -> R s s'.
Proof.
  unfold cache_get. destruct (dns_cache s !! domain); intros H.
  - open_run H.
    pose proof (R_get domain (clock env (ticks s)) (tick s)) as Hg.
    change (dns_cache (tick s)) with (dns_cache s) in Hg.
    destruct (DnsCache.get domain (clock env (ticks s)) (dns_cache s)) as [res c].
    simplify_eq. apply R_trans with (tick s); [apply R_tick | exact Hg].
  - simplify_eq. apply R_refl.
Qed.

Lemma resolve_fuel_keeps fuel :
  forall domain o depth max_depth s r s',
    default domain o = original ->
    resolve_fuel env fuel domain o depth max_depth s = Some (r, s') ->
    K domain \/ r = None ->
    R s s'.
Proof.
  induction fuel as [|fuel IH]; intros domain o depth max_depth s r s' Ho H HK;
    [discriminate|].
  assert (Hself : self_keeps R original (resolve_fuel env fuel)).
  { intros name d m s0 r0 s0' Hne Hrun.
    apply (IH name (Some original) d m s0 r0 s0' eq_refl Hrun).
    left. now apply K_ns. }
  simpl in H. destruct (depth >? max_depth)%Z.
  { unfold ret in H. injection H as <- <-. apply R_refl. }
  apply bind_Some in H as (t0 & s1 & Ht & H). unfold time in Ht.
  injection Ht as <- <-.
  apply bind_Some in H as (hit & s2 & Hget & H).
  apply cache_get_keeps in Hget.
  apply R_trans with s2; [apply R_trans with (tick s); [apply R_tick | exact Hget]|].
  rewrite Ho in H.
  destruct (fst hit) as [ip|].
  - destruct (Py.truthy ip).
    + open_run H. simplify_eq. chain.
    + eapply hop_loop_keeps; eassumption.
  - eapply hop_loop_keeps; eassumption.
Qed.

End Preserved.

Lemma gtb_false (x y : Z) : x <= y -> (x >? y)%Z = false.
Proof. intros H. rewrite Z.gtb_ltb. now apply Z.ltb_ge. Qed.

Lemma gtb_true (x y : Z) : x > y -> (x >? y)%Z = true.
Proof. intros H. now apply Z.gtb_gt. Qed.

(** One unfolding of [resolve_fuel]. *)
Lemma resolve_fuel_unfold env fuel domain o depth max_depth :
  resolve_fuel env (S fuel) domain o depth max_depth =
  if (depth >? max_depth)%Z then ret None
  else
    total_start_time <- time env ;;
    hit <- cache_get env domain ;;
    match fst hit with
    | Some ip =>
        if Py.truthy ip then
          t <- time env ;;
          ts <- time env ;;
          log_step ts domain "Iterative (Cached)" "N/A" "Cache"
                   ("Answer: " ++ ip) 0 (Some (t - total_start_time)%Q)
                   (snd hit) ;;;
          record_plot_data domain 1 (t - total_start_time)%Q ;;;
          ret (Some (cached_response domain ip))
        else
          hop_loop env (resolve_fuel env fuel) domain (default domain o) depth
                   total_start_time (Z.to_nat max_depth) 0 ROOT_SERVER_IP
    | None =>
        hop_loop env (resolve_fuel env fuel) domain (default domain o) depth
                 total_start_time (Z.to_nat max_depth) 0 ROOT_SERVER_IP
    end.
Proof. reflexivity. Qed.

(** *** The recursion budget of the model is never the reason for a result *)

Section Budget.
Variable env : Env.

Lemma hop_extends self self' domain original depth t0 sv ip s x :
  extends self self' ->
  hop env self domain original depth t0 sv ip s = Some x ->
  hop env self' domain original depth t0 sv ip s = Some x.
Proof.
  intros Hext H. open_run H. open_goal.
  repeat case_match; simplify_eq; try reflexivity;
    repeat match goal with
           | C : self _ _ _ _ _ = Some _ |- _ => apply Hext in C
           end;
    congruence.
Qed.

Lemma hop_loop_extends self self' domain original depth t0 hops :
  extends self self' ->
  forall sv ip s x,
    hop_loop env self domain original depth t0 hops sv ip s = Some x ->
    hop_loop env self' domain original depth t0 hops sv ip s = Some x.
Proof.
  intros Hext. induction hops as [|hops IH]; intros sv ip s [r s'] H;
    [exact H|].
  simpl in *. apply bind_Some in H as (out & s1 & Hhop & Hk).
  apply bind_Some. exists out, s1. split.
  - eapply hop_extends; eassumption.
  - destruct out; [exact Hk | now apply IH].
Qed.

Lemma resolve_fuel_S fuel :
  extends (resolve_fuel env fuel) (resolve_fuel env (S fuel)).
Proof.
  induction fuel as [|fuel IH]; intros domain o depth max_depth s x H;
    [discriminate|].
  rewrite resolve_fuel_unfold in H. rewrite resolve_fuel_unfold.
  destruct (depth >? max_depth)%Z; [exact H|]. destruct x as [r s'].
  apply bind_Some in H as (t0 & s1 & Ht & H).
  apply bind_Some. exists t0, s1. split; [exact Ht|].
  apply bind_Some in H as (hit & s2 & Hg & H).
  apply bind_Some. exists hit, s2. split; [exact Hg|].
  destruct (fst hit) as [ip|]; [destruct (Py.truthy ip); [exact H|]|];
    (eapply hop_loop_extends; [exact IH | exact H]).
Qed.

Lemma resolve_fuel_le fuel fuel' :
  (fuel <= fuel')%nat -> extends (resolve_fuel env fuel) (resolve_fuel env fuel').
Proof.
  induction 1 as [|fuel' _ IH]; intros domain o depth max_depth s x H;
    [exact H|].
  apply resolve_fuel_S. now apply IH.
Qed.

Lemma hop_returns self domain original depth t0 sv ip s :
  always_returns self (depth + 1) ->
  is_Some (hop env self domain original depth t0 sv ip s).
Proof.
  intros Hself. open_goal.
  repeat case_match; simplify_eq; try done;
    match goal with
    | C : self ?n ?o _ _ ?s = None |- _ =>
        destruct (Hself n o s) as [? ?]; congruence
    end.
Qed.

Lemma hop_loop_returns self domain original depth t0 hops :
  always_returns self (depth + 1) ->
  forall sv ip s,
    is_Some (hop_loop env self domain original depth t0 hops sv ip s).
Proof.
  intros Hself. induction hops as [|hops IH]; intros sv ip s;
    [simpl; open_goal; done|].
  simpl. unfold bind at 1.
  destruct (hop_returns self domain original depth t0 sv ip s Hself)
    as [[out s1] ->].
  destruct out; [done | apply IH].
Qed.

Lemma cache_get_returns domain s : is_Some (cache_get env domain s).
Proof.
  unfold cache_get. destruct (dns_cache s !! domain); [|done].
  open_goal. now destruct (DnsCache.get _ _ _).
Qed.

Lemma resolve_fuel_body_returns fuel domain o depth max_depth s :
  always_returns (resolve_fuel env fuel) (depth + 1) ->
  is_Some (resolve_fuel env (S fuel) domain o depth max_depth s).
Proof.
  intros Hself. rewrite resolve_fuel_unfold.
  destruct (depth >? max_depth)%Z; [done|].
  unfold bind at 1. simpl. unfold bind at 1.
  destruct (cache_get_returns domain (tick s)) as [[hit s2] ->].
  destruct (fst hit) as [ip|]; [destruct (Py.truthy ip); [done|]|];
    now apply hop_loop_returns.
Qed.

Lemma nested_returns fuel :
  forall depth, (S (Z.to_nat (11 - depth)) <= fuel)%nat ->
  always_returns (resolve_fuel env fuel) depth.
Proof.
  induction fuel as [|fuel IH]; intros depth Hfuel name o s; [lia|].
  destruct (Z.gtb_spec depth 10) as [Hgt|Hle].
  - rewrite resolve_fuel_unfold.
    rewrite gtb_true by lia. done.
  - apply resolve_fuel_body_returns. apply IH. lia.
Qed.

Lemma resolve_fuel_returns domain o depth max_depth s :
  is_Some (resolve_fuel env (fuel_for depth) domain o depth max_depth s).
Proof.
  unfold fuel_for. apply resolve_fuel_body_returns, nested_returns. lia.
Qed.

(** The result does not depend on the budget once it reaches [fuel_for]. *)
Lemma resolve_fuel_enough fuel domain o depth max_depth s :
  (fuel_for depth <= fuel)%nat ->
  resolve_fuel env fuel domain o depth max_depth s
  = Some (resolve_iteratively env domain o depth max_depth s).
Proof.
  intros Hfuel. unfold resolve_iteratively.
  destruct (resolve_fuel_returns domain o depth max_depth s) as [x Hx].
  rewrite Hx. eapply resolve_fuel_le; eassumption.
Qed.

Lemma resolve_iteratively_run domain o depth max_depth s r s' :
  resolve_iteratively env domain o depth max_depth s = (r, s') ->
  resolve_fuel env (fuel_for depth) domain o depth max_depth s = Some (r, s').
Proof. intros <-. now apply resolve_fuel_enough. Qed.

End Budget.

(** *** How many queries a call can send *)

Ltac open_state :=
  unfold upd_log, tick, push_query, with_cache in *; simpl in *;
  rewrite ?length_app in *; simpl in *.

Section Work.
Variable env : Env.

Lemma hop_work self domain original depth t0 sv ip W s out s' :
  sends_at_most self (depth + 1) W ->
  hop env self domain original depth t0 sv ip s = Some (out, s') ->
  (length (sent s') <= length (sent s) + (1 + W))%nat.
Proof.
  intros Hself H. open_run H.
  repeat case_match; simplify_eq;
    try match goal with
        | C : self _ _ _ _ _ = Some _ |- _ => apply Hself in C
        end;
    open_state; lia.
Qed.

Lemma hop_loop_work self domain original depth t0 W hops :
  sends_at_most self (depth + 1) W ->
  forall sv ip s r s',
    hop_loop env self domain original depth t0 hops sv ip s = Some (r, s') ->
    (length (sent s') <= length (sent s) + hops * (1 + W))%nat.
Proof.
  intros Hself. induction hops as [|hops IH]; intros sv ip s r s' H.
  - simpl in H. open_run H. simplify_eq. open_state. lia.
  - simpl in H. apply bind_Some in H as (out & s1 & Hhop & Hk).
    apply (hop_work _ _ _ _ _ _ _ W) in Hhop; [|exact Hself].
    destruct out as [result|next_ip].
    + unfold ret in Hk. simplify_eq. lia.
    + apply IH in Hk. lia.
Qed.

Lemma cache_get_sent domain s hit s' :
  cache_get env domain s = Some (hit, s') -> sent s' = sent s.
Proof.
  unfold cache_get. destruct (dns_cache s !! domain); intros H.
  - open_run H. destruct (DnsCache.get _ _ _). now simplify_eq.
  - now simplify_eq.
Qed.

Lemma resolve_fuel_body_work fuel domain o depth max_depth W s r s' :
  sends_at_most (resolve_fuel env fuel) (depth + 1) W ->
  resolve_fuel env (S fuel) domain o depth max_depth s = Some (r, s') ->
  (length (sent s') <= length (sent s) + Z.to_nat max_depth * (1 + W))%nat.
Proof.
  intros Hself H. rewrite resolve_fuel_unfold in H.
  destruct (depth >? max_depth)%Z.
  { unfold ret in H. simplify_eq. lia. }
  apply bind_Some in H as (t0 & s1 & Ht & H). unfold time in Ht. simplify_eq.
  apply bind_Some in H as (hit & s2 & Hget & H).
  apply cache_get_sent in Hget.
  assert (Hs2 : length (sent s2) = length (sent s)) by now rewrite Hget.
  destruct (fst hit) as [ip|]; [destruct (Py.truthy ip)|].
  - open_run H. simplify_eq. open_state. lia.
  - apply (hop_loop_work _ _ _ _ _ W) in H; [lia | exact Hself].
  - apply (hop_loop_work _ _ _ _ _ W) in H; [lia | exact Hself].
Qed.

Lemma nested_work fuel :
  forall depth,
    sends_at_most (resolve_fuel env fuel) depth (work (Z.to_nat (11 - depth))).
Proof.
  induction fuel as [|fuel IH]; intros depth name o s r s' H; [discriminate|].
  destruct (Z_le_gt_dec depth 10) as [Hle|Hgt].
  - apply (resolve_fuel_body_work _ _ _ _ _ _ _ _ _ (IH (depth + 1))) in H.
    replace (Z.to_nat (11 - depth)) with (S (Z.to_nat (11 - (depth + 1))))
      by lia.
    change (Z.to_nat 10) with 10%nat in H. simpl work. lia.
  - rewrite resolve_fuel_unfold in H.
    rewrite gtb_true in H by lia.
    unfold ret in H. simplify_eq. lia.
Qed.

Lemma resolve_iteratively_work domain o depth max_depth s r s' :
  resolve_iteratively env domain o depth max_depth s = (r, s') ->
  (length (sent s') <=
   length (sent s) + Z.to_nat max_depth * (1 + work (Z.to_nat (10 - depth))))%nat.
Proof.
  intros H. apply resolve_iteratively_run in H. unfold fuel_for in H.
  apply (resolve_fuel_body_work _ _ _ _ _ _ _ _ _ (nested_work _ (depth + 1))) in H.
  now replace (11 - (depth + 1))%Z with (10 - depth)%Z in H by lia.
Qed.

End Work.

(** *** Walking a delegation chain *)

Lemma logged_nil l : logged [] l l.
Proof. unfold logged. now rewrite app_nil_r. Qed.

Lemma logged_step e es l l' :
  logged es (Log.log_step e l) l' -> logged (e :: es) l l'.
Proof.
  unfold logged. simpl. intros (-> & -> & -> & ->).
  now rewrite <- app_assoc.
Qed.

Section Chain.
Variable env : Env.
Variable self : string -> option string -> Z -> Z -> M (option DNS).
Variables (domain original : string) (depth : Z) (t0 : Q).

Lemma hop_timeout sv ip s :
  dns_of (sr1 env (length (sent s)) ip domain) = None ->
  hop env self domain original depth t0 sv ip s
  = Some (Return None,
          upd_log (Log.log_step
                     (mkEntry (clock env (S (S (ticks s)))) domain
                        "Iterative (Query Failed)" ip (get_step_type ip)
                        "Timeout or invalid response"
                        (clock env (S (ticks s)) - clock env (ticks s))%Q
                        None "MISS"))
                  (tick (tick (push_query ip domain (tick s))))).
Proof. intros H. open_goal. now rewrite H. Qed.

Lemma hop_glue sv ip s d glue :
  dns_of (sr1 env (length (sent s)) ip domain) = Some d ->
  glue_referral d glue ->
  hop env self domain original depth t0 sv ip s
  = Some (Continue glue,
          upd_log (Log.log_step
                     (mkEntry (clock env (S (S (ticks s)))) domain
                        "Iterative (Delegation)" ip (get_step_type ip)
                        ("Delegation to: " ++ Py.join ", " (ns_names d)
                                           ++ " @ Glue IP: " ++ glue)
                        (clock env (S (ticks s)) - clock env (ticks s))%Q
                        None "MISS"))
                  (tick (tick (push_query ip domain (tick s))))).
Proof.
  intros H (Ha & Hn & Hg & Ht). open_goal. rewrite H, Ha, Hg, Ht.
  now destruct (ns_names d).
Qed.

Lemma hop_answer sv ip s d a rest :
  dns_of (sr1 env (length (sent s)) ip domain) = Some d ->
  answers d = a :: rest ->
  hop env self domain original depth t0 sv ip s
  = Some (Return (Some d),
          upd_log (Log.record_plot_data domain (sv + 1)
                     (clock env (S (S (S (ticks s)))) - t0)%Q)
            (with_cache
               (DnsCache.set domain a (clock env (S (S (S (S (ticks s))))))
                          (dns_cache s))
               (tick
                  (upd_log
                     (Log.log_step
                        (mkEntry (clock env (S (S (ticks s)))) domain
                           "Iterative (Resolved)" ip "Authoritative"
                           ("Answer: " ++ a)
                           (clock env (S (ticks s)) - clock env (ticks s))%Q
                           (Some (clock env (S (S (S (ticks s)))) - t0)%Q)
                           "MISS"))
                     (tick (tick (tick (push_query ip domain (tick s))))))))).
Proof. intros H Ha. open_goal. now rewrite H, Ha. Qed.

(** A chain of referrals with glue that ends in an answer, walked within the
    turns that are left. *)
Lemma hop_loop_chain chain :
  forall hops sv ip s asked_last final a rest,
    referral_chain env domain (length (sent s)) ip chain asked_last ->
    dns_of (sr1 env (length (sent s) + length chain) asked_last domain) = Some final ->
    answers final = a :: rest ->
    (length chain < hops)%nat ->
    exists s' L delegations resolved now latency,
      hop_loop env self domain original depth t0 hops sv ip s
        = Some (Some final, s') /\
      length (sent s') = S (length (sent s) + length chain) /\
      last (sent s') = Some (asked_last, domain) /\
      dns_cache s' = <[domain := (a, now)]> (dns_cache s) /\
      dns_log s' = Log.record_plot_data domain
                     (sv + Z.of_nat (length chain) + 1) latency L /\
      logged (delegations ++ [resolved])%list (dns_log s) L /\
      length delegations = length chain /\
      Forall (fun e => resolution_mode e = "Iterative (Delegation)"
                       /\ domain_name e = domain) delegations /\
      resolution_mode resolved = "Iterative (Resolved)" /\
      domain_name resolved = domain /\
      dns_server_ip resolved = asked_last /\
      response_or_referral resolved = "Answer: " ++ a /\
      total_time_to_resolution resolved = Some latency.
Proof.
  induction chain as [|d chain IH];
    intros hops sv ip s asked_last final a rest Hchain Hfinal Ha Hhops;
    (destruct hops as [|hops]; [simpl in Hhops; lia|]).
  - simpl in Hchain. subst asked_last. rewrite Nat.add_0_r in Hfinal.
    eexists _, _, [], _, _, _. simpl hop_loop. unfold bind at 1.
    rewrite (hop_answer sv ip s final a rest Hfinal Ha). unfold ret.
    split; [reflexivity|]. open_state. rewrite Nat.add_0_r, Nat.add_1_r.
    split; [reflexivity|]. split; [apply last_snoc|].
    split; [reflexivity|]. split; [now rewrite Z.add_0_r|].
    split; [apply logged_step, logged_nil|]. repeat split; constructor.
  - simpl in Hchain. destruct Hchain as (Hd & glue & Hglue & Hchain).
    simpl hop_loop. unfold bind at 1. rewrite (hop_glue sv ip s d glue Hd Hglue).
    match goal with |- context [hop_loop _ _ _ _ _ _ _ _ _ ?s1] =>
      specialize (IH hops (sv + 1) glue s1 asked_last final a rest) end.
    destruct IH as (s' & L & dels & res & now & lat & Hrun & Hsent & Hlast
                    & Hcache & Hlog & HL & Hlen & Hdel & Hres).
    + open_state. now rewrite Nat.add_1_r.
    + open_state. simpl in Hfinal.
      now replace (length (sent s) + 1 + length chain)%nat
        with (length (sent s) + S (length chain))%nat by lia.
    + exact Ha.
    + simpl in Hhops. lia.
    + eexists s', L, (_ :: dels), res, now, lat.
      split; [exact Hrun|]. open_state.
      split; [lia|]. split; [exact Hlast|]. split; [exact Hcache|].
      split; [rewrite Hlog; f_equal; lia|].
      split; [apply logged_step, HL|].
      split; [now rewrite Hlen|].
      split; [constructor; [now split | exact Hdel]|]. exact Hres.
Qed.

End Chain.

(** *** Reading the sections of a reply *)

Lemma a_rdata_type rr a : a_rdata rr = Some a -> type rr = 1.
Proof.
  destruct rr as [n t d]. simpl. revert d.
  destruct (Z.eqb_spec t 1) as [->|Hne]; [reflexivity | discriminate].
Qed.

Lemma a_rdata_other rr : type rr <> 1 -> a_rdata rr = None.
Proof.
  intros Hne. destruct (a_rdata rr) as [a|] eqn:E; [|reflexivity].
  apply a_rdata_type in E. contradiction.
Qed.

(** The head of [answers] is the data of the first type-1 record. *)
Lemma answers_first d pre rr post a :
  an d = (pre ++ rr :: post)%list ->
  Forall (fun r => type r <> 1) pre ->
  a_rdata rr = Some a ->
  answers d = a :: omap a_rdata post.
Proof.
  intros Han Hpre Hrr. unfold answers. rewrite Han. clear Han.
  induction Hpre as [|r pre Hr _ IH]; simpl.
  - now rewrite Hrr.
  - now rewrite (a_rdata_other r Hr).
Qed.

(** The head of the addresses of the additional section likewise. *)
Lemma glue_ip_first d pre rr post a :
  ar d = (pre ++ rr :: post)%list ->
  Forall (fun r => type r <> 1) pre ->
  a_rdata rr = Some a ->
  glue_ip d = Some a.
Proof.
  intros Har Hpre Hrr. unfold glue_ip. rewrite Har. clear Har.
  induction Hpre as [|r pre Hr _ IH]; simpl.
  - now rewrite Hrr.
  - now rewrite (a_rdata_other r Hr).
Qed.

(** *** The cache lookup that opens a call *)

Lemma cache_get_miss env domain s :
  cache_misses env domain s ->
  exists hit s2,
    cache_get env domain (tick s) = Some (hit, s2) /\
    sent s2 = sent s /\ dns_log s2 = dns_log s /\
    (forall k v, dns_cache s2 !! k = Some v -> dns_cache s !! k = Some v) /\
    (forall ip, fst hit = Some ip -> Py.truthy ip = false).
Proof.
  intros Hmiss. unfold cache_get.
  change (dns_cache (tick s)) with (dns_cache s).
  destruct (dns_cache s !! domain) as [[ip t]|] eqn:E.
  - open_goal. unfold DnsCache.get.
    change (dns_cache (tick s)) with (dns_cache s). rewrite E.
    change (ticks (tick s)) with (S (ticks s)).
    destruct (QMicromega.Qlt_bool _ _) eqn:L.
    + eexists _, _. split; [reflexivity|]. repeat split; [done|].
      simpl. intros ip' [= <-]. apply QMicromega.Qlt_bool_iff in L.
      destruct (Py.truthy ip) eqn:T; [|reflexivity].
      now destruct (Hmiss ip t E T).
    + eexists _, _. split; [reflexivity|]. repeat split; [|done].
      intros k v Hk. open_state. apply lookup_delete_Some in Hk. tauto.
  - eexists _, _. split; [reflexivity|]. repeat split; done.
Qed.

Lemma resolve_fuel_miss env fuel domain o depth max_depth s hit s2 :
  depth <= max_depth ->
  cache_get env domain (tick s) = Some (hit, s2) ->
  (forall ip, fst hit = Some ip -> Py.truthy ip = false) ->
  resolve_fuel env (S fuel) domain o depth max_depth s
  = hop_loop env (resolve_fuel env fuel) domain (default domain o) depth
             (clock env (ticks s)) (Z.to_nat max_depth) 0 ROOT_SERVER_IP s2.
Proof.
  intros Hdepth Hget Hfalsy. rewrite resolve_fuel_unfold, (gtb_false _ _ Hdepth).
  unfold bind at 1. unfold time at 1. unfold bind at 1. rewrite Hget.
  destruct (fst hit) as [ip|] eqn:E; [|reflexivity].
  now rewrite (Hfalsy ip eq_refl).
Qed.

Lemma record_plot_data_entries domain n latency l :
  log_entries (Log.record_plot_data domain n latency l) = log_entries l.
Proof. unfold Log.record_plot_data. now destruct (_ && _). Qed.

(** The two cases of [record_plot_data]. *)
Lemma record_plot_data_new (domain : string) (n : Z) (latency : Q) (l : DnsLog) :
  plot_lookup domain (plot_data l) = None ->
  (unique_domains_resolved_count l < max_domains_for_plot l)%Z ->
  Log.record_plot_data domain n latency l
  = {| log_entries := log_entries l;
       plot_data := plot_data l ++ [(domain, mkDatum n latency)];
       unique_domains_resolved_count := unique_domains_resolved_count l + 1;
       max_domains_for_plot := max_domains_for_plot l |}.
Proof.
  intros Hnew Hroom. unfold Log.record_plot_data. rewrite Hnew.
  apply Z.ltb_lt in Hroom. rewrite Hroom.
  rewrite bool_decide_eq_false_2; [reflexivity|]. now intros [? ?].
Qed.

Lemma record_plot_data_noop (domain : string) (n : Z) (latency : Q) (l : DnsLog) :
  is_Some (plot_lookup domain (plot_data l))
  \/ (max_domains_for_plot l <= unique_domains_resolved_count l)%Z ->
  Log.record_plot_data domain n latency l = l.
Proof.
  intros [Hold|Hfull]; unfold Log.record_plot_data.
  - now rewrite bool_decide_eq_true_2.
  - apply Z.ltb_ge in Hfull. rewrite Hfull. now rewrite andb_false_r.
Qed.

(** C1.  A call that is within its depth limit and finds no usable cache
    entry, whose queries from the root server on are answered by [k - 1]
    referrals with glue and then, at hop [k <= max_depth], by a reply whose
    answer section holds a type-1 record: the call returns that reply, the
    address [a] it settles on is that of the first type-1 record of the
    answer section, [k] queries were sent, a Resolved record naming [a] and
    the server asked last is logged after the [k - 1] Delegation records,
    the cache maps the name to [a], and [k] is reported to the logger as
    the number of servers visited, with the total time of the Resolved
    record: when the domain has no datum for the plot yet and the count of
    registered domains is below the maximum, the datum [(k, latency)] is
    registered for it after those of before and the count goes up by one;
    otherwise the data for the plot and the count stay as they were. *)
Theorem resolve_follows_glue_chain
    (env : Env) (domain : string) (o : option string) (depth max_depth : Z)
    (s : State) (chain : list DNS) (server_k : string) (final : DNS)
    (pre : list DNSRR) (rr : DNSRR) (post : list DNSRR) (a : string) :
  depth <= max_depth ->
  Z.of_nat (length chain) + 1 <= max_depth ->
  cache_misses env domain s ->
  referral_chain env domain (length (sent s)) ROOT_SERVER_IP chain server_k ->
  dns_of (sr1 env (length (sent s) + length chain) server_k domain) = Some final ->
  an final = (pre ++ rr :: post)%list ->
  Forall (fun r => type r <> 1) pre ->
  a_rdata rr = Some a ->
  exists s' L delegations resolved now latency,
    resolve_iteratively env domain o depth max_depth s = (Some final, s') /\
    head (answers final) = Some a /\
    length (sent s') = (length (sent s) + length chain + 1)%nat /\
    last (sent s') = Some (server_k, domain) /\
    logged (delegations ++ [resolved])%list (dns_log s) L /\
    length delegations = length chain /\
    Forall (fun e => resolution_mode e = "Iterative (Delegation)"
                     /\ domain_name e = domain) delegations /\
    resolution_mode resolved = "Iterative (Resolved)" /\
    domain_name resolved = domain /\
    dns_server_ip resolved = server_k /\
    response_or_referral resolved = "Answer: " ++ a /\
    total_time_to_resolution resolved = Some latency /\
    dns_cache s' !! domain = Some (a, now) /\
    dns_log s' = Log.record_plot_data domain
                   (Z.of_nat (length chain) + 1) latency L /\
    log_entries (dns_log s')
      = (log_entries (dns_log s) ++ delegations ++ [resolved])%list /\
    (plot_lookup domain (plot_data (dns_log s)) = None ->
     unique_domains_resolved_count (dns_log s)
       < max_domains_for_plot (dns_log s) ->
     plot_data (dns_log s')
       = (plot_data (dns_log s)
          ++ [(domain, mkDatum (Z.of_nat (length chain) + 1) latency)])%list /\
     unique_domains_resolved_count (dns_log s')
       = unique_domains_resolved_count (dns_log s) + 1) /\
    (is_Some (plot_lookup domain (plot_data (dns_log s)))
     \/ max_domains_for_plot (dns_log s)
        <= unique_domains_resolved_count (dns_log s) ->
     plot_data (dns_log s') = plot_data (dns_log s) /\
     unique_domains_resolved_count (dns_log s')
       = unique_domains_resolved_count (dns_log s)).
Proof.
  intros Hdepth Hk Hmiss Hchain Hfinal Han Hpre Hrr.
  pose proof (answers_first final pre rr post a Han Hpre Hrr) as Ha.
  destruct (cache_get_miss env domain s Hmiss)
    as (hit & s2 & Hget & Hsent & Hlog & _ & Hfalsy).
  assert (Hloop : forall self original,
    exists s' L delegations resolved now latency,
      hop_loop env self domain original depth (clock env (ticks s))
               (Z.to_nat max_depth) 0 ROOT_SERVER_IP s2 = Some (Some final, s') /\
      length (sent s') = S (length (sent s2) + length chain) /\
      last (sent s') = Some (server_k, domain) /\
      dns_cache s' = <[domain := (a, now)]> (dns_cache s2) /\
      dns_log s' = Log.record_plot_data domain
                     (0 + Z.of_nat (length chain) + 1) latency L /\
      logged (delegations ++ [resolved])%list (dns_log s2) L /\
      length delegations = length chain /\
      Forall (fun e => resolution_mode e = "Iterative (Delegation)"
                       /\ domain_name e = domain) delegations /\
      resolution_mode resolved = "Iterative (Resolved)" /\
      domain_name resolved = domain /\
      dns_server_ip resolved = server_k /\
      response_or_referral resolved = "Answer: " ++ a /\
      total_time_to_resolution resolved = Some latency).
  { intros self original.
    apply hop_loop_chain with (rest := omap a_rdata post);
      rewrite ?Hsent; [assumption | assumption | assumption | lia]. }
  unfold resolve_iteratively, fuel_for.
  rewrite (resolve_fuel_miss _ _ _ _ _ _ _ _ _ Hdepth Hget Hfalsy).
  destruct (Hloop (resolve_fuel env (S (Z.to_nat (10 - depth)))) (default domain o))
    as (s' & L & dels & res & now & lat & Hres & Hs & Hlast & Hc & Hl & HL
        & Hlen & Hdel & Hm & Hd & Hip & Hans & Htotal).
  exists s', L, dels, res, now, lat.
  split; [now rewrite Hres|].
  split; [now rewrite Ha|]. split; [rewrite Hs, Hsent; lia|].
  split; [exact Hlast|]. rewrite <- Hlog.
  split; [exact HL|]. split; [exact Hlen|]. split; [exact Hdel|].
  split; [exact Hm|]. split; [exact Hd|]. split; [exact Hip|].
  split; [exact Hans|]. split; [exact Htotal|].
  split; [rewrite Hc; apply lookup_insert_eq|].
  replace (0 + Z.of_nat (length chain) + 1) with (Z.of_nat (length chain) + 1)
    in Hl by lia.
  split; [exact Hl|]. destruct HL as (Hentries & Hplot & Hcount & Hmax).
  split; [now rewrite Hl, record_plot_data_entries|].
  split.
  - intros Hnew Hroom. rewrite Hl, record_plot_data_new; simpl;
      rewrite ?Hplot, ?Hcount, ?Hmax; auto.
  - intros Hold. rewrite Hl, record_plot_data_noop;
      rewrite ?Hplot, ?Hcount, ?Hmax; auto.
Qed.

(** The scenario of the specification: two servers visited, the address
    cached, the datum registered.  And the same name resolved again after
    its entry has expired, now by the root server itself: one server is
    visited and the datum registered the first time stays. *)
Lemma resolve_follows_glue_chain_witness :
  (exists s' L delegations resolved now latency,
     resolve_iteratively Scenario.glue_env "example.com" None 0 10 initial_state
       = (Some Scenario.answer, s') /\
     head (answers Scenario.answer) = Some "93.184.216.34" /\
     length (sent s') = 2%nat /\
     last (sent s') = Some ("199.43.135.53", "example.com") /\
     logged (delegations ++ [resolved])%list Log.init L /\
     length delegations = 1%nat /\
     Forall (fun e => resolution_mode e = "Iterative (Delegation)"
                      /\ domain_name e = "example.com") delegations /\
     resolution_mode resolved = "Iterative (Resolved)" /\
     domain_name resolved = "example.com" /\
     dns_server_ip resolved = "199.43.135.53" /\
     response_or_referral resolved = "Answer: 93.184.216.34" /\
     total_time_to_resolution resolved = Some latency /\
     dns_cache s' !! "example.com" = Some ("93.184.216.34", now) /\
     dns_log s' = Log.record_plot_data "example.com" 2 latency L /\
     log_entries (dns_log s') = (delegations ++ [resolved])%list /\
     plot_data (dns_log s') = [("example.com", mkDatum 2 latency)] /\
     unique_domains_resolved_count (dns_log s') = 1) /\
  (exists s' L resolved now latency,
     resolve_iteratively Cases.shortcut_env "example.com" None 0 10
                         Cases.shortcut_once = (Some Scenario.answer, s') /\
     length (sent s') = 3%nat /\
     last (sent s') = Some (ROOT_SERVER_IP, "example.com") /\
     logged [resolved] (dns_log Cases.shortcut_once) L /\
     resolution_mode resolved = "Iterative (Resolved)" /\
     dns_server_ip resolved = ROOT_SERVER_IP /\
     total_time_to_resolution resolved = Some latency /\
     dns_cache s' !! "example.com" = Some ("93.184.216.34", now) /\
     dns_log s' = Log.record_plot_data "example.com" 1 latency L /\
     plot_data (dns_log s') = [("example.com", mkDatum 2 28000)] /\
     unique_domains_resolved_count (dns_log s') = 1).
Proof.
  split.
  - destruct (resolve_follows_glue_chain Scenario.glue_env "example.com" None
                0 10 initial_state [Scenario.referral] "199.43.135.53"
                Scenario.answer []
                (Scenario.A_record "example.com." "93.184.216.34") []
                "93.184.216.34")
      as (s' & L & dels & res & now & lat & H1 & H2 & H3 & H4 & H5 & H6 & H7
          & H8 & H9 & H10 & H11 & H12 & H13 & H14 & H15 & Hnew & _).
    + lia.
    + simpl. lia.
    + intros ip t H. simpl in H. rewrite lookup_empty in H. discriminate.
    + simpl. split; [reflexivity|]. exists "199.43.135.53".
      split; [|reflexivity]. repeat split; discriminate || reflexivity.
    + reflexivity.
    + reflexivity.
    + constructor.
    + reflexivity.
    + destruct Hnew as [Hplot Hcount]; [reflexivity | simpl; lia |].
      exists s', L, dels, res, now, lat.
      exact (conj H1 (conj H2 (conj H3 (conj H4 (conj H5 (conj H6 (conj H7
             (conj H8 (conj H9 (conj H10 (conj H11 (conj H12 (conj H13
             (conj H14 (conj H15 (conj Hplot Hcount)))))))))))))))).
  - destruct (resolve_follows_glue_chain Cases.shortcut_env "example.com" None
                0 10 Cases.shortcut_once [] ROOT_SERVER_IP
                Scenario.answer []
                (Scenario.A_record "example.com." "93.184.216.34") []
                "93.184.216.34")
      as (s' & L & dels & res & now & lat & H1 & H2 & H3 & H4 & H5 & H6 & H7
          & H8 & H9 & H10 & H11 & H12 & H13 & H14 & H15 & _ & Hold).
    + lia.
    + simpl. lia.
    + intros ip t H _ Hfresh. vm_compute in H. injection H as <- <-.
      vm_compute in Hfresh. discriminate.
    + reflexivity.
    + reflexivity.
    + reflexivity.
    + constructor.
    + reflexivity.
    + destruct Hold as [Hplot Hcount]; [left; vm_compute; eauto|].
      destruct dels; [|discriminate].
      exists s', L, res, now, lat.
      exact (conj H1 (conj H3 (conj H4 (conj H5 (conj H8 (conj H10 (conj H12
             (conj H13 (conj H14 (conj Hplot Hcount)))))))))).
Defined.

(** ** The cache path *)

Lemma cache_get_hit env domain s ip t :
  dns_cache s !! domain = Some (ip, t) ->
  (clock env (ticks s) - t < 3600)%Q ->
  cache_get env domain s = Some ((Some ip, "HIT"), tick s).
Proof.
  intros E L. unfold cache_get. rewrite E. open_goal.
  change (dns_cache (tick s)) with (dns_cache s).
  rewrite (CacheFacts.get_fresh _ _ _ _ _ E L).
  now destruct s.
Qed.

(** C2, as the claim reads: a fresh entry is served on every call, the depth
    limit notwithstanding.  It fails: at depth 11 with the limit at 10 the
    entry that [get] would serve is not looked at, the call returns [None]
    and logs nothing. *)
Lemma cached_entry_not_served_beyond_depth_limit :
  fst (DnsCache.get "example.com" (Scenario.seconds 1)
         (dns_cache Scenario.cached_state))
    = (Some "93.184.216.34", "HIT") /\
  resolve_iteratively Scenario.glue_env "example.com" None 11 10
                      Scenario.cached_state
    = (None, Scenario.cached_state).
Proof. split; reflexivity. Qed.

(** C2, amended.  The depth check comes first: a call with
    [depth > max_depth] returns [None] and leaves the state as it is, cache
    entry or not.  A call with [depth <= max_depth] that finds a non-empty
    entry for the name whose age at the lookup is below 3600 seconds returns
    the packet built from the cached address, sends no query, leaves the
    cache as it is and appends exactly one log record, of mode
    "Iterative (Cached)", with cache status HIT and round-trip time zero. *)
Theorem resolve_cache_hit
    (env : Env) (domain : string) (o : option string) (depth max_depth : Z)
    (s : State) :
  (depth > max_depth ->
   resolve_iteratively env domain o depth max_depth s = (None, s)) /\
  (forall ip t,
     depth <= max_depth ->
     dns_cache s !! domain = Some (ip, t) ->
     (clock env (S (ticks s)) - t < 3600)%Q ->
     Py.truthy ip = true ->
     exists s' e,
       resolve_iteratively env domain o depth max_depth s
         = (Some (cached_response domain ip), s') /\
       answers (cached_response domain ip) = [ip] /\
       sent s' = sent s /\
       dns_cache s' = dns_cache s /\
       log_entries (dns_log s') = (log_entries (dns_log s) ++ [e])%list /\
       domain_name e = domain /\
       resolution_mode e = "Iterative (Cached)" /\
       response_or_referral e = "Answer: " ++ ip /\
       round_trip_time e = 0%Q /\
       cache_status e = "HIT").
Proof.
  split.
  - intros Hgt. unfold resolve_iteratively, fuel_for.
    now rewrite resolve_fuel_unfold, gtb_true.
  - intros ip t Hle E L T. unfold resolve_iteratively, fuel_for.
    rewrite resolve_fuel_unfold, (gtb_false _ _ Hle).
    unfold bind at 1. unfold time at 1. unfold bind at 1.
    rewrite (cache_get_hit env domain (tick s) ip t E L).
    cbn [fst snd]. rewrite T. open_goal.
    eexists _, _. split; [reflexivity|].
    split.
    { unfold answers, cached_response. simpl. reflexivity. }
    open_state. rewrite record_plot_data_entries. repeat split; reflexivity.
Qed.

(** A second call within the hour is answered from the cache. *)
Lemma resolve_cache_hit_witness :
  exists s' e,
    resolve_iteratively Scenario.glue_env "example.com" None 0 10
                        Scenario.cached_state
      = (Some (cached_response "example.com" "93.184.216.34"), s') /\
    answers (cached_response "example.com" "93.184.216.34")
      = ["93.184.216.34"] /\
    sent s' = sent Scenario.cached_state /\
    dns_cache s' = dns_cache Scenario.cached_state /\
    log_entries (dns_log s')
      = (log_entries (dns_log Scenario.cached_state) ++ [e])%list /\
    domain_name e = "example.com" /\
    resolution_mode e = "Iterative (Cached)" /\
    response_or_referral e = "Answer: 93.184.216.34" /\
    round_trip_time e = 0%Q /\
    cache_status e = "HIT".
Proof.
  destruct (resolve_cache_hit Scenario.glue_env "example.com" None 0 10
              Scenario.cached_state) as [_ H].
  apply (H "93.184.216.34" 0%Q).
  - lia.
  - reflexivity.
  - reflexivity.
  - reflexivity.
Defined.

(** ** Delegation with glue *)

(** C4, as the claim reads: the next server is the address of the additional
    record owned by the first name server.  It fails: the authority section
    names ns1.example.net., whose address record carries 192.0.2.53, yet the
    second query goes to 203.0.113.9, the address of the record that comes
    first, owned by mail.example.org. *)
Lemma glue_is_not_matched_by_owner :
  head (ns_names Scenario.mismatched_referral) = Some "ns1.example.net." /\
  (forall rr, In rr (ar Scenario.mismatched_referral) ->
     rrname rr = Scenario.name "ns1.example.net." ->
     a_rdata rr = Some "192.0.2.53") /\
  sent (snd (resolve_iteratively Scenario.mismatched_env "example.com"
               None 0 10 initial_state))
    = [(ROOT_SERVER_IP, "example.com"); ("203.0.113.9", "example.com")].
Proof.
  split; [reflexivity|]. split; [|reflexivity].
  intros rr [<-|[<-|[]]]; [discriminate | reflexivity].
Qed.

(** C4, amended.  When a reply has no address in its answer section and
    names at least one server in its authority section, the glue address is
    the data of the first type-1 record of the additional section, whichever
    name owns it; if it is non-empty, the turn logs one Delegation record
    and the loop goes on with that address as the server to ask. *)
Theorem delegation_uses_first_additional_address
    (env : Env) (self : string -> option string -> Z -> Z -> M (option DNS))
    (domain original : string) (depth : Z) (t0 : Q) (hops : nat) (sv : Z)
    (ip : string) (s : State) (d : DNS)
    (pre : list DNSRR) (rr : DNSRR) (post : list DNSRR) (glue : string) :
  dns_of (sr1 env (length (sent s)) ip domain) = Some d ->
  answers d = [] ->
  ns_names d <> [] ->
  ar d = (pre ++ rr :: post)%list ->
  Forall (fun r => type r <> 1) pre ->
  a_rdata rr = Some glue ->
  Py.truthy glue = true ->
  exists e,
    domain_name e = domain /\
    resolution_mode e = "Iterative (Delegation)" /\
    dns_server_ip e = ip /\
    hop env self domain original depth t0 sv ip s
      = Some (Continue glue,
              upd_log (Log.log_step e)
                      (tick (tick (push_query ip domain (tick s))))) /\
    hop_loop env self domain original depth t0 (S hops) sv ip s
      = hop_loop env self domain original depth t0 hops (sv + 1) glue
                 (upd_log (Log.log_step e)
                          (tick (tick (push_query ip domain (tick s))))).
Proof.
  intros Hd Ha Hn Har Hpre Hrr Ht.
  assert (Hg : glue_referral d glue).
  { repeat split; try assumption. now apply glue_ip_first with pre rr post. }
  pose proof (hop_glue env self domain original depth t0 sv ip s d glue Hd Hg)
    as Hhop.
  eexists. split; [|split; [|split; [|split; [exact Hhop|]]]]; try reflexivity.
  simpl hop_loop. unfold bind at 1. now rewrite Hhop.
Qed.

Lemma delegation_uses_first_additional_address_witness :
  exists e,
    domain_name e = "example.com" /\
    resolution_mode e = "Iterative (Delegation)" /\
    dns_server_ip e = ROOT_SERVER_IP /\
    hop Scenario.mismatched_env (resolve_fuel Scenario.mismatched_env 0)
        "example.com" "example.com" 0 0 0 ROOT_SERVER_IP initial_state
      = Some (Continue "203.0.113.9",
              upd_log (Log.log_step e)
                (tick (tick (push_query ROOT_SERVER_IP "example.com"
                                        (tick initial_state))))) /\
    hop_loop Scenario.mismatched_env (resolve_fuel Scenario.mismatched_env 0)
             "example.com" "example.com" 0 0 10 0 ROOT_SERVER_IP initial_state
      = hop_loop Scenario.mismatched_env
                 (resolve_fuel Scenario.mismatched_env 0)
                 "example.com" "example.com" 0 0 9 (0 + 1) "203.0.113.9"
                 (upd_log (Log.log_step e)
                    (tick (tick (push_query ROOT_SERVER_IP "example.com"
                                            (tick initial_state))))).
Proof.
  apply (delegation_uses_first_additional_address Scenario.mismatched_env
           (resolve_fuel Scenario.mismatched_env 0) "example.com" "example.com"
           0 0 9 0 ROOT_SERVER_IP initial_state Scenario.mismatched_referral
           [] (Scenario.A_record "mail.example.org." "203.0.113.9")
           [Scenario.A_record "ns1.example.net." "192.0.2.53"] "203.0.113.9").
  - reflexivity.
  - reflexivity.
  - discriminate.
  - reflexivity.
  - constructor.
  - reflexivity.
  - reflexivity.
Defined.

(** ** Queries and log records only accumulate *)

Lemma grows_refl s : grows s s.
Proof. split; reflexivity. Qed.

Lemma grows_trans s1 s2 s3 : grows s1 s2 -> grows s2 s3 -> grows s1 s3.
Proof. intros [? ?] [? ?]. split; etrans; eassumption. Qed.

Lemma resolve_fuel_grows env fuel domain o depth max_depth s r s' :
  resolve_fuel env fuel domain o depth max_depth s = Some (r, s') -> grows s s'.
Proof.
  intros H.
  apply (resolve_fuel_keeps env grows (default domain o) (fun _ => True))
    with (fuel := fuel) (domain := domain) (o := o) (depth := depth)
         (max_depth := max_depth) (r := r);
    try (intros; split; open_state; rewrite ?record_plot_data_entries;
         try reflexivity; try apply prefix_app_r; reflexivity);
    eauto using grows_refl, grows_trans.
Qed.

Ltac grows_steps :=
  try (intros; split; open_state; rewrite ?record_plot_data_entries;
       try reflexivity; try apply prefix_app_r; reflexivity);
  eauto using grows_refl, grows_trans.

Lemma hop_grows env self domain original depth t0 sv ip s out s' :
  self_keeps grows original self ->
  hop env self domain original depth t0 sv ip s = Some (out, s') ->
  grows s s'.
Proof.
  intros Hself H.
  apply (hop_keeps env grows original (fun _ => True))
    with (self := self) (domain := domain) (depth := depth) (t0 := t0)
         (sv := sv) (ip := ip) (out := out); grows_steps.
Qed.

Lemma hop_loop_grows env self domain original depth t0 hops sv ip s r s' :
  self_keeps grows original self ->
  hop_loop env self domain original depth t0 hops sv ip s = Some (r, s') ->
  grows s s'.
Proof.
  intros Hself H.
  apply (hop_loop_keeps env grows original (fun _ => True))
    with (self := self) (domain := domain) (depth := depth) (t0 := t0)
         (hops := hops) (sv := sv) (ip := ip) (r := r); grows_steps.
Qed.

(** ** A query that gets no usable reply *)

Lemma reports_nothing_sent env s s' failed :
  sent s' = sent s -> reports env s s' failed.
Proof.
  intros Hs i dst name Hi Hq _. rewrite Hs in Hq.
  apply lookup_lt_Some in Hq. lia.
Qed.

Section Reports.
Variable env : Env.
Variable self : string -> option string -> Z -> Z -> M (option DNS).
Variables (domain original : string) (depth : Z) (t0 : Q).
Hypothesis self_grows : self_keeps grows original self.
Hypothesis self_rep : self_reports env self.

Lemma hop_reports sv ip s out s' :
  hop env self domain original depth t0 sv ip s = Some (out, s') ->
  reports env s s' (out = Return None).
Proof.
  intros H i dst name Hi Hq Hbad.
  pose proof (hop_grows _ _ _ _ _ _ _ _ _ _ _ self_grows H) as [Hpre _].
  destruct (dns_of (sr1 env (length (sent s)) ip domain)) as [d|] eqn:Hreply.
  - (* the query of this turn was answered *)
    assert (Hfirst : sent s' !! length (sent s) = Some (ip, domain)).
    { open_run H. rewrite Hreply in H.
      repeat case_match; simplify_eq;
        try match goal with
            | E : String.eqb _ _ = false, C : self _ _ _ _ _ = Some _ |- _ =>
                apply String.eqb_neq in E;
                apply (self_grows _ _ _ _ _ _ E) in C; destruct C as [C _];
                open_state; eapply prefix_lookup_Some; [|exact C]
            end;
        open_state; now apply list_lookup_middle. }
    assert (Hlt : (length (sent s) < i)%nat).
    { destruct (decide (i = length (sent s))) as [->|]; [|lia].
      rewrite Hfirst in Hq. simplify_eq. }
    open_run H. rewrite Hreply in H.
    repeat case_match; simplify_eq;
      try (exfalso; apply lookup_lt_Some in Hq; open_state; lia);
      match goal with
      | C : self _ _ _ _ ?s1 = Some (?o, ?s2) |- _ =>
          destruct (self_rep _ _ _ _ _ _ _ C i dst name)
            as (-> & j & e & Hj & He & Hm);
            [open_state; lia | exact Hq | exact Hbad |]
      end;
      try discriminate;
      (split; [reflexivity|]); exists j, e; open_state;
      (split; [exact Hj|]); (split; [|exact Hm]);
      now apply lookup_app_l_Some.
  - (* it was not *)
    rewrite (hop_timeout env self domain original depth t0 sv ip s Hreply) in H.
    simplify_eq. split; [reflexivity|].
    open_state.
    assert (i = length (sent s)) as ->.
    { apply lookup_lt_Some in Hq. rewrite length_app in Hq. simpl in Hq. lia. }
    rewrite list_lookup_middle in Hq by reflexivity. simplify_eq.
    eexists (length (log_entries (dns_log s))), _.
    split; [lia|]. split; [now apply list_lookup_middle|].
    repeat split.
Qed.

Lemma hop_loop_reports hops :
  forall sv ip s r s',
    hop_loop env self domain original depth t0 hops sv ip s = Some (r, s') ->
    reports env s s' (r = None).
Proof.
  induction hops as [|hops IH]; intros sv ip s r s' H.
  - simpl in H. open_run H. simplify_eq. now apply reports_nothing_sent.
  - simpl in H. apply bind_Some in H as (out & s1 & Hhop & Hk).
    pose proof (hop_reports _ _ _ _ _ Hhop) as Hrep.
    pose proof (hop_grows _ _ _ _ _ _ _ _ _ _ _ self_grows Hhop) as [Hs1 Hl1].
    destruct out as [result|next_ip].
    + unfold ret in Hk. simplify_eq. intros i dst name Hi Hq Hbad.
      destruct (Hrep i dst name Hi Hq Hbad) as [Hr Hlog].
      split; [congruence | exact Hlog].
    + pose proof (hop_loop_grows _ _ _ _ _ _ _ _ _ _ _ _ self_grows Hk)
        as [Hs2 Hl2].
      intros i dst name Hi Hq Hbad.
      destruct (decide (i < length (sent s1))%nat) as [Hlt|Hge].
      * assert (Hq1 : sent s1 !! i = Some (dst, name)).
        { destruct Hs2 as [k Hk2]. rewrite Hk2 in Hq.
          now rewrite lookup_app_l in Hq. }
        destruct (Hrep i dst name Hi Hq1 Hbad) as [Hr _]. discriminate.
      * destruct (IH _ _ _ _ _ Hk i dst name ltac:(lia) Hq Hbad)
          as (Hr & j & e & Hj & He & Hm).
        split; [exact Hr|]. exists j, e. split; [|now split].
        apply prefix_length in Hl1. lia.
Qed.

End Reports.

Lemma resolve_fuel_reports env fuel : self_reports env (resolve_fuel env fuel).
Proof.
  induction fuel as [|fuel IH]; intros domain o depth max_depth s r s' H;
    [discriminate|].
  rewrite resolve_fuel_unfold in H. destruct (depth >? max_depth)%Z.
  { unfold ret in H. simplify_eq. now apply reports_nothing_sent. }
  apply bind_Some in H as (t0 & s1 & Ht & H). unfold time in Ht. simplify_eq.
  apply bind_Some in H as (hit & s2 & Hget & H).
  assert (Hsent : sent s2 = sent s) by now apply cache_get_sent in Hget.
  assert (Hlog : dns_log s2 = dns_log s).
  { revert Hget. unfold cache_get. destruct (dns_cache _ !! _); intros Hget.
    - open_run Hget. destruct (DnsCache.get _ _ _). now simplify_eq.
    - now simplify_eq. }
  assert (Hloop : forall r s',
    hop_loop env (resolve_fuel env fuel) domain (default domain o) depth
             (clock env (ticks s)) (Z.to_nat max_depth) 0 ROOT_SERVER_IP s2
      = Some (r, s') -> reports env s s' (r = None)).
  { intros r0 s0 Hrun.
    assert (Hg : self_keeps grows (default domain o) (resolve_fuel env fuel)).
    { intros name d m sa ra sb _ Hr. eapply resolve_fuel_grows, Hr. }
    pose proof (hop_loop_reports env _ _ _ _ _ Hg IH _ _ _ _ _ _ Hrun) as Hrep.
    unfold reports in *. rewrite Hsent, Hlog in Hrep. exact Hrep. }
  destruct (fst hit) as [ip|]; [destruct (Py.truthy ip)|]; [|now apply Hloop..].
  open_run H. simplify_eq. apply reports_nothing_sent. open_state. exact Hsent.
Qed.

(** ** Failing calls and the cache *)

Lemma resolve_fuel_no_write env fuel domain o depth max_depth s r s' :
  default domain o = domain ->
  resolve_fuel env fuel domain o depth max_depth s = Some (r, s') ->
  r = None ->
  no_write domain s s'.
Proof.
  intros Ho H Hr.
  apply (resolve_fuel_keeps env (no_write domain) domain (fun d => d <> domain))
    with (fuel := fuel) (domain := domain) (o := o) (depth := depth)
         (max_depth := max_depth) (r := r); auto;
    unfold no_write; try (intros; open_state; auto; fail).
  - intros d now s0 v. open_state. apply CacheFacts.get_no_write.
  - intros d ip now s0 Hd v. open_state. unfold DnsCache.set.
    now rewrite lookup_insert_ne.
Qed.

(** C5, as the claim reads: a call that fails on an unanswered query leaves
    the cache as it was for the name it was asked.  It fails twice over.
    Resolving ns1.example.net. on behalf of example.com, the third query gets
    no reply and the call returns [None], yet the cache now holds
    ns1.example.net., written by the nested call that resolved the same name.
    And a call for example.com whose only query gets no reply has deleted
    the stale entry it found. *)
Lemma failing_call_changes_cache_of_queried_name :
  (let run := resolve_iteratively Scenario.self_hosted_env "ns1.example.net."
                (Some "example.com") 1 10 initial_state in
   sent (snd run) !! 2%nat = Some ("192.0.2.53", "ns1.example.net.") /\
   sr1 Scenario.self_hosted_env 2 "192.0.2.53" "ns1.example.net." = NoReply /\
   fst run = None /\
   dns_cache initial_state !! "ns1.example.net." = None /\
   dns_cache (snd run) !! "ns1.example.net."
     = Some ("192.0.2.53", Scenario.seconds 9)) /\
  (let run := resolve_iteratively Scenario.silent_env "example.com" None 0 10
                Scenario.stale_state in
   sent (snd run) = [(ROOT_SERVER_IP, "example.com")] /\
   fst run = None /\
   dns_cache Scenario.stale_state !! "example.com"
     = Some ("93.184.216.34", 0%Q) /\
   dns_cache (snd run) !! "example.com" = None).
Proof. vm_compute. repeat split; reflexivity. Qed.

(** C5, amended.  Whatever query of a call gets no reply, or a reply without
    a DNS layer, the call returns [None] and the log has a new Query Failed
    record for that server and name.  And a call that returns [None] and was
    made with the original domain equal to the queried name (as every call
    of the server is) has written no cache entry for that name: an entry
    found afterwards was there before. *)
Theorem failed_query_fails_resolution
    (env : Env) (domain : string) (o : option string) (depth max_depth : Z)
    (s : State) (r : option DNS) (s' : State) :
  resolve_iteratively env domain o depth max_depth s = (r, s') ->
  (forall i dst name,
     (length (sent s) <= i)%nat ->
     sent s' !! i = Some (dst, name) ->
     dns_of (sr1 env i dst name) = None ->
     r = None /\
     exists j e,
       (length (log_entries (dns_log s)) <= j)%nat /\
       log_entries (dns_log s') !! j = Some e /\
       resolution_mode e = "Iterative (Query Failed)" /\
       dns_server_ip e = dst /\ domain_name e = name) /\
  (r = None -> default domain o = domain ->
   forall v, dns_cache s' !! domain = Some v -> dns_cache s !! domain = Some v).
Proof.
  intros H. apply resolve_iteratively_run in H. split.
  - exact (resolve_fuel_reports env _ _ _ _ _ _ _ _ H).
  - intros Hr Ho. exact (resolve_fuel_no_write env _ _ _ _ _ _ _ _ Ho H Hr).
Qed.

(** The root does not reply: the call fails, logs it, and the cache has
    nothing for the name. *)
Lemma failed_query_fails_resolution_witness :
  let run := resolve_iteratively Scenario.silent_env "example.com" None 0 10
               initial_state in
  (fst run = None /\
   exists j e,
     (length (log_entries (dns_log initial_state)) <= j)%nat /\
     log_entries (dns_log (snd run)) !! j = Some e /\
     resolution_mode e = "Iterative (Query Failed)" /\
     dns_server_ip e = ROOT_SERVER_IP /\ domain_name e = "example.com") /\
  (forall v, dns_cache (snd run) !! "example.com" = Some v ->
             dns_cache initial_state !! "example.com" = Some v).
Proof.
  intros run.
  destruct (failed_query_fails_resolution Scenario.silent_env "example.com"
              None 0 10 initial_state (fst run) (snd run)) as [Hq Hc].
  - subst run. now destruct (resolve_iteratively _ _ _ _ _ _).
  - split.
    + apply (Hq 0%nat ROOT_SERVER_IP "example.com").
      * simpl. lia.
      * reflexivity.
      * reflexivity.
    + apply Hc; reflexivity.
Defined.

(** ** Delegation without glue *)

Section NoGlue.
Variable self : string -> option string -> Z -> Z -> M (option DNS).
Variables (domain original : string) (depth : Z).
Variables (ts rtt : Q) (ip step : string).

(** The name server is the original domain itself: the turn fails at once,
    with one Failed delegation record, no query and no nested call. *)
Lemma no_glue_cycle_guard s :
  no_glue self domain original depth ts rtt ip step original s
  = Some (Return None,
          upd_log (Log.log_step
                     (mkEntry ts domain "Iterative (Failed delegation)" ip step
                        "No glue IP and NS same as original domain"
                        rtt None "MISS")) s).
Proof. unfold no_glue. now rewrite String.eqb_refl. Qed.

(** Otherwise the name is resolved by a nested call at [depth + 1]; the
    turn goes on when the first record of the answer section of what the
    nested call returns is of type 1, with its address as the next server,
    and fails with a Failed delegation record in every other case. *)
Lemma no_glue_nested fallback_ns s temp s1 :
  fallback_ns <> original ->
  self fallback_ns (Some original) (depth + 1) 10 s = Some (temp, s1) ->
  no_glue self domain original depth ts rtt ip step fallback_ns s
  = match first_answer_address temp with
    | Some next_ip =>
        Some (Continue next_ip,
              upd_log (Log.log_step
                         (mkEntry ts domain "Iterative (Delegation)" ip step
                            "Timeout or invalid response" rtt None "MISS")) s1)
    | None =>
        Some (Return None,
              upd_log (Log.log_step
                         (mkEntry ts domain "Iterative (Failed delegation)" ip
                            step ("Failed to resolve next NS IP: " ++ fallback_ns)
                            rtt None "MISS")) s1)
    end.
Proof.
  intros Hne Hself. unfold no_glue.
  apply String.eqb_neq in Hne. rewrite Hne.
  unfold bind at 1. rewrite Hself. now destruct (first_answer_address temp).
Qed.

End NoGlue.

(** C3.  The nested call for ns1.example.net. settles on 192.0.2.53, logs
    it as Resolved and caches it; because the answer section it returns
    opens with a CNAME record, the caller takes the nested call for failed,
    logs a Failed delegation and returns [None] without asking 192.0.2.53.
    Asked again, the same call gets the name server from the cache, goes on
    to 192.0.2.53 and resolves example.com. *)
Theorem nested_answer_behind_cname_is_dropped :
  let run1 := resolve_iteratively Scenario.alias_env "example.com" None 0 10
                initial_state in
  let run2 := resolve_iteratively Scenario.alias_env "example.com" None 0 10
                (snd run1) in
  fst run1 = None /\
  sent (snd run1) = [(ROOT_SERVER_IP, "example.com");
                     (ROOT_SERVER_IP, "ns1.example.net.")] /\
  map (fun e => (domain_name e, resolution_mode e, response_or_referral e))
      (log_entries (dns_log (snd run1)))
    = [("ns1.example.net.", "Iterative (Resolved)", "Answer: 192.0.2.53");
       ("example.com", "Iterative (Failed delegation)",
        "Failed to resolve next NS IP: ns1.example.net.")] /\
  fst <$> dns_cache (snd run1) !! "ns1.example.net." = Some "192.0.2.53" /\
  answers <$> fst run2 = Some ["93.184.216.34"] /\
  sent (snd run2) = [(ROOT_SERVER_IP, "example.com");
                     (ROOT_SERVER_IP, "ns1.example.net.");
                     (ROOT_SERVER_IP, "example.com");
                     ("192.0.2.53", "example.com")].
Proof. vm_compute. repeat split; reflexivity. Qed.

(** ** Termination and bounds *)

Section Exhaust.
Variable env : Env.
Variable self : string -> option string -> Z -> Z -> M (option DNS).
Variables (domain original : string) (depth : Z) (t0 : Q).

(** As many referrals with glue as there are turns: the loop runs out and
    the function returns [None] after logging that the iteration limit is
    reached. *)
Lemma hop_loop_exhaust chain :
  forall sv ip s asked_last,
    referral_chain env domain (length (sent s)) ip chain asked_last ->
    exists s' e,
      hop_loop env self domain original depth t0 (length chain) sv ip s
        = Some (None, s') /\
      length (sent s') = (length (sent s) + length chain)%nat /\
      last (log_entries (dns_log s')) = Some e /\
      domain_name e = domain /\
      resolution_mode e = "Iterative (Failed)" /\
      dns_server_ip e = asked_last /\
      response_or_referral e = "Iteration limit reached".
Proof.
  induction chain as [|d chain IH]; intros sv ip s asked_last Hchain.
  - simpl in Hchain. subst asked_last. simpl. open_goal.
    eexists _, _. split; [reflexivity|]. open_state.
    split; [lia|]. split; [apply last_snoc|]. repeat split.
  - simpl in Hchain. destruct Hchain as (Hd & glue & Hglue & Hchain).
    simpl hop_loop. unfold bind at 1.
    rewrite (hop_glue env self domain original depth t0 sv ip s d glue Hd Hglue).
    match goal with |- context [hop_loop _ _ _ _ _ _ _ _ _ ?s1] =>
      destruct (IH (sv + 1) glue s1 asked_last) as (s' & e & Hrun & Hs & He)
    end.
    + open_state. now rewrite Nat.add_1_r.
    + exists s', e. split; [exact Hrun|]. open_state.
      split; [lia | exact He].
Qed.

End Exhaust.

(** C7.  A call returns, whatever the network replies: the result of the
    model does not depend on its recursion budget once that reaches
    [fuel_for depth].  A call with [depth > max_depth] returns [None] and
    changes nothing.  The loop of one activation takes at most [hops] turns:
    when a nested call sends at most [W] queries, the loop sends at most
    [hops * (1 + W)].  A nested resolution is a call at [depth + 1] with the
    limit 10, so a whole call sends at most
    [max_depth * (1 + work (10 - depth))] queries.  And when every turn is
    spent on a referral with glue, the call returns [None] with the record
    "Iteration limit reached" after [max_depth] queries. *)
Theorem resolve_terminates
    (env : Env) (domain : string) (o : option string) (depth max_depth : Z)
    (s : State) :
  (forall fuel, (fuel_for depth <= fuel)%nat ->
     resolve_fuel env fuel domain o depth max_depth s
     = Some (resolve_iteratively env domain o depth max_depth s)) /\
  (depth > max_depth ->
     resolve_iteratively env domain o depth max_depth s = (None, s)) /\
  (forall self original t0 hops sv ip W s0 r s',
     sends_at_most self (depth + 1) W ->
     hop_loop env self domain original depth t0 hops sv ip s0 = Some (r, s') ->
     (length (sent s') <= length (sent s0) + hops * (1 + W))%nat) /\
  (forall self original ts rtt ip step fallback_ns,
     fallback_ns <> original ->
     no_glue self domain original depth ts rtt ip step fallback_ns
     = (temp_ns_resp <- self fallback_ns (Some original) (depth + 1) 10 ;;
        match first_answer_address temp_ns_resp with
        | Some next_ip =>
            delegate domain ts rtt ip step "Timeout or invalid response" next_ip
        | None =>
            log_step ts domain "Iterative (Failed delegation)" ip step
                     ("Failed to resolve next NS IP: " ++ fallback_ns)
                     rtt None "MISS" ;;;
            ret (Return None)
        end)) /\
  (length (sent (snd (resolve_iteratively env domain o depth max_depth s)))
   <= length (sent s)
      + Z.to_nat max_depth * (1 + work (Z.to_nat (10 - depth))))%nat /\
  (forall chain asked_last,
     depth <= max_depth ->
     cache_misses env domain s ->
     length chain = Z.to_nat max_depth ->
     referral_chain env domain (length (sent s)) ROOT_SERVER_IP chain asked_last ->
     exists s' e,
       resolve_iteratively env domain o depth max_depth s = (None, s') /\
       length (sent s') = (length (sent s) + Z.to_nat max_depth)%nat /\
       last (log_entries (dns_log s')) = Some e /\
       domain_name e = domain /\
       resolution_mode e = "Iterative (Failed)" /\
       response_or_referral e = "Iteration limit reached").
Proof.
  split; [|split; [|split; [|split; [|split]]]].
  - intros fuel Hfuel. now apply resolve_fuel_enough.
  - intros Hgt. unfold resolve_iteratively, fuel_for.
    now rewrite resolve_fuel_unfold, gtb_true.
  - intros self original t0 hops sv ip W s0 r s' Hself Hrun.
    eapply hop_loop_work; eassumption.
  - intros self original ts rtt ip step fallback_ns Hne. unfold no_glue.
    apply String.eqb_neq in Hne. now rewrite Hne.
  - destruct (resolve_iteratively env domain o depth max_depth s) as [r s'] eqn:E.
    now apply resolve_iteratively_work in E.
  - intros chain asked_last Hdepth Hmiss Hlen Hchain.
    destruct (cache_get_miss env domain s Hmiss)
      as (hit & s2 & Hget & Hsent & Hlog & _ & Hfalsy).
    unfold resolve_iteratively, fuel_for.
    rewrite (resolve_fuel_miss _ _ _ _ _ _ _ _ _ Hdepth Hget Hfalsy).
    rewrite <- Hsent in Hchain. rewrite <- Hlen.
    destruct (hop_loop_exhaust env (resolve_fuel env (S (Z.to_nat (10 - depth))))
                domain (default domain o) depth (clock env (ticks s))
                chain 0 ROOT_SERVER_IP s2 asked_last Hchain)
      as (s' & e & Hrun & Hs & Hl & Hd & Hm & _ & Hr).
    exists s', e. rewrite Hrun. rewrite Hs, Hsent. repeat split; assumption.
Qed.

(** With a limit of two turns and referrals without end: two queries, then
    "Iteration limit reached"; and beyond the depth limit nothing happens. *)
Lemma resolve_terminates_witness :
  resolve_fuel Scenario.endless_env 50 "example.com" None 0 2 initial_state
    = Some (resolve_iteratively Scenario.endless_env "example.com" None 0 2
              initial_state) /\
  resolve_iteratively Scenario.endless_env "example.com" None 3 2 initial_state
    = (None, initial_state) /\
  (exists r s',
     hop_loop Scenario.endless_env (fun _ _ _ _ => ret None)
              "example.com" "example.com" 0 0 2 0 ROOT_SERVER_IP initial_state
       = Some (r, s') /\
     (length (sent s') <= length (sent initial_state) + 2 * (1 + 0))%nat) /\
  no_glue (fun _ _ _ _ => ret None) "example.com" "example.com" 0 0 0
          ROOT_SERVER_IP "Root" "ns1.example.net." initial_state
    = Some (Return None,
            upd_log (Log.log_step
                       (mkEntry 0 "example.com" "Iterative (Failed delegation)"
                          ROOT_SERVER_IP "Root"
                          "Failed to resolve next NS IP: ns1.example.net."
                          0 None "MISS")) initial_state) /\
  exists s' e,
    resolve_iteratively Scenario.endless_env "example.com" None 0 2
                        initial_state = (None, s') /\
    length (sent s') = 2%nat /\
    last (log_entries (dns_log s')) = Some e /\
    domain_name e = "example.com" /\
    resolution_mode e = "Iterative (Failed)" /\
    response_or_referral e = "Iteration limit reached".
Proof.
  pose proof (resolve_terminates Scenario.endless_env "example.com" None 0 2
                initial_state) as (Hfuel & _ & Hloop & Hnested & _ & Hlimit).
  split; [|split; [|split; [|split]]].
  - apply Hfuel. unfold fuel_for. simpl. lia.
  - apply (resolve_terminates Scenario.endless_env "example.com" None 3 2
             initial_state). lia.
  - destruct (hop_loop Scenario.endless_env (fun _ _ _ _ => ret None)
                "example.com" "example.com" 0 0 2 0 ROOT_SERVER_IP initial_state)
      as [[r s']|] eqn:E; [|vm_compute in E; discriminate].
    exists r, s'. split; [reflexivity|].
    apply (Hloop (fun _ _ _ _ => ret None) "example.com" 0%Q 2%nat 0
                 ROOT_SERVER_IP 0%nat initial_state r s'); [|exact E].
    intros name o s r0 s0 [= <- <-]. lia.
  - rewrite (Hnested (fun _ _ _ _ => ret None) "example.com" 0%Q 0%Q
               ROOT_SERVER_IP "Root" "ns1.example.net.");
      [reflexivity | discriminate].
  - apply (Hlimit [Scenario.endless_referral; Scenario.endless_referral]
                  "192.0.2.1").
    + lia.
    + intros ip t E. simpl in E. rewrite lookup_empty in E. discriminate.
    + reflexivity.
    + simpl. split; [reflexivity|]. exists "192.0.2.1".
      split; [repeat split; discriminate || reflexivity|].
      split; [reflexivity|]. exists "192.0.2.1".
      split; [repeat split; discriminate || reflexivity|]. reflexivity.
Defined.

(** ** The data kept for the plot *)

Lemma plot_inv_init : plot_inv Log.init.
Proof. repeat split; simpl; try lia. constructor. Qed.

Lemma plot_lookup_None domain p :
  plot_lookup domain p = None <-> domain ∉ map fst p.
Proof.
  unfold plot_lookup. induction p as [|[k v] p IH]; simpl.
  - split; [intros _; apply not_elem_of_nil | reflexivity].
  - destruct (String.eqb_spec domain k) as [->|Hne]; simpl.
    + split; [discriminate | intros H; destruct H; left].
    + rewrite IH. rewrite not_elem_of_cons. tauto.
Qed.

Lemma plot_lookup_app_l domain p q x :
  plot_lookup domain p = Some x -> plot_lookup domain (p ++ q)%list = Some x.
Proof.
  unfold plot_lookup. induction p as [|[k v] p IH]; simpl; [discriminate|].
  destruct (String.eqb domain k); simpl; [trivial | exact IH].
Qed.

Lemma plot_lookup_last domain p x :
  plot_lookup domain p = None ->
  plot_lookup domain (p ++ [(domain, x)])%list = Some x.
Proof.
  unfold plot_lookup. induction p as [|[k v] p IH]; simpl.
  - now rewrite String.eqb_refl.
  - destruct (String.eqb domain k); simpl; [discriminate | exact IH].
Qed.

Lemma record_plot_data_cases (domain : string) (n : Z) (latency : Q) (l : DnsLog) :
  (plot_lookup domain (plot_data l) = None /\
   (unique_domains_resolved_count l < max_domains_for_plot l)%Z) \/
  (is_Some (plot_lookup domain (plot_data l))
   \/ (max_domains_for_plot l <= unique_domains_resolved_count l)%Z).
Proof.
  destruct (plot_lookup domain (plot_data l)) eqn:E; [right; left; eauto|].
  destruct (Z_lt_le_dec (unique_domains_resolved_count l)
                        (max_domains_for_plot l)); [left | right; right]; auto.
Qed.

Lemma record_plot_data_inv (domain : string) (n : Z) (latency : Q) (l : DnsLog) :
  plot_inv l ->
  plot_inv (Log.record_plot_data domain n latency l) /\
  plot_data l `prefix_of` plot_data (Log.record_plot_data domain n latency l) /\
  settled domain (Log.record_plot_data domain n latency l).
Proof.
  intros (Hmax & Hcount & Hlen & Hnodup).
  destruct (record_plot_data_cases domain n latency l) as [[Hnew Hroom]|Hno].
  - rewrite (record_plot_data_new _ _ _ _ Hnew Hroom). simpl.
    split; [|split].
    + repeat split; simpl; rewrite ?length_app; simpl; try lia.
      rewrite map_app. simpl. apply NoDup_app. split; [exact Hnodup|].
      split; [|apply NoDup_singleton].
      intros k Hk Hk'. apply list_elem_of_singleton in Hk'. subst k.
      now apply plot_lookup_None in Hnew.
    + now apply prefix_app_r.
    + left. simpl. rewrite (plot_lookup_last _ _ _ Hnew). eauto.
  - rewrite (record_plot_data_noop _ _ _ _ Hno).
    split; [now repeat split | split; [reflexivity|]].
    destruct Hno as [Hold|Hfull]; [now left | right; lia].
Qed.

Lemma plot_rel_refl s : plot_rel s s.
Proof. intros H. now split. Qed.

Lemma plot_rel_trans s1 s2 s3 : plot_rel s1 s2 -> plot_rel s2 s3 -> plot_rel s1 s3.
Proof.
  intros H12 H23 H1. destruct (H12 H1) as [H2 P12].
  destruct (H23 H2) as [H3 P23]. split; [exact H3 | etrans; eassumption].
Qed.

Ltac plot_steps :=
  try (intros; intro; open_state; now split);
  eauto using plot_rel_refl, plot_rel_trans.

Lemma plot_rel_log e s : plot_rel s (upd_log (Log.log_step e) s).
Proof. intros Hinv. open_state. now split. Qed.

Lemma plot_rel_plot d n l s : plot_rel s (upd_log (Log.record_plot_data d n l) s).
Proof.
  intros Hinv. open_state.
  destruct (record_plot_data_inv d n l _ Hinv) as (? & ? & _). now split.
Qed.

Lemma resolve_fuel_plot env fuel domain o depth max_depth s r s' :
  resolve_fuel env fuel domain o depth max_depth s = Some (r, s') ->
  plot_rel s s'.
Proof.
  intros H.
  apply (resolve_fuel_keeps env plot_rel (default domain o) (fun _ => True))
    with (fuel := fuel) (domain := domain) (o := o) (depth := depth)
         (max_depth := max_depth) (r := r);
    auto using plot_rel_log, plot_rel_plot; plot_steps.
Qed.

Lemma resolve_iteratively_plot env domain o depth max_depth s :
  plot_rel s (snd (resolve_iteratively env domain o depth max_depth s)).
Proof.
  destruct (resolve_iteratively env domain o depth max_depth s) as [r s'] eqn:E.
  apply resolve_iteratively_run in E. simpl. eapply resolve_fuel_plot, E.
Qed.

Lemma run_calls_plot env calls : forall s, plot_rel s (run_calls env calls s).
Proof.
  induction calls as [|c calls IH]; intros s; simpl; [apply plot_rel_refl|].
  eapply plot_rel_trans; [apply resolve_iteratively_plot | apply IH].
Qed.

Lemma serve_one_state env dns_query s :
  snd (serve_one env dns_query s) = s \/
  exists q, snd (serve_one env dns_query s)
            = snd (resolve_iteratively env (query_domain q) None 0 10 s).
Proof.
  unfold serve_one. destruct (qd dns_query) as [|q rest]; [now left|].
  right. exists q. now destruct (resolve_iteratively _ _ _ _ _ _).
Qed.

(** The server keeps the plot data as any sequence of calls does. *)
Lemma start_dns_server_plot env datagrams :
  forall s, plot_rel s (snd (start_dns_server env datagrams s)).
Proof.
  induction datagrams as [|d rest IH]; intros s; simpl; [apply plot_rel_refl|].
  destruct (serve_one env d s) as [out s1] eqn:E1.
  destruct (start_dns_server env rest s1) as [outs s2] eqn:E2. simpl.
  apply plot_rel_trans with s1.
  - destruct (serve_one_state env d s) as [H|[q H]]; rewrite E1 in H;
      simpl in H; subst s1;
      [apply plot_rel_refl | apply resolve_iteratively_plot].
  - specialize (IH s1). now rewrite E2 in IH.
Qed.

Lemma plot_inv_log_step e l : plot_inv l -> plot_inv (Log.log_step e l).
Proof. intros H. exact H. Qed.

Lemma hop_success_settles env self domain original depth t0 sv ip s d s' :
  plot_inv (dns_log s) ->
  hop env self domain original depth t0 sv ip s = Some (Return (Some d), s') ->
  settled domain (dns_log s').
Proof.
  intros Hinv H. open_run H. repeat case_match; simplify_eq.
  open_state. now apply record_plot_data_inv, plot_inv_log_step.
Qed.

Lemma hop_loop_success_settles env self domain original depth t0 hops :
  self_keeps plot_rel original self ->
  forall sv ip s d s',
    plot_inv (dns_log s) ->
    hop_loop env self domain original depth t0 hops sv ip s = Some (Some d, s') ->
    settled domain (dns_log s').
Proof.
  intros Hself. induction hops as [|hops IH]; intros sv ip s d s' Hinv H.
  - simpl in H. open_run H. discriminate.
  - simpl in H. apply bind_Some in H as (out & s1 & Hhop & Hk).
    destruct out as [result|next_ip].
    + unfold ret in Hk. simplify_eq. eapply hop_success_settles; eassumption.
    + eapply IH; [|exact Hk].
      assert (Hrel : plot_rel s s1).
      { apply (hop_keeps env plot_rel original (fun _ => True))
          with (self := self) (domain := domain) (depth := depth) (t0 := t0)
               (sv := sv) (ip := ip) (out := Continue next_ip);
          auto using plot_rel_log, plot_rel_plot; plot_steps. }
      now apply Hrel.
Qed.

Lemma resolve_success_settles env domain o depth max_depth s d s' :
  plot_inv (dns_log s) ->
  resolve_iteratively env domain o depth max_depth s = (Some d, s') ->
  settled domain (dns_log s').
Proof.
  intros Hinv H. apply resolve_iteratively_run in H. unfold fuel_for in H.
  rewrite resolve_fuel_unfold in H. destruct (depth >? max_depth)%Z.
  { unfold ret in H. discriminate. }
  apply bind_Some in H as (t0 & s1 & Ht & H). unfold time in Ht. simplify_eq.
  apply bind_Some in H as (hit & s2 & Hget & H).
  assert (Hlog : dns_log s2 = dns_log s).
  { revert Hget. unfold cache_get. destruct (dns_cache _ !! _); intros Hget.
    - open_run Hget. destruct (DnsCache.get _ _ _). now simplify_eq.
    - now simplify_eq. }
  assert (Hself : self_keeps plot_rel (default domain o)
                    (resolve_fuel env (S (Z.to_nat (10 - depth))))).
  { intros name dd m sa ra sb _ Hr. eapply resolve_fuel_plot, Hr. }
  assert (Hinv2 : plot_inv (dns_log s2)) by now rewrite Hlog.
  destruct (fst hit) as [ip|]; [destruct (Py.truthy ip)|];
    [|eapply hop_loop_success_settles; eassumption..].
  open_run H. simplify_eq. open_state.
  now apply record_plot_data_inv, plot_inv_log_step.
Qed.

Lemma settled_stays domain l l' :
  plot_inv l' ->
  plot_data l `prefix_of` plot_data l' ->
  settled domain l ->
  plot_lookup domain (plot_data l') = plot_lookup domain (plot_data l).
Proof.
  intros (_ & _ & Hlen & _) [k Hk] [[x Hx]|Hfull]; rewrite Hk in *.
  - rewrite Hx. now apply plot_lookup_app_l.
  - rewrite length_app in Hlen. destruct k; [now rewrite app_nil_r|].
    simpl in Hlen. lia.
Qed.

(** C8.  [record_plot_data] appends the datum when the domain has none and
    the count is below the maximum, and does nothing otherwise.  From the
    creation of the logger on, through any sequence of calls of the engine:
    the count is the number of registered domains, no domain is registered
    twice, at most ten are; the data registered before are still there, in
    the same order and with the same values, new ones coming after them;
    once ten are registered nothing changes any more.  And a call that
    succeeds on a domain settles it: the domain has its datum or the ten
    places are taken, so that no later call, cache hit or not, creates or
    changes a datum for that domain. *)
Theorem plot_data_first_ten
    (env : Env) (s : State) (domain : string) (n : Z) (latency : Q) :
  let l := dns_log s in
  (plot_lookup domain (plot_data l) = None ->
   (unique_domains_resolved_count l < max_domains_for_plot l)%Z ->
   Log.record_plot_data domain n latency l
   = {| log_entries := log_entries l;
        plot_data := plot_data l ++ [(domain, mkDatum n latency)];
        unique_domains_resolved_count := unique_domains_resolved_count l + 1;
        max_domains_for_plot := max_domains_for_plot l |}) /\
  (is_Some (plot_lookup domain (plot_data l))
   \/ (max_domains_for_plot l <= unique_domains_resolved_count l)%Z ->
   Log.record_plot_data domain n latency l = l) /\
  (plot_inv l ->
   forall calls,
     let l' := dns_log (run_calls env calls s) in
     plot_inv l' /\
     (length (plot_data l') <= 10)%nat /\
     (exists added, plot_data l' = (plot_data l ++ added)%list) /\
     (forall d x, plot_lookup d (plot_data l) = Some x ->
                  plot_lookup d (plot_data l') = Some x) /\
     (length (plot_data l) = 10%nat -> plot_data l' = plot_data l)) /\
  (plot_inv l ->
   forall o depth max_depth r s1 calls,
     resolve_iteratively env domain o depth max_depth s = (Some r, s1) ->
     settled domain (dns_log s1) /\
     plot_lookup domain (plot_data (dns_log (run_calls env calls s1)))
     = plot_lookup domain (plot_data (dns_log s1))).
Proof.
  intros l. split; [|split; [|split]].
  - apply record_plot_data_new.
  - apply record_plot_data_noop.
  - intros Hinv calls l'.
    destruct (run_calls_plot env calls s Hinv) as [Hinv' [added Hadd]].
    fold l l' in Hinv', Hadd.
    split; [exact Hinv'|]. split; [apply Hinv'|]. split; [now exists added|].
    split.
    + intros d x Hx. rewrite Hadd. now apply plot_lookup_app_l.
    + intros Hfull. destruct Hinv' as (_ & _ & Hlen & _).
      rewrite Hadd in *. rewrite length_app in Hlen.
      destruct added; [now rewrite app_nil_r | simpl in Hlen; lia].
  - intros Hinv o depth max_depth r s1 calls Hrun.
    pose proof (resolve_success_settles _ _ _ _ _ _ _ _ Hinv Hrun) as Hset.
    split; [exact Hset|].
    pose proof (resolve_iteratively_plot env domain o depth max_depth s Hinv)
      as [Hinv1 _]. rewrite Hrun in Hinv1. simpl in Hinv1.
    destruct (run_calls_plot env calls s1 Hinv1) as [Hinv2 Hpre].
    now apply settled_stays.
Qed.

(** Eleven domains in a row: the first ten are kept in their order of
    arrival, the eleventh changes nothing. *)
Example eleventh_domain_is_not_recorded :
  map fst (plot_data
             (fold_left (fun l d => Log.record_plot_data d 1 0 l)
                        Scenario.eleven Log.init))
    = firstn 10 Scenario.eleven /\
  Log.record_plot_data "d11.example" 1 0
    (fold_left (fun l d => Log.record_plot_data d 1 0 l)
               (firstn 10 Scenario.eleven) Log.init)
    = fold_left (fun l d => Log.record_plot_data d 1 0 l)
                (firstn 10 Scenario.eleven) Log.init.
Proof. split; reflexivity. Qed.

Lemma plot_data_first_ten_witness :
  Log.record_plot_data "example.com" 2 7 Log.init
    = {| log_entries := [];
         plot_data := [("example.com", mkDatum 2 7)];
         unique_domains_resolved_count := 0 + 1;
         max_domains_for_plot := 10 |} /\
  Log.record_plot_data "example.com" 1 0 (dns_log Scenario.resolved_once)
    = dns_log Scenario.resolved_once /\
  (let l' := dns_log (run_calls Scenario.glue_env Scenario.again initial_state) in
   plot_inv l' /\
   (length (plot_data l') <= 10)%nat /\
   (exists added, plot_data l' = (plot_data Log.init ++ added)%list) /\
   (forall d x, plot_lookup d (plot_data Log.init) = Some x ->
                plot_lookup d (plot_data l') = Some x) /\
   (length (plot_data Log.init) = 10%nat -> plot_data l' = plot_data Log.init)) /\
  (settled "example.com" (dns_log Scenario.resolved_once) /\
   plot_lookup "example.com"
     (plot_data (dns_log (run_calls Scenario.glue_env Scenario.again
                                    Scenario.resolved_once)))
   = plot_lookup "example.com" (plot_data (dns_log Scenario.resolved_once))).
Proof.
  pose proof (plot_data_first_ten Scenario.glue_env initial_state
                "example.com" 2 7) as (Hnew & _ & Hruns & Hfirst).
  pose proof (plot_data_first_ten Scenario.glue_env Scenario.resolved_once
                "example.com" 1 0) as (_ & Hold & _ & _).
  split; [|split; [|split]].
  - apply Hnew; [reflexivity | simpl; lia].
  - apply Hold. left. vm_compute. eauto.
  - apply (Hruns ltac:(repeat split; simpl; try lia; constructor)
                  Scenario.again).
  - apply (Hfirst ltac:(repeat split; simpl; try lia; constructor)
                  None 0 10 Scenario.answer
                  Scenario.resolved_once Scenario.again).
    reflexivity.
Defined.

(** ** The server *)

Lemma hop_success_answers env self domain original depth t0 sv ip s d s' :
  hop env self domain original depth t0 sv ip s = Some (Return (Some d), s') ->
  answers d <> [].
Proof.
  intros H. open_run H. repeat case_match; simplify_eq. congruence.
Qed.

Lemma hop_loop_success_answers env self domain original depth t0 hops :
  forall sv ip s d s',
    hop_loop env self domain original depth t0 hops sv ip s = Some (Some d, s') ->
    answers d <> [].
Proof.
  induction hops as [|hops IH]; intros sv ip s d s' H.
  - simpl in H. open_run H. discriminate.
  - simpl in H. apply bind_Some in H as (out & s1 & Hhop & Hk).
    destruct out as [result|next_ip].
    + unfold ret in Hk. simplify_eq. eapply hop_success_answers, Hhop.
    + eapply IH, Hk.
Qed.

(** What a successful call returns has an address in its answer section. *)
Lemma resolve_success_answers env domain o depth max_depth s d s' :
  resolve_iteratively env domain o depth max_depth s = (Some d, s') ->
  answers d <> [].
Proof.
  intros H. apply resolve_iteratively_run in H. unfold fuel_for in H.
  rewrite resolve_fuel_unfold in H. destruct (depth >? max_depth)%Z.
  { unfold ret in H. discriminate. }
  apply bind_Some in H as (t0 & s1 & Ht & H).
  apply bind_Some in H as (hit & s2 & Hget & H).
  destruct (fst hit) as [ip|]; [destruct (Py.truthy ip)|];
    [|eapply hop_loop_success_answers; eassumption..].
  open_run H. simplify_eq. discriminate.
Qed.

(** C9.  For a datagram whose question section is not empty the server
    resolves the name of the first question and hands one packet to
    [sendto].  The packet carries the ID and the question of the query and
    QR = 1.  When the resolution returned a reply, the packet has AA = 1,
    RCODE = 0 and the answer section of that reply, which is not empty; when
    it returned [None], for whatever reason, the packet has RCODE = 2 and no
    answer record. *)
Theorem server_answers_or_servfail
    (env : Env) (dns_query : DNS) (s : State) (q : DNSQR) (rest : list DNSQR) :
  qd dns_query = q :: rest ->
  exists pkt,
    serve_one env dns_query s
      = (Some pkt,
         snd (resolve_iteratively env (query_domain q) None 0 10 s)) /\
    id pkt = id dns_query /\
    qr pkt = 1 /\
    qd pkt = qd dns_query /\
    match fst (resolve_iteratively env (query_domain q) None 0 10 s) with
    | Some resp =>
        aa pkt = 1 /\ rcode pkt = 0 /\ an pkt = an resp /\ an resp <> []
    | None => rcode pkt = 2 /\ an pkt = []
    end.
Proof.
  intros Hqd. unfold serve_one. rewrite Hqd.
  destruct (resolve_iteratively env (query_domain q) None 0 10 s)
    as [[resp|] s'] eqn:E; simpl.
  - pose proof (resolve_success_answers _ _ _ _ _ _ _ _ E) as Hans.
    destruct (an resp) as [|rr records] eqn:Han.
    + exfalso. apply Hans. unfold answers. now rewrite Han.
    + eexists. split; [reflexivity|]. simpl. now repeat split.
  - eexists. split; [reflexivity|]. simpl. now repeat split.
Qed.

(** The query is answered through the glue chain, and with SERVFAIL when no
    server replies. *)
Lemma server_answers_or_servfail_witness :
  (exists pkt,
     serve_one Scenario.glue_env Scenario.query initial_state
       = (Some pkt,
          snd (resolve_iteratively Scenario.glue_env "example.com" None 0 10
                                   initial_state)) /\
     id pkt = 4660 /\ qr pkt = 1 /\ qd pkt = qd Scenario.query /\
     aa pkt = 1 /\ rcode pkt = 0 /\ an pkt = an Scenario.answer /\
     an Scenario.answer <> []) /\
  (exists pkt,
     serve_one Scenario.silent_env Scenario.query initial_state
       = (Some pkt,
          snd (resolve_iteratively Scenario.silent_env "example.com" None 0 10
                                   initial_state)) /\
     id pkt = 4660 /\ qr pkt = 1 /\ qd pkt = qd Scenario.query /\
     rcode pkt = 2 /\ an pkt = []).
Proof.
  split.
  - exact (server_answers_or_servfail Scenario.glue_env Scenario.query
             initial_state (mkQR (Scenario.name "example.com.")) [] eq_refl).
  - exact (server_answers_or_servfail Scenario.silent_env Scenario.query
             initial_state (mkQR (Scenario.name "example.com.")) [] eq_refl).
Defined.

(** ** Names as cache keys *)

Lemma decode_ignore_total_aux n :
  forall b, (length b <= n)%nat -> is_Some (Py.decode true b).
Proof.
  induction n as [|n IH]; intros b Hlen.
  - destruct b; [simpl; eauto | simpl in Hlen; lia].
  - destruct b as [|b0 r0]; [simpl; eauto|]. simpl in Hlen.
    assert (Hmap : forall (f : string -> string) r,
               (length r <= n)%nat -> is_Some (option_map f (Py.decode true r))).
    { intros f r Hr. destruct (IH r Hr) as [x ->]. simpl. eauto. }
    destruct (IH r0 ltac:(lia)) as [x Hx].
    simpl. rewrite Hx. repeat case_match; subst; cbn [length] in *;
      first [ solve [eauto] | apply Hmap; lia ].
Qed.

(** Decoding with [errors='ignore'] never raises. *)
Lemma decode_ignore_total b : is_Some (Py.decode true b).
Proof. now apply decode_ignore_total_aux with (length b). Qed.

Lemma append_empty (s : string) : "" ++ s = s.
Proof. reflexivity. Qed.

Lemma append_String (a : ascii) (p s : string) :
  String a p ++ s = String a (p ++ s).
Proof. reflexivity. Qed.

(** [rstrip('.')] removes full stops at the end and nothing else. *)
Lemma rstrip_dot_spec s :
  exists dots,
    s = Py.rstrip_dot s ++ dots /\
    Forall (fun c => c = "."%char) (list_ascii_of_string dots) /\
    forall p, Py.rstrip_dot s <> p ++ ".".
Proof.
  induction s as [|c r (dots & Hr & Hdots & Hend)]; simpl.
  - exists "". split; [reflexivity|]. split; [constructor|].
    intros [|? ?]; discriminate.
  - revert Hr Hend. destruct (Py.rstrip_dot r) as [|c' r']; intros Hr Hend.
    + rewrite append_empty in Hr. subst dots.
      destruct (Ascii.eqb_spec c ".") as [->|Hc].
      * exists (String "." r). split; [reflexivity|].
        split; [now constructor|]. intros [|? ?]; discriminate.
      * exists r. split; [reflexivity|]. split; [exact Hdots|].
        intros [|a p]; [rewrite append_empty; congruence|].
        rewrite append_String. intros [= _ Hp]. destruct p; discriminate.
    + exists dots. split; [rewrite append_String; now rewrite Hr at 1|].
      split; [exact Hdots|].
      intros [|a p]; [rewrite append_empty; discriminate|].
      rewrite append_String. intros [= _ Hp]. now apply (Hend p).
Qed.

Lemma get_after_set_other (cache : gmap string (string * Q))
    (d1 d2 ip : string) (now now' : Q) :
  d1 <> d2 ->
  fst (DnsCache.get d1 now' (DnsCache.set d2 ip now cache))
  = fst (DnsCache.get d1 now' cache).
Proof.
  intros Hne. unfold DnsCache.get, DnsCache.set.
  rewrite lookup_insert_ne by congruence.
  destruct (cache !! d1) as [[a t]|]; [|reflexivity].
  now destruct (QMicromega.Qlt_bool _ _).
Qed.

(** The name the server resolves for a query whose name decodes to [text]. *)
Lemma query_domain_decoded q text :
  Py.decode true (qname q) = Some text -> query_domain q = Py.rstrip_dot text.
Proof. intros H. unfold query_domain. now rewrite H. Qed.

(** C10.  Cache keys are compared as they are.  Storing an address under
    one name never changes what [get] answers for a different name, and a
    HIT for a name comes from an entry stored under exactly that name.  The
    server derives the name it resolves from the query name by removing the
    full stops at its end and nothing else, letter case included; the name
    of a name server taken from a referral is resolved, and cached, as it
    was decoded.  So "Example.com" does not hit the entry of "example.com",
    and "ns1.example.net" does not hit the entry the engine stored under
    "ns1.example.net.". *)
Theorem cache_keys_are_exact
    (cache : gmap string (string * Q)) (d1 d2 ip : string) (now now' : Q)
    (q : DNSQR) :
  (d1 <> d2 ->
   fst (DnsCache.get d1 now' (DnsCache.set d2 ip now cache))
   = fst (DnsCache.get d1 now' cache)) /\
  (forall a status,
     fst (DnsCache.get d1 now' cache) = (Some a, status) ->
     exists t, cache !! d1 = Some (a, t)) /\
  (exists text dots,
     Py.decode true (qname q) = Some text /\
     text = query_domain q ++ dots /\
     Forall (fun c => c = "."%char) (list_ascii_of_string dots) /\
     forall p, query_domain q <> p ++ ".") /\
  (forall owner raw text,
     Py.decode false raw = Some text ->
     ns_names {| id := 0; qr := 1; aa := 0; rd := 0; ra := 0; rcode := 0;
                 qd := []; an := []; ns := [mkRR owner 2 raw]; ar := [] |}
     = [text]) /\
  query_domain (mkQR (Scenario.name "Example.COM.")) = "Example.COM" /\
  fst (DnsCache.get "Example.com" 1
         (DnsCache.set "example.com" "93.184.216.34" 0 ∅)) = (None, "MISS") /\
  (let s1 := snd (resolve_iteratively Scenario.alias_env "example.com" None
                    0 10 initial_state) in
   fst <$> dns_cache s1 !! "ns1.example.net." = Some "192.0.2.53" /\
   dns_cache s1 !! "ns1.example.net" = None /\
   fst (DnsCache.get "ns1.example.net" 11 (dns_cache s1)) = (None, "MISS")).
Proof.
  split; [|split; [|split; [|split; [|split; [|split]]]]].
  - apply get_after_set_other.
  - intros a status. unfold DnsCache.get.
    destruct (cache !! d1) as [[a' t]|]; [|discriminate].
    destruct (QMicromega.Qlt_bool _ _); simpl; [|discriminate].
    intros [= -> _]. eauto.
  - destruct (decode_ignore_total (qname q)) as [text Htext].
    destruct (rstrip_dot_spec text) as (dots & Hsplit & Hdots & Hend).
    exists text, dots. rewrite (query_domain_decoded q text Htext).
    now repeat split.
  - intros owner raw text Hraw. unfold ns_names. simpl. now rewrite Hraw.
  - reflexivity.
  - reflexivity.
  - vm_compute. repeat split; reflexivity.
Qed.

(** Storing example.com leaves EXAMPLE.COM a miss. *)
Lemma cache_keys_are_exact_witness :
  fst (DnsCache.get "EXAMPLE.COM" 5 (DnsCache.set "example.com" "93.184.216.34" 0 ∅))
    = fst (DnsCache.get "EXAMPLE.COM" 5 ∅) /\
  exists t,
    DnsCache.set "example.com" "93.184.216.34" 0 ∅ !! "example.com"
      = Some ("93.184.216.34", t) /\
  ns_names {| id := 0; qr := 1; aa := 0; rd := 0; ra := 0; rcode := 0;
              qd := []; an := [];
              ns := [mkRR (Scenario.name "example.com.") 2
                          (Scenario.name "ns1.example.net.")];
              ar := [] |}
    = ["ns1.example.net."].
Proof.
  pose proof (cache_keys_are_exact ∅ "EXAMPLE.COM" "example.com"
                "93.184.216.34" 0 5 (mkQR (Scenario.name "example.com.")))
    as (Hother & _ & _ & Hns & _).
  pose proof (cache_keys_are_exact
                (DnsCache.set "example.com" "93.184.216.34" 0 ∅)
                "example.com" "example.com" "93.184.216.34" 0 5
                (mkQR (Scenario.name "example.com.")))
    as (_ & Hexact & _).
  split; [apply Hother; discriminate|].
  destruct (Hexact "93.184.216.34" "HIT" eq_refl) as [t Ht].
  exists t. split; [exact Ht|].
  apply (Hns (Scenario.name "example.com.") (Scenario.name "ns1.example.net.")).
  reflexivity.
Defined.

(** * Further properties of the resolver *)

(** ** The three ways a turn of the hop loop can go *)

Lemma record_ok_plain ts domain mode ip referral rtt :
  mode = "Iterative (Delegation)" \/ mode = "Iterative (Query Failed)"
  \/ mode = "Iterative (Failed delegation)" ->
  own_record domain ip
    (mkEntry ts domain mode ip (get_step_type ip) referral rtt None "MISS").
Proof.
  intros Hmode. repeat split. right. right. left. now repeat split.
Qed.

(** A turn sends its query and then: writes one record and returns [None]
    or goes on; or makes a nested call first; or, on an answer, writes the
    Resolved record, the cache entry and the plot datum. *)
Lemma hop_cases env self domain original depth t0 sv ip s out s' :
  hop env self domain original depth t0 sv ip s = Some (out, s') ->
  let s0 := tick (tick (push_query ip domain (tick s))) in
  (exists e,
     s' = upd_log (Log.log_step e) s0 /\
     own_record domain ip e /\
     (forall d, out <> Return (Some d))) \/
  (exists fallback_ns temp s2 e,
     s' = upd_log (Log.log_step e) s2 /\
     fallback_ns <> original /\
     self fallback_ns (Some original) (depth + 1) 10 s0 = Some (temp, s2) /\
     own_record domain ip e /\
     (forall d, out <> Return (Some d))) \/
  (exists d a rest e now latency,
     s' = upd_log (Log.record_plot_data domain (sv + 1) latency)
            (with_cache (DnsCache.set domain a now (dns_cache s))
               (tick (upd_log (Log.log_step e) (tick s0)))) /\
     out = Return (Some d) /\
     dns_of (sr1 env (length (sent s)) ip domain) = Some d /\
     answers d = a :: rest /\
     own_record domain ip e /\
     resolution_mode e = "Iterative (Resolved)" /\
     response_or_referral e = "Answer: " ++ a /\
     total_time_to_resolution e = Some latency).
Proof.
  intros H s0. open_run H.
  repeat case_match; simplify_eq;
    try match goal with
        | E : String.eqb _ _ = false |- _ => apply String.eqb_neq in E
        end.
  all: first
    [ (* an answer *)
      right; right; eexists _, _, _, _, _, _;
      split; [reflexivity|]; split; [reflexivity|];
      split; [reflexivity|]; split; [eassumption|];
      split; [|split; [reflexivity|split; reflexivity]];
      repeat split; right; left; repeat split; eauto
    | (* a nested call *)
      right; left; eexists _, _, _, _;
      split; [reflexivity|]; split; [eassumption|]; split; [eassumption|];
      split; [apply record_ok_plain; tauto | intros ?; discriminate]
    | (* neither *)
      left; eexists; split; [reflexivity|];
      split; [apply record_ok_plain; tauto | intros ?; discriminate] ].
Qed.

(** ** Induction over the calls of the engine *)

Lemma cache_get_log env domain s hit s' :
  cache_get env domain s = Some (hit, s') -> dns_log s' = dns_log s.
Proof.
  unfold cache_get. destruct (dns_cache s !! domain); intros H.
  - open_run H. destruct (DnsCache.get _ _ _). now simplify_eq.
  - now simplify_eq.
Qed.

Lemma cache_get_no_write env domain s hit s' k v :
  cache_get env domain s = Some (hit, s') ->
  dns_cache s' !! k = Some v -> dns_cache s !! k = Some v.
Proof.
  unfold cache_get. destruct (dns_cache s !! domain); intros H.
  - open_run H.
    pose proof (CacheFacts.get_no_write domain (clock env (ticks s))
                  (dns_cache s) k v) as Hnw.
    change (dns_cache (tick s)) with (dns_cache s) in H.
    destruct (DnsCache.get domain (clock env (ticks s)) (dns_cache s))
      as [res c].
    simplify_eq. exact Hnw.
  - now simplify_eq.
Qed.

(** A lookup that answers an address answers HIT, and the entry is there. *)
Lemma cache_get_Some env domain s hit s' ip :
  cache_get env domain s = Some (hit, s') ->
  fst hit = Some ip ->
  snd hit = "HIT" /\ dns_cache s' = dns_cache s /\
  exists t, dns_cache s !! domain = Some (ip, t).
Proof.
  unfold cache_get. destruct (dns_cache s !! domain) as [[a t]|] eqn:E; intros H.
  - open_run H. unfold DnsCache.get in H.
    change (dns_cache (tick s)) with (dns_cache s) in H. rewrite E in H.
    destruct (QMicromega.Qlt_bool _ _); simplify_eq; simpl; [|discriminate].
    intros [= ->]. eauto.
  - simplify_eq. discriminate.
Qed.

(** A relation that holds across a turn whenever it holds across the nested
    calls, across the record written at the iteration limit, across the
    lookup that opens a call and across the cache path, holds across every
    call. *)
Section CallInduction.
Variable env : Env.
Variable R : State -> State -> Prop.
Hypothesis R_refl : forall s, R s s.
Hypothesis R_trans : forall s1 s2 s3, R s1 s2 -> R s2 s3 -> R s1 s3.
Hypothesis R_hop :
  forall self domain original depth t0 sv ip s out s',
    self_satisfies R self ->
    hop env self domain original depth t0 sv ip s = Some (out, s') ->
    R s s'.
Hypothesis R_limit :
  forall ts domain ip latency s,
    R s (upd_log (Log.log_step
                    (mkEntry ts domain "Iterative (Failed)" ip
                       (get_step_type ip) "Iteration limit reached"
                       0 (Some latency) "MISS"))
                 (tick (tick s))).
Hypothesis R_lookup :
  forall domain s hit s2,
    cache_get env domain (tick s) = Some (hit, s2) -> R s s2.
Hypothesis R_cached :
  forall domain s hit s2 ip ts latency,
    cache_get env domain (tick s) = Some (hit, s2) ->
    fst hit = Some ip ->
    R s2 (upd_log (Log.record_plot_data domain 1 latency)
            (upd_log (Log.log_step
                        (mkEntry ts domain "Iterative (Cached)" "N/A" "Cache"
                           ("Answer: " ++ ip) 0 (Some latency) (snd hit)))
                     (tick (tick s2)))).

Lemma hop_loop_satisfies self domain original depth t0 hops :
  self_satisfies R self ->
  forall sv ip s r s',
    hop_loop env self domain original depth t0 hops sv ip s = Some (r, s') ->
    R s s'.
Proof.
  intros Hself. induction hops as [|hops IH]; intros sv ip s r s' H.
  - simpl in H. open_run H. simplify_eq. apply R_limit.
  - simpl in H. apply bind_Some in H as (out & s1 & Hhop & Hk).
    apply (R_hop _ _ _ _ _ _ _ _ _ _ Hself) in Hhop.
    destruct out as [result|next_ip].
    + unfold ret in Hk. now simplify_eq.
    + apply R_trans with s1; [exact Hhop | eapply IH, Hk].
Qed.

Lemma resolve_fuel_satisfies fuel : self_satisfies R (resolve_fuel env fuel).
Proof.
  induction fuel as [|fuel IH]; intros domain o depth max_depth s r s' H;
    [discriminate|].
  rewrite resolve_fuel_unfold in H. destruct (depth >? max_depth)%Z.
  { unfold ret in H. simplify_eq. apply R_refl. }
  apply bind_Some in H as (t0 & s1 & Ht & H). unfold time in Ht.
  injection Ht as <- <-.
  apply bind_Some in H as (hit & s2 & Hget & H).
  apply R_trans with s2; [eapply R_lookup, Hget|].
  destruct (fst hit) as [ip|] eqn:Ehit; [destruct (Py.truthy ip)|];
    [|eapply hop_loop_satisfies; eassumption..].
  open_run H. simplify_eq. eapply R_cached; eassumption.
Qed.

Lemma resolve_iteratively_satisfies domain o depth max_depth s :
  R s (snd (resolve_iteratively env domain o depth max_depth s)).
Proof.
  destruct (resolve_iteratively env domain o depth max_depth s) as [r s'] eqn:E.
  apply resolve_iteratively_run in E. simpl.
  eapply resolve_fuel_satisfies, E.
Qed.

End CallInduction.

(** What holds across every call holds across the server loop. *)
Lemma start_dns_server_satisfies env (R : State -> State -> Prop) datagrams :
  (forall s, R s s) ->
  (forall s1 s2 s3, R s1 s2 -> R s2 s3 -> R s1 s3) ->
  (forall domain o depth max_depth s,
     R s (snd (resolve_iteratively env domain o depth max_depth s))) ->
  forall s, R s (snd (start_dns_server env datagrams s)).
Proof.
  intros R_refl R_trans R_call.
  induction datagrams as [|d rest IH]; intros s; simpl; [apply R_refl|].
  destruct (serve_one env d s) as [out s1] eqn:E1.
  destruct (start_dns_server env rest s1) as [outs s2] eqn:E2. simpl.
  apply R_trans with s1.
  - destruct (serve_one_state env d s) as [H|[q H]]; rewrite E1 in H;
      simpl in H; subst s1; [apply R_refl | apply R_call].
  - specialize (IH s1). now rewrite E2 in IH.
Qed.

(** ** What every call leaves in the log, the query list and the cache *)

Lemma lookup_snoc_inv {A} (l : list A) (x y : A) (j : nat) :
  (l ++ [x])%list !! j = Some y -> (length l <= j)%nat -> j = length l /\ y = x.
Proof.
  intros H Hj. assert (j = length l) as ->.
  { apply lookup_lt_Some in H. rewrite length_app in H. simpl in H. lia. }
  rewrite list_lookup_middle in H by reflexivity. now simplify_eq.
Qed.

Lemma self_satisfies_grows (R : State -> State -> Prop) self original :
  (forall s s', R s s' -> grows s s') ->
  self_satisfies R self -> self_keeps grows original self.
Proof. intros HR Hself name d m s r s' _ H. eapply HR, Hself, H. Qed.

Ltac hop_split H Hself :=
  let Hc := fresh "Hc" in
  pose proof (hop_cases _ _ _ _ _ _ _ _ _ _ _ H) as Hc; cbv zeta in Hc;
  destruct Hc as [(e & -> & Hown & _)
                 |[(fallback_ns & temp & s2 & e & -> & _ & Hnested & Hown & _)
                  |(d & a & rest & e & now & latency & -> & _ & _ & _
                    & Hown & Hmode & Hanswer & Htotal)]];
  [| apply Hself in Hnested |].

Section Accounted.
Variable env : Env.

Lemma accounted_refl s : accounted s s.
Proof. split; [apply grows_refl | lia]. Qed.

Lemma accounted_trans s1 s2 s3 :
  accounted s1 s2 -> accounted s2 s3 -> accounted s1 s3.
Proof. intros [G1 L1] [G2 L2]. split; [eapply grows_trans; eassumption | lia]. Qed.

Lemma hop_accounted self domain original depth t0 sv ip s out s' :
  self_satisfies accounted self ->
  hop env self domain original depth t0 sv ip s = Some (out, s') ->
  accounted s s'.
Proof.
  intros Hself H. split.
  { eapply hop_grows; [|exact H].
    eapply self_satisfies_grows; [|exact Hself]. now intros ? ? []. }
  hop_split H Hself.
  - open_state. lia.
  - destruct Hnested as [_ Hn]. open_state. lia.
  - open_state. rewrite record_plot_data_entries. simpl.
    rewrite length_app. simpl. lia.
Qed.

Lemma resolve_iteratively_accounted domain o depth max_depth s :
  accounted s (snd (resolve_iteratively env domain o depth max_depth s)).
Proof.
  apply resolve_iteratively_satisfies;
    eauto using accounted_refl, accounted_trans, hop_accounted.
  - intros ts d ip latency s0. split; [grows_steps|]. open_state. lia.
  - intros d s0 hit s2 H. pose proof (cache_get_sent _ _ _ _ _ H) as Hs.
    pose proof (cache_get_log _ _ _ _ _ H) as Hl. open_state.
    split; [split|]; rewrite ?Hs, ?Hl; first [reflexivity | lia].
  - intros d s0 hit s2 ip ts latency _ _.
    split; [grows_steps|]. open_state.
    rewrite record_plot_data_entries. simpl. rewrite length_app. simpl. lia.
Qed.

End Accounted.

Section QueriesLogged.
Variable env : Env.

Lemma queries_logged_refl s : queries_logged s s.
Proof.
  split; [apply grows_refl|]. intros i dst name Hi Hq.
  apply lookup_lt_Some in Hq. lia.
Qed.

Lemma queries_logged_trans s1 s2 s3 :
  queries_logged s1 s2 -> queries_logged s2 s3 -> queries_logged s1 s3.
Proof.
  intros [[S12 L12] H12] [[S23 L23] H23].
  split; [split; etrans; eassumption|]. intros i dst name Hi Hq.
  destruct (decide (i < length (sent s2))%nat) as [Hlt|Hge].
  - rewrite <- (prefix_lookup_lt _ _ _ Hlt S23) in Hq.
    destruct (H12 i dst name Hi Hq) as (j & e & Hj & He & Hm).
    exists j, e. split; [exact Hj|]. split; [|exact Hm].
    eapply prefix_lookup_Some; eassumption.
  - destruct (H23 i dst name ltac:(lia) Hq) as (j & e & Hj & He & Hm).
    exists j, e. split; [|now split]. apply prefix_length in L12. lia.
Qed.

Lemma hop_queries_logged self domain original depth t0 sv ip s out s' :
  self_satisfies queries_logged self ->
  hop env self domain original depth t0 sv ip s = Some (out, s') ->
  queries_logged s s'.
Proof.
  intros Hself H. split.
  { eapply hop_grows; [|exact H].
    eapply self_satisfies_grows; [|exact Hself]. now intros ? ? []. }
  intros i dst name Hi Hq. hop_split H Hself;
    destruct Hown as (Hd & Hip & _).
  - open_state. apply lookup_snoc_inv in Hq as [-> [= <- <-]]; [|exact Hi].
    exists (length (log_entries (dns_log s))), e.
    split; [lia|]. split; [now apply list_lookup_middle | now split].
  - destruct Hnested as [[Hs Hl] Hn]. open_state.
    destruct (decide (i = length (sent s))) as [->|Hne].
    + assert (Hfirst : sent s2 !! length (sent s) = Some (ip, domain)).
      { eapply prefix_lookup_Some; [|exact Hs]. now apply list_lookup_middle. }
      rewrite Hfirst in Hq. injection Hq as <- <-.
      exists (length (log_entries (dns_log s2))), e.
      split; [apply prefix_length in Hl; lia|].
      split; [now apply list_lookup_middle | now split].
    + destruct (Hn i dst name ltac:(lia) Hq) as (j & e' & Hj & He & Hm).
      exists j, e'. split; [exact Hj|]. split; [|exact Hm].
      now apply lookup_app_l_Some.
  - open_state. rewrite record_plot_data_entries. simpl.
    apply lookup_snoc_inv in Hq as [-> [= <- <-]]; [|exact Hi].
    exists (length (log_entries (dns_log s))), e.
    split; [lia|]. split; [now apply list_lookup_middle | now split].
Qed.

Lemma resolve_iteratively_queries_logged domain o depth max_depth s :
  queries_logged s (snd (resolve_iteratively env domain o depth max_depth s)).
Proof.
  apply resolve_iteratively_satisfies;
    eauto using queries_logged_refl, queries_logged_trans, hop_queries_logged.
  - intros ts d ip latency s0. split; [grows_steps|]. intros i dst name Hi Hq.
    open_state. apply lookup_lt_Some in Hq. lia.
  - intros d s0 hit s2 H. pose proof (cache_get_sent _ _ _ _ _ H) as Hs.
    pose proof (cache_get_log _ _ _ _ _ H) as Hl. open_state.
    split; [split; rewrite ?Hs, ?Hl; reflexivity|].
    intros i dst name Hi Hq. rewrite Hs in Hq.
    apply lookup_lt_Some in Hq. lia.
  - intros d s0 hit s2 ip ts latency _ _.
    split; [grows_steps|]. intros i dst name Hi Hq.
    open_state. apply lookup_lt_Some in Hq. lia.
Qed.

End QueriesLogged.

Section RecordsOk.
Variable env : Env.

Lemma records_ok_refl s : records_ok s s.
Proof.
  split; [apply grows_refl|]. intros j e Hj He.
  apply lookup_lt_Some in He. lia.
Qed.

Lemma records_ok_trans s1 s2 s3 :
  records_ok s1 s2 -> records_ok s2 s3 -> records_ok s1 s3.
Proof.
  intros [[S12 L12] H12] [[S23 L23] H23].
  split; [split; etrans; eassumption|]. intros j e Hj He.
  destruct (decide (j < length (log_entries (dns_log s2)))%nat) as [Hlt|Hge].
  - rewrite <- (prefix_lookup_lt _ _ _ Hlt L23) in He. eapply H12; eassumption.
  - eapply H23; [|exact He]. lia.
Qed.

Lemma hop_records_ok self domain original depth t0 sv ip s out s' :
  self_satisfies records_ok self ->
  hop env self domain original depth t0 sv ip s = Some (out, s') ->
  records_ok s s'.
Proof.
  intros Hself H. split.
  { eapply hop_grows; [|exact H].
    eapply self_satisfies_grows; [|exact Hself]. now intros ? ? []. }
  intros j e' Hj He. hop_split H Hself; destruct Hown as (_ & _ & Hok).
  - open_state. now apply lookup_snoc_inv in He as [_ ->].
  - destruct Hnested as [_ Hn]. open_state.
    destruct (decide (j < length (log_entries (dns_log s2)))%nat) as [Hlt|Hge].
    + rewrite lookup_app_l in He by exact Hlt. eapply Hn; eassumption.
    + apply lookup_snoc_inv in He as [_ ->]; [exact Hok | lia].
  - open_state. rewrite record_plot_data_entries in He. simpl in He.
    now apply lookup_snoc_inv in He as [_ ->].
Qed.

Lemma resolve_iteratively_records_ok domain o depth max_depth s :
  records_ok s (snd (resolve_iteratively env domain o depth max_depth s)).
Proof.
  apply resolve_iteratively_satisfies;
    eauto using records_ok_refl, records_ok_trans, hop_records_ok.
  - intros ts d ip latency s0. split; [grows_steps|].
    intros j e' Hj He. open_state.
    apply lookup_snoc_inv in He as [_ ->]; [|exact Hj].
    right. right. right. repeat split; eauto.
  - intros d s0 hit s2 H. pose proof (cache_get_sent _ _ _ _ _ H) as Hs.
    pose proof (cache_get_log _ _ _ _ _ H) as Hl. open_state.
    split; [split; rewrite ?Hs, ?Hl; reflexivity|].
    intros j e' Hj He. rewrite Hl in He. apply lookup_lt_Some in He. lia.
  - intros d s0 hit s2 ip ts latency Hget Hhit.
    split; [grows_steps|]. intros j e' Hj He.
    destruct (cache_get_Some _ _ _ _ _ _ Hget Hhit) as (Hstatus & _).
    open_state. rewrite record_plot_data_entries in He. simpl in He.
    apply lookup_snoc_inv in He as [_ ->]; [|exact Hj].
    left. rewrite Hstatus. repeat split; eauto.
Qed.

End RecordsOk.

Section CacheBacked.
Variable env : Env.

Lemma cache_backed_refl s : cache_backed s s.
Proof. split; [apply grows_refl|]. intros k a t Hk. now left. Qed.

Lemma cache_backed_trans s1 s2 s3 :
  cache_backed s1 s2 -> cache_backed s2 s3 -> cache_backed s1 s3.
Proof.
  intros [[S12 L12] H12] [[S23 L23] H23].
  split; [split; etrans; eassumption|]. intros k a t Hk.
  destruct (H23 k a t Hk) as [Hk2|(j & e & Hj & He & Hm)].
  - destruct (H12 k a t Hk2) as [Hk1|(j & e & Hj & He & Hm)]; [now left|].
    right. exists j, e. split; [exact Hj|]. split; [|exact Hm].
    eapply prefix_lookup_Some; eassumption.
  - right. exists j, e. split; [|now split]. apply prefix_length in L12. lia.
Qed.

Lemma hop_cache_backed self domain original depth t0 sv ip s out s' :
  self_satisfies cache_backed self ->
  hop env self domain original depth t0 sv ip s = Some (out, s') ->
  cache_backed s s'.
Proof.
  intros Hself H. split.
  { eapply hop_grows; [|exact H].
    eapply self_satisfies_grows; [|exact Hself]. now intros ? ? []. }
  intros k a' t Hk. hop_split H Hself; destruct Hown as (Hd & _ & _).
  - open_state. now left.
  - destruct Hnested as [_ Hn]. open_state.
    destruct (Hn k a' t Hk) as [Hk0|(j & e' & Hj & He & Hm)]; [now left|].
    right. exists j, e'. split; [exact Hj|]. split; [|exact Hm].
    now apply lookup_app_l_Some.
  - open_state. unfold DnsCache.set in Hk.
    destruct (decide (k = domain)) as [->|Hne].
    + rewrite lookup_insert_eq in Hk. injection Hk as <- <-.
      right. exists (length (log_entries (dns_log s))), e.
      rewrite record_plot_data_entries. simpl.
      split; [lia|]. split; [now apply list_lookup_middle|]. now repeat split.
    + rewrite lookup_insert_ne in Hk by congruence. now left.
Qed.

Lemma resolve_iteratively_cache_backed domain o depth max_depth s :
  cache_backed s (snd (resolve_iteratively env domain o depth max_depth s)).
Proof.
  apply resolve_iteratively_satisfies;
    eauto using cache_backed_refl, cache_backed_trans, hop_cache_backed.
  - intros ts d ip latency s0. split; [grows_steps|].
    intros k a t Hk. open_state. now left.
  - intros d s0 hit s2 H. pose proof (cache_get_sent _ _ _ _ _ H) as Hs.
    pose proof (cache_get_log _ _ _ _ _ H) as Hl.
    split; [split; open_state; rewrite ?Hs, ?Hl; reflexivity|].
    intros k a t Hk. left.
    apply (cache_get_no_write _ _ _ _ _ _ _ H Hk).
  - intros d s0 hit s2 ip ts latency _ _. split; [grows_steps|].
    intros k a t Hk. open_state. now left.
Qed.

End CacheBacked.

Section PlotBacked.
Variable env : Env.

Lemma plot_backed_refl s : plot_backed s s.
Proof. split; [apply grows_refl|]. intros d x Hx. now left. Qed.

Lemma plot_backed_trans s1 s2 s3 :
  plot_backed s1 s2 -> plot_backed s2 s3 -> plot_backed s1 s3.
Proof.
  intros [[S12 L12] H12] [[S23 L23] H23].
  split; [split; etrans; eassumption|]. intros d x Hx.
  destruct (H23 d x Hx) as [Hx2|(j & e & Hj & He & Hm)].
  - destruct (H12 d x Hx2) as [Hx1|(j & e & Hj & He & Hm)]; [now left|].
    right. exists j, e. split; [exact Hj|]. split; [|exact Hm].
    eapply prefix_lookup_Some; eassumption.
  - right. exists j, e. split; [|now split]. apply prefix_length in L12. lia.
Qed.

(** What [record_plot_data] can add is the datum it is given. *)
Lemma record_plot_data_elem domain n latency l d x :
  (d, x) ∈ plot_data (Log.record_plot_data domain n latency l) ->
  (d, x) ∈ plot_data l \/ (d = domain /\ x = mkDatum n latency).
Proof.
  unfold Log.record_plot_data. destruct (_ && _); simpl; [|now left].
  intros H. apply elem_of_app in H as [H|H]; [now left|].
  apply list_elem_of_singleton in H. injection H as -> ->. now right.
Qed.

Lemma hop_plot_backed self domain original depth t0 sv ip s out s' :
  self_satisfies plot_backed self ->
  hop env self domain original depth t0 sv ip s = Some (out, s') ->
  plot_backed s s'.
Proof.
  intros Hself H. split.
  { eapply hop_grows; [|exact H].
    eapply self_satisfies_grows; [|exact Hself]. now intros ? ? []. }
  intros k x Hx. hop_split H Hself; destruct Hown as (Hd & _ & _).
  - open_state. now left.
  - destruct Hnested as [_ Hn]. open_state.
    destruct (Hn k x Hx) as [Hx0|(j & e' & Hj & He & Hm)]; [now left|].
    right. exists j, e'. split; [exact Hj|]. split; [|exact Hm].
    now apply lookup_app_l_Some.
  - open_state. apply record_plot_data_elem in Hx as [Hx|[-> ->]];
      [now left|]. simpl in *.
    right. exists (length (log_entries (dns_log s))), e.
    rewrite record_plot_data_entries. simpl.
    split; [lia|]. split; [now apply list_lookup_middle|].
    split; [exact Hd|]. split; [exact Htotal|]. now left.
Qed.

Lemma resolve_iteratively_plot_backed domain o depth max_depth s :
  plot_backed s (snd (resolve_iteratively env domain o depth max_depth s)).
Proof.
  apply resolve_iteratively_satisfies;
    eauto using plot_backed_refl, plot_backed_trans, hop_plot_backed.
  - intros ts d ip latency s0. split; [grows_steps|].
    intros k x Hx. open_state. now left.
  - intros d s0 hit s2 H. pose proof (cache_get_sent _ _ _ _ _ H) as Hs.
    pose proof (cache_get_log _ _ _ _ _ H) as Hl.
    split; [split; open_state; rewrite ?Hs, ?Hl; reflexivity|].
    intros k x Hx. left. now rewrite Hl in Hx.
  - intros d s0 hit s2 ip ts latency _ _. split; [grows_steps|].
    intros k x Hx. open_state.
    apply record_plot_data_elem in Hx as [Hx|[-> ->]]; [now left|].
    right. eexists (length (log_entries (dns_log s2))), _.
    rewrite record_plot_data_entries. simpl.
    split; [lia|]. split; [now apply list_lookup_middle|].
    split; [reflexivity|]. split; [reflexivity|]. right. now split.
Qed.

End PlotBacked.

(** ** The log, the queries and the cache across calls and across the server *)

(** X1.  Across a call of the engine, and across the server loop on any
    datagrams, the queries sent and the log only grow at the end, and at
    least as many records are written as queries are sent. *)
Theorem log_and_queries_accumulate
    (env : Env) (datagrams : list DNS) (domain : string) (o : option string)
    (depth max_depth : Z) (s : State) :
  (exists queries records,
     sent (snd (resolve_iteratively env domain o depth max_depth s))
       = (sent s ++ queries)%list /\
     log_entries (dns_log (snd (resolve_iteratively env domain o depth
                                                   max_depth s)))
       = (log_entries (dns_log s) ++ records)%list /\
     (length queries <= length records)%nat) /\
  (exists queries records,
     sent (snd (start_dns_server env datagrams s)) = (sent s ++ queries)%list /\
     log_entries (dns_log (snd (start_dns_server env datagrams s)))
       = (log_entries (dns_log s) ++ records)%list /\
     (length queries <= length records)%nat).
Proof.
  assert (Hshape : forall s', accounted s s' ->
            exists queries records,
              sent s' = (sent s ++ queries)%list /\
              log_entries (dns_log s')
                = (log_entries (dns_log s) ++ records)%list /\
              (length queries <= length records)%nat).
  { intros s' [[[qs Hq] [es He]] Hlen]. exists qs, es.
    split; [exact Hq|]. split; [exact He|].
    rewrite Hq, He, !length_app in Hlen. lia. }
  split; apply Hshape.
  - apply resolve_iteratively_accounted.
  - apply start_dns_server_satisfies;
      [apply accounted_refl | apply accounted_trans
      | apply resolve_iteratively_accounted].
Qed.

(** X2.  Every query a call sends, and every query the server sends while
    it handles any datagrams, has a record in the part of the log written
    since, naming the server asked and the name queried. *)
Theorem every_query_is_logged
    (env : Env) (datagrams : list DNS) (domain : string) (o : option string)
    (depth max_depth : Z) (s : State) (i : nat) (dst name : string) :
  ((length (sent s) <= i)%nat ->
   sent (snd (resolve_iteratively env domain o depth max_depth s)) !! i
     = Some (dst, name) ->
   exists j e,
     (length (log_entries (dns_log s)) <= j)%nat /\
     log_entries (dns_log (snd (resolve_iteratively env domain o depth
                                                   max_depth s))) !! j
       = Some e /\
     dns_server_ip e = dst /\ domain_name e = name) /\
  ((length (sent s) <= i)%nat ->
   sent (snd (start_dns_server env datagrams s)) !! i = Some (dst, name) ->
   exists j e,
     (length (log_entries (dns_log s)) <= j)%nat /\
     log_entries (dns_log (snd (start_dns_server env datagrams s))) !! j
       = Some e /\
     dns_server_ip e = dst /\ domain_name e = name).
Proof.
  split.
  - apply resolve_iteratively_queries_logged.
  - apply (start_dns_server_satisfies env queries_logged datagrams);
      [apply queries_logged_refl | apply queries_logged_trans
      | apply resolve_iteratively_queries_logged].
Qed.

(** The second query of the glue chain, to 199.43.135.53, is in the log. *)
Lemma every_query_is_logged_witness :
  (exists j e,
     (length (log_entries (dns_log initial_state)) <= j)%nat /\
     log_entries (dns_log (snd (resolve_iteratively Scenario.glue_env
                                  "example.com" None 0 10 initial_state))) !! j
       = Some e /\
     dns_server_ip e = "199.43.135.53" /\ domain_name e = "example.com") /\
  (exists j e,
     (length (log_entries (dns_log initial_state)) <= j)%nat /\
     log_entries (dns_log (snd (start_dns_server Scenario.glue_env
                                  [Scenario.query] initial_state))) !! j
       = Some e /\
     dns_server_ip e = "199.43.135.53" /\ domain_name e = "example.com").
Proof.
  pose proof (every_query_is_logged Scenario.glue_env [Scenario.query]
                "example.com" None 0 10 initial_state 1 "199.43.135.53"
                "example.com") as [Hcall Hserver].
  split.
  - apply Hcall; [simpl; lia | reflexivity].
  - apply Hserver; [simpl; lia | reflexivity].
Defined.

Lemma record_ok_status e :
  record_ok e ->
  (cache_status e = "HIT" <-> resolution_mode e = "Iterative (Cached)") /\
  (total_time_to_resolution e = None <->
   resolution_mode e = "Iterative (Delegation)"
   \/ resolution_mode e = "Iterative (Query Failed)"
   \/ resolution_mode e = "Iterative (Failed delegation)").
Proof.
  intros [(Hm & _ & _ & _ & [x Ht] & Hs)
         |[(Hm & _ & [x Ht] & Hs)
          |[(Hm & _ & Ht & Hs)|(Hm & _ & _ & _ & [x Ht] & Hs)]]];
    rewrite ?Hm, ?Ht, ?Hs.
  - split; split; try done. intros [H|[H|H]]; discriminate.
  - split; split; try done. intros [H|[H|H]]; discriminate.
  - split; split; try done. destruct Hm as [Hm|[Hm|Hm]]; now rewrite Hm.
  - split; split; try done. intros [H|[H|H]]; discriminate.
Qed.

(** X3.  Every record written by a call, or by the server while it handles
    any datagrams, has one of four shapes: a Cached record (server N/A, step
    Cache, zero round trip, a total time, status HIT); a Resolved record
    (step Authoritative, a total time, MISS); a Delegation, Query Failed or
    Failed delegation record (step computed from the server, no total time,
    MISS); or a Failed record for the iteration limit (zero round trip, a
    total time, MISS).  So the status is HIT exactly on Cached records and
    the total time is missing exactly on the three kinds of the third
    shape. *)
Theorem log_records_are_well_formed
    (env : Env) (datagrams : list DNS) (domain : string) (o : option string)
    (depth max_depth : Z) (s : State) (j : nat) (e : entry) :
  (length (log_entries (dns_log s)) <= j)%nat ->
  log_entries (dns_log (snd (resolve_iteratively env domain o depth
                                                max_depth s))) !! j = Some e
  \/ log_entries (dns_log (snd (start_dns_server env datagrams s))) !! j
     = Some e ->
  record_ok e /\
  (cache_status e = "HIT" <-> resolution_mode e = "Iterative (Cached)") /\
  (total_time_to_resolution e = None <->
   resolution_mode e = "Iterative (Delegation)"
   \/ resolution_mode e = "Iterative (Query Failed)"
   \/ resolution_mode e = "Iterative (Failed delegation)").
Proof.
  intros Hj He.
  assert (Hok : record_ok e).
  { destruct He as [He|He].
    - eapply resolve_iteratively_records_ok; eassumption.
    - eapply (start_dns_server_satisfies env records_ok datagrams);
        [apply records_ok_refl | apply records_ok_trans
        | apply resolve_iteratively_records_ok | eassumption..]. }
  split; [exact Hok | now apply record_ok_status].
Qed.

(** The records of the glue chain: a Delegation and a Resolved record. *)
Lemma log_records_are_well_formed_witness :
  exists e,
    log_entries (dns_log (snd (resolve_iteratively Scenario.glue_env
                                 "example.com" None 0 10 initial_state)))
      !! 1%nat = Some e /\
    record_ok e /\
    (cache_status e = "HIT" <-> resolution_mode e = "Iterative (Cached)") /\
    (total_time_to_resolution e = None <->
     resolution_mode e = "Iterative (Delegation)"
     \/ resolution_mode e = "Iterative (Query Failed)"
     \/ resolution_mode e = "Iterative (Failed delegation)").
Proof.
  destruct (log_entries (dns_log (snd (resolve_iteratively Scenario.glue_env
              "example.com" None 0 10 initial_state))) !! 1%nat)
    as [e|] eqn:E; [|vm_compute in E; discriminate].
  exists e. split; [reflexivity|].
  apply (log_records_are_well_formed Scenario.glue_env [] "example.com" None
           0 10 initial_state 1 e).
  - simpl. lia.
  - left. exact E.
Defined.

(** X4.  Whatever is in the cache after a call, or after the server has
    handled any datagrams, was there before or is explained by a record
    written since: a Resolved record for that name with that address.  In
    particular every entry of a server started with an empty cache has its
    Resolved record in the log. *)
Theorem cache_entries_have_resolved_records
    (env : Env) (datagrams : list DNS) (domain : string) (o : option string)
    (depth max_depth : Z) (s : State) (k a : string) (t : Q) :
  (dns_cache (snd (resolve_iteratively env domain o depth max_depth s)) !! k
     = Some (a, t) ->
   dns_cache s !! k = Some (a, t) \/
   exists j e,
     (length (log_entries (dns_log s)) <= j)%nat /\
     log_entries (dns_log (snd (resolve_iteratively env domain o depth
                                                   max_depth s))) !! j
       = Some e /\
     resolution_mode e = "Iterative (Resolved)" /\
     domain_name e = k /\
     response_or_referral e = "Answer: " ++ a) /\
  (dns_cache (snd (start_dns_server env datagrams initial_state)) !! k
     = Some (a, t) ->
   exists e,
     e ∈ log_entries (dns_log (snd (start_dns_server env datagrams
                                                  initial_state))) /\
     resolution_mode e = "Iterative (Resolved)" /\
     domain_name e = k /\
     response_or_referral e = "Answer: " ++ a).
Proof.
  split.
  - apply resolve_iteratively_cache_backed.
  - intros Hk.
    destruct (start_dns_server_satisfies env cache_backed datagrams
                cache_backed_refl cache_backed_trans
                (resolve_iteratively_cache_backed env) initial_state)
      as [_ Hback].
    destruct (Hback k a t Hk) as [Hinit|(j & e & _ & He & Hm)].
    + simpl in Hinit. rewrite lookup_empty in Hinit. discriminate.
    + exists e. split; [|exact Hm]. eapply list_elem_of_lookup_2, He.
Qed.

(** The entry of example.com after the glue chain has its record. *)
Lemma cache_entries_have_resolved_records_witness :
  (exists j e,
     (length (log_entries (dns_log initial_state)) <= j)%nat /\
     log_entries (dns_log (snd (resolve_iteratively Scenario.glue_env
                                  "example.com" None 0 10 initial_state))) !! j
       = Some e /\
     resolution_mode e = "Iterative (Resolved)" /\
     domain_name e = "example.com" /\
     response_or_referral e = "Answer: 93.184.216.34") /\
  (exists e,
     e ∈ log_entries (dns_log (snd (start_dns_server Scenario.glue_env
                                      [Scenario.query] initial_state))) /\
     resolution_mode e = "Iterative (Resolved)" /\
     domain_name e = "example.com" /\
     response_or_referral e = "Answer: 93.184.216.34").
Proof.
  pose proof (cache_entries_have_resolved_records Scenario.glue_env
                [Scenario.query] "example.com" None 0 10 initial_state
                "example.com" "93.184.216.34" (Scenario.seconds 8))
    as [Hcall Hserver].
  split.
  - destruct (Hcall eq_refl) as [Hinit|H]; [|exact H].
    simpl in Hinit. rewrite lookup_empty in Hinit. discriminate.
  - apply Hserver. reflexivity.
Defined.

(** ** A successful call and the cache *)

Lemma hop_loop_success_cached env self domain original depth t0 hops :
  forall sv ip s d s',
    hop_loop env self domain original depth t0 hops sv ip s = Some (Some d, s') ->
    exists a t, head (answers d) = Some a /\ dns_cache s' !! domain = Some (a, t).
Proof.
  induction hops as [|hops IH]; intros sv ip s d s' H.
  - simpl in H. open_run H. discriminate.
  - simpl in H. apply bind_Some in H as (out & s1 & Hhop & Hk).
    destruct out as [result|next_ip]; [|eapply IH, Hk].
    unfold ret in Hk. simplify_eq.
    pose proof (hop_cases _ _ _ _ _ _ _ _ _ _ _ Hhop) as Hc. cbv zeta in Hc.
    destruct Hc as [(e & _ & _ & Hno)
                   |[(f & temp & s2 & e & _ & _ & _ & _ & Hno)
                    |(d' & a & rest & e & now & lat & -> & [= <-] & _ & Ha & _)]];
      [now destruct (Hno d) | now destruct (Hno d) |].
    exists a, now. rewrite Ha. split; [reflexivity|].
    open_state. unfold DnsCache.set. apply lookup_insert_eq.
Qed.

(** The reply a call returns carries, as its first address, the address the
    cache then holds for the name. *)
Lemma resolve_success_cached env domain o depth max_depth s d s' :
  resolve_iteratively env domain o depth max_depth s = (Some d, s') ->
  exists a t, head (answers d) = Some a /\ dns_cache s' !! domain = Some (a, t).
Proof.
  intros H. apply resolve_iteratively_run in H. unfold fuel_for in H.
  rewrite resolve_fuel_unfold in H. destruct (depth >? max_depth)%Z.
  { unfold ret in H. discriminate. }
  apply bind_Some in H as (t0 & s1 & Ht & H).
  apply bind_Some in H as (hit & s2 & Hget & H).
  destruct (fst hit) as [ip|] eqn:Ehit; [destruct (Py.truthy ip)|];
    [|eapply hop_loop_success_cached; eassumption..].
  unfold time in Ht. injection Ht as <- <-.
  destruct (cache_get_Some _ _ _ _ _ _ Hget Ehit) as (_ & Hc & t & Hin).
  open_run H. simplify_eq. exists ip, t. split; [reflexivity|].
  open_state. now rewrite Hc.
Qed.

(** A call within its depth limit that finds a fresh, non-empty entry. *)
Lemma resolve_iteratively_hit env domain o depth max_depth s ip t :
  depth <= max_depth ->
  dns_cache s !! domain = Some (ip, t) ->
  (clock env (S (ticks s)) - t < 3600)%Q ->
  Py.truthy ip = true ->
  exists s' e,
    resolve_iteratively env domain o depth max_depth s
      = (Some (cached_response domain ip), s') /\
    sent s' = sent s /\ dns_cache s' = dns_cache s /\
    log_entries (dns_log s') = (log_entries (dns_log s) ++ [e])%list /\
    resolution_mode e = "Iterative (Cached)".
Proof.
  intros Hle E L T. unfold resolve_iteratively, fuel_for.
  rewrite resolve_fuel_unfold, (gtb_false _ _ Hle).
  unfold bind at 1. unfold time at 1. unfold bind at 1.
  rewrite (cache_get_hit env domain (tick s) ip t E L).
  cbn [fst snd]. rewrite T. open_goal.
  eexists _, _. split; [reflexivity|].
  open_state. rewrite record_plot_data_entries. repeat split; reflexivity.
Qed.

(** X5.  When a call returns a reply, the first address of the reply's
    answer section is what the cache then holds for the name; and any later
    call for that name on that state, within its depth limit and while the
    entry is younger than 3600 seconds, is answered from the cache with that
    address: no query is sent, the cache is left as it is, one Cached record
    is logged. *)
Theorem successful_call_is_served_from_cache_next
    (env : Env) (domain : string) (o : option string) (depth max_depth : Z)
    (s : State) (d : DNS) (s1 : State) :
  resolve_iteratively env domain o depth max_depth s = (Some d, s1) ->
  exists a t,
    head (answers d) = Some a /\
    dns_cache s1 !! domain = Some (a, t) /\
    forall o' depth' max_depth',
      depth' <= max_depth' ->
      Py.truthy a = true ->
      (clock env (S (ticks s1)) - t < 3600)%Q ->
      exists s2 e,
        resolve_iteratively env domain o' depth' max_depth' s1
          = (Some (cached_response domain a), s2) /\
        sent s2 = sent s1 /\ dns_cache s2 = dns_cache s1 /\
        log_entries (dns_log s2) = (log_entries (dns_log s1) ++ [e])%list /\
        resolution_mode e = "Iterative (Cached)".
Proof.
  intros H. destruct (resolve_success_cached _ _ _ _ _ _ _ _ H) as (a & t & Ha & Hc).
  exists a, t. split; [exact Ha|]. split; [exact Hc|].
  intros o' depth' max_depth' Hle Ht Hfresh.
  now apply resolve_iteratively_hit with t.
Qed.

(** The glue chain, then the same name again one reading later. *)
Lemma successful_call_is_served_from_cache_next_witness :
  exists a t,
    head (answers Scenario.answer) = Some a /\
    dns_cache Scenario.resolved_once !! "example.com" = Some (a, t) /\
    exists s2 e,
      resolve_iteratively Scenario.glue_env "example.com" None 0 10
                          Scenario.resolved_once
        = (Some (cached_response "example.com" a), s2) /\
      sent s2 = sent Scenario.resolved_once /\
      dns_cache s2 = dns_cache Scenario.resolved_once /\
      log_entries (dns_log s2)
        = (log_entries (dns_log Scenario.resolved_once) ++ [e])%list /\
      resolution_mode e = "Iterative (Cached)".
Proof.
  destruct (successful_call_is_served_from_cache_next Scenario.glue_env
              "example.com" None 0 10 initial_state Scenario.answer
              Scenario.resolved_once eq_refl) as (a & t & Ha & Hc & Hnext).
  exists a, t. split; [exact Ha|]. split; [exact Hc|].
  assert (Hat : (a, t) = ("93.184.216.34", Scenario.seconds 8)).
  { change (dns_cache Scenario.resolved_once !! "example.com")
      with (Some ("93.184.216.34", Scenario.seconds 8)) in Hc.
    now injection Hc as <- <-. }
  injection Hat as -> ->.
  apply (Hnext None 0 10); [lia | reflexivity | reflexivity].
Defined.

(** ** Referrals that lead nowhere *)

Section Refused.
Variable env : Env.
Variable self : string -> option string -> Z -> Z -> M (option DNS).
Variables (domain original : string) (depth : Z) (t0 : Q).

(** Neither an address nor a name server: the turn fails. *)
Lemma hop_no_authority sv ip s d :
  dns_of (sr1 env (length (sent s)) ip domain) = Some d ->
  answers d = [] ->
  ns_names d = [] ->
  hop env self domain original depth t0 sv ip s
  = Some (Return None,
          upd_log (Log.log_step
                     (mkEntry (clock env (S (S (ticks s)))) domain
                        "Iterative (Failed delegation)" ip (get_step_type ip)
                        "No authority section for delegation"
                        (clock env (S (ticks s)) - clock env (ticks s))%Q
                        None "MISS"))
                  (tick (tick (push_query ip domain (tick s))))).
Proof. intros H Ha Hn. open_goal. now rewrite H, Ha, Hn. Qed.

(** A chain of referrals with glue takes as many turns as it has replies,
    sends one query each, logs one Delegation record each, and leaves the
    cache and the plot data alone. *)
Lemma hop_loop_referrals chain :
  forall hops sv ip s asked_last,
    referral_chain env domain (length (sent s)) ip chain asked_last ->
    exists s1 delegations,
      hop_loop env self domain original depth t0 (length chain + hops) sv ip s
      = hop_loop env self domain original depth t0 hops
                 (sv + Z.of_nat (length chain)) asked_last s1 /\
      length (sent s1) = (length (sent s) + length chain)%nat /\
      dns_cache s1 = dns_cache s /\
      logged delegations (dns_log s) (dns_log s1) /\
      length delegations = length chain.
Proof.
  induction chain as [|d chain IH]; intros hops sv ip s asked_last Hchain.
  - simpl in Hchain. subst asked_last. exists s, [].
    simpl. rewrite Z.add_0_r, Nat.add_0_r.
    repeat split; try reflexivity. now rewrite app_nil_r.
  - simpl in Hchain. destruct Hchain as (Hd & glue & Hglue & Hchain).
    cbn [length Nat.add]. simpl hop_loop. unfold bind at 1.
    rewrite (hop_glue env self domain original depth t0 sv ip s d glue Hd Hglue).
    match goal with |- context [hop_loop _ _ _ _ _ _ _ _ _ ?s1] =>
      destruct (IH hops (sv + 1) glue s1 asked_last)
        as (s2 & dels & Hrun & Hs & Hc & HL & Hlen)
    end.
    + open_state. now rewrite Nat.add_1_r.
    + eexists s2, (_ :: dels). split.
      { rewrite Hrun. f_equal. lia. }
      open_state. split; [lia|]. split; [exact Hc|].
      split; [apply logged_step, HL | now rewrite Hlen].
Qed.

End Refused.

(** A call that misses the cache, walks a chain of referrals with glue and
    then meets a reply on which the turn fails with one record. *)
Lemma resolve_refused_after_chain env domain o depth max_depth s chain
    asked_last (referral : string) :
  depth <= max_depth ->
  Z.of_nat (length chain) + 1 <= max_depth ->
  cache_misses env domain s ->
  referral_chain env domain (length (sent s)) ROOT_SERVER_IP chain asked_last ->
  (forall self t0 sv s1,
     length (sent s1) = (length (sent s) + length chain)%nat ->
     hop env self domain (default domain o) depth t0 sv asked_last s1
     = Some (Return None,
             upd_log (Log.log_step
                        (mkEntry (clock env (S (S (ticks s1)))) domain
                           "Iterative (Failed delegation)" asked_last
                           (get_step_type asked_last) referral
                           (clock env (S (ticks s1)) - clock env (ticks s1))%Q
                           None "MISS"))
                     (tick (tick (push_query asked_last domain (tick s1)))))) ->
  exists s' e,
    resolve_iteratively env domain o depth max_depth s = (None, s') /\
    length (sent s') = (length (sent s) + length chain + 1)%nat /\
    last (sent s') = Some (asked_last, domain) /\
    last (log_entries (dns_log s')) = Some e /\
    domain_name e = domain /\
    resolution_mode e = "Iterative (Failed delegation)" /\
    dns_server_ip e = asked_last /\
    response_or_referral e = referral /\
    (forall k v, dns_cache s' !! k = Some v -> dns_cache s !! k = Some v) /\
    plot_data (dns_log s') = plot_data (dns_log s).
Proof.
  intros Hdepth Hk Hmiss Hchain Hhop.
  destruct (cache_get_miss env domain s Hmiss)
    as (hit & s2 & Hget & Hsent & Hlog & Hcache & Hfalsy).
  unfold resolve_iteratively, fuel_for.
  rewrite (resolve_fuel_miss _ _ _ _ _ _ _ _ _ Hdepth Hget Hfalsy).
  rewrite <- Hsent in Hchain.
  destruct (hop_loop_referrals env (resolve_fuel env (S (Z.to_nat (10 - depth))))
              domain (default domain o) depth (clock env (ticks s)) chain
              (Z.to_nat max_depth - length chain) 0 ROOT_SERVER_IP s2
              asked_last Hchain)
    as (s3 & dels & Hrun & Hs3 & Hc3 & (Hl3 & Hp3 & _) & _).
  replace (length chain + (Z.to_nat max_depth - length chain))%nat
    with (Z.to_nat max_depth) in Hrun by lia.
  rewrite Hrun.
  destruct (Z.to_nat max_depth - length chain)%nat as [|hops] eqn:Ehops; [lia|].
  simpl hop_loop. unfold bind at 1. rewrite Hhop by (rewrite Hs3, Hsent; lia).
  unfold ret. eexists _, _. split; [reflexivity|]. open_state.
  split; [rewrite Hs3, Hsent; lia|]. split; [apply last_snoc|].
  split; [apply last_snoc|]. repeat split.
  - intros k v Hkv. apply Hcache. now rewrite <- Hc3.
  - now rewrite Hp3, Hlog.
Qed.

(** X6.  A call that misses the cache and, after any chain of referrals
    with glue, receives within its turns a reply with no address in the
    answer section and no name server in the authority section, returns
    [None] after that query: the last record is a Failed delegation record
    saying that there is no authority section, no nested call is made, the
    cache gets no entry and the plot data do not change. *)
Theorem no_authority_ends_resolution
    (env : Env) (domain : string) (o : option string) (depth max_depth : Z)
    (s : State) (chain : list DNS) (asked_last : string) (d : DNS) :
  depth <= max_depth ->
  Z.of_nat (length chain) + 1 <= max_depth ->
  cache_misses env domain s ->
  referral_chain env domain (length (sent s)) ROOT_SERVER_IP chain asked_last ->
  dns_of (sr1 env (length (sent s) + length chain) asked_last domain) = Some d ->
  answers d = [] ->
  ns_names d = [] ->
  exists s' e,
    resolve_iteratively env domain o depth max_depth s = (None, s') /\
    length (sent s') = (length (sent s) + length chain + 1)%nat /\
    last (sent s') = Some (asked_last, domain) /\
    last (log_entries (dns_log s')) = Some e /\
    domain_name e = domain /\
    resolution_mode e = "Iterative (Failed delegation)" /\
    dns_server_ip e = asked_last /\
    response_or_referral e = "No authority section for delegation" /\
    (forall k v, dns_cache s' !! k = Some v -> dns_cache s !! k = Some v) /\
    plot_data (dns_log s') = plot_data (dns_log s).
Proof.
  intros Hdepth Hk Hmiss Hchain Hd Ha Hn.
  apply (resolve_refused_after_chain env domain o depth max_depth s chain
           asked_last "No authority section for delegation"); try assumption.
  intros self t0 sv s1 Hlen. apply hop_no_authority with d; try assumption.
  now rewrite Hlen.
Qed.

Lemma no_authority_ends_resolution_witness :
  exists s' e,
    resolve_iteratively Cases.no_data_env "example.com" None 0 10 initial_state
      = (None, s') /\
    length (sent s') = (length (sent initial_state) + 1 + 1)%nat /\
    last (sent s') = Some ("199.43.135.53", "example.com") /\
    last (log_entries (dns_log s')) = Some e /\
    domain_name e = "example.com" /\
    resolution_mode e = "Iterative (Failed delegation)" /\
    dns_server_ip e = "199.43.135.53" /\
    response_or_referral e = "No authority section for delegation" /\
    (forall k v, dns_cache s' !! k = Some v ->
                 dns_cache initial_state !! k = Some v) /\
    plot_data (dns_log s') = plot_data (dns_log initial_state).
Proof.
  apply (no_authority_ends_resolution Cases.no_data_env "example.com" None
           0 10 initial_state [Scenario.referral] "199.43.135.53"
           Cases.no_data).
  - lia.
  - simpl. lia.
  - intros ip t H. simpl in H. rewrite lookup_empty in H. discriminate.
  - simpl. split; [reflexivity|]. exists "199.43.135.53".
    split; [|reflexivity]. repeat split; discriminate || reflexivity.
  - reflexivity.
  - reflexivity.
  - reflexivity.
Defined.

(** ** The cycle guard and the names the server resolves *)

(** None of the other texts a record can carry is that of the cycle
    guard. *)
Ltac not_the_guard :=
  let H := fresh in
  simpl; intros H; apply (f_equal (String.get 3)) in H;
  vm_compute in H; discriminate.

Section Unguarded.
Variable env : Env.
Hypothesis Hdots : dotted_referrals env.

Lemma unguarded_refl s : unguarded s s.
Proof.
  split; [apply grows_refl|]. intros j e Hj He.
  apply lookup_lt_Some in He. lia.
Qed.

Lemma unguarded_trans s1 s2 s3 :
  unguarded s1 s2 -> unguarded s2 s3 -> unguarded s1 s3.
Proof.
  intros [[S12 L12] H12] [[S23 L23] H23].
  split; [split; etrans; eassumption|]. intros j e Hj He.
  destruct (decide (j < length (log_entries (dns_log s2)))%nat) as [Hlt|Hge].
  - rewrite <- (prefix_lookup_lt _ _ _ Hlt L23) in He. eapply H12; eassumption.
  - eapply H23; [|exact He]. lia.
Qed.

Lemma hop_unguarded self domain original depth t0 sv ip s out s' :
  dotless original ->
  self_unguarded self ->
  hop env self domain original depth t0 sv ip s = Some (out, s') ->
  unguarded s s'.
Proof.
  intros Hdotless Hself H. split.
  { eapply hop_grows; [|exact H].
    intros name d m s0 r s1 _ Hrun.
    now destruct (Hself name (Some original) d m s0 r s1 Hdotless Hrun). }
  intros j e Hj He. open_run H.
  repeat case_match; simplify_eq;
    try match goal with
        | E : String.eqb ?f original = true,
          Hd : dns_of _ = Some ?d, Hn : ns_names ?d = ?f :: _ |- _ =>
            apply String.eqb_eq in E;
            destruct (Hdots _ _ _ _ _ _ Hd Hn) as [p Hp];
            exfalso; apply (Hdotless p); congruence
        end;
    try match goal with
        | C : self _ (Some original) _ _ _ = Some _ |- _ =>
            apply Hself in C; [destruct C as [_ C]|exact Hdotless]
        end;
    open_state; rewrite ?record_plot_data_entries in He; simpl in He;
    first
      [ apply lookup_snoc_inv in He as [_ ->]; [not_the_guard | exact Hj]
      | match goal with
        | C : forall j e, _ -> log_entries (dns_log ?s2) !! j = Some e -> _
          |- _ =>
            destruct (decide (j < length (log_entries (dns_log s2)))%nat)
              as [Hlt|Hge];
            [ rewrite lookup_app_l in He by exact Hlt; eapply C; eassumption
            | apply lookup_snoc_inv in He as [_ ->]; [not_the_guard | lia] ]
        end ].
Qed.

Lemma hop_loop_unguarded self domain original depth t0 hops :
  dotless original ->
  self_unguarded self ->
  forall sv ip s r s',
    hop_loop env self domain original depth t0 hops sv ip s = Some (r, s') ->
    unguarded s s'.
Proof.
  intros Hdotless Hself. induction hops as [|hops IH]; intros sv ip s r s' H.
  - simpl in H. open_run H. simplify_eq. split; [grows_steps|].
    intros j e Hj He. open_state.
    apply lookup_snoc_inv in He as [_ ->]; [not_the_guard | exact Hj].
  - simpl in H. apply bind_Some in H as (out & s1 & Hhop & Hk).
    apply (hop_unguarded _ _ _ _ _ _ _ _ _ _ Hdotless Hself) in Hhop.
    destruct out as [result|next_ip].
    + unfold ret in Hk. now simplify_eq.
    + apply unguarded_trans with s1; [exact Hhop | eapply IH, Hk].
Qed.

Lemma resolve_fuel_unguarded fuel : self_unguarded (resolve_fuel env fuel).
Proof.
  induction fuel as [|fuel IH];
    intros domain o depth max_depth s r s' Hdotless H; [discriminate|].
  rewrite resolve_fuel_unfold in H. destruct (depth >? max_depth)%Z.
  { unfold ret in H. simplify_eq. apply unguarded_refl. }
  apply bind_Some in H as (t0 & s1 & Ht & H). unfold time in Ht.
  injection Ht as <- <-.
  apply bind_Some in H as (hit & s2 & Hget & H).
  assert (Hlookup : unguarded s s2).
  { pose proof (cache_get_sent _ _ _ _ _ Hget) as Hs.
    pose proof (cache_get_log _ _ _ _ _ Hget) as Hl. open_state.
    split; [split; rewrite ?Hs, ?Hl; reflexivity|].
    intros j e Hj He. rewrite Hl in He. apply lookup_lt_Some in He. lia. }
  apply unguarded_trans with s2; [exact Hlookup|].
  destruct (fst hit) as [ip|] eqn:Ehit; [destruct (Py.truthy ip)|];
    [|eapply hop_loop_unguarded; eassumption..].
  open_run H. simplify_eq. split; [grows_steps|].
  intros j e Hj He. open_state.
  rewrite record_plot_data_entries in He. simpl in He.
  apply lookup_snoc_inv in He as [_ ->]; [not_the_guard | exact Hj].
Qed.

Lemma resolve_iteratively_unguarded domain o depth max_depth s :
  dotless (default domain o) ->
  unguarded s (snd (resolve_iteratively env domain o depth max_depth s)).
Proof.
  intros Hdotless.
  destruct (resolve_iteratively env domain o depth max_depth s) as [r s'] eqn:E.
  apply resolve_iteratively_run in E. simpl.
  eapply resolve_fuel_unguarded; eassumption.
Qed.

(** The name the server resolves has no final full stop. *)
Lemma query_domain_dotless q : dotless (query_domain q).
Proof.
  unfold query_domain. intros p.
  now destruct (rstrip_dot_spec (default "" (Py.decode true (qname q))))
    as (dots & _ & _ & Hend).
Qed.

Lemma start_dns_server_unguarded datagrams :
  forall s, unguarded s (snd (start_dns_server env datagrams s)).
Proof.
  induction datagrams as [|d rest IH]; intros s; simpl; [apply unguarded_refl|].
  destruct (serve_one env d s) as [out s1] eqn:E1.
  destruct (start_dns_server env rest s1) as [outs s2] eqn:E2. simpl.
  apply unguarded_trans with s1.
  - destruct (serve_one_state env d s) as [Hs|[q Hs]];
      rewrite E1 in Hs; simpl in Hs; subst s1;
      [apply unguarded_refl|].
    apply resolve_iteratively_unguarded, query_domain_dotless.
  - specialize (IH s1). now rewrite E2 in IH.
Qed.

End Unguarded.

(** X7.  The cycle guard compares the name server as decoded, which ends in
    a full stop, with the original domain as it is.  The server strips the
    final full stops from the name it resolves, and nested calls carry that
    name on as the original domain: so, on replies whose first name server
    ends in a full stop, no call made on behalf of a name without final full
    stop, and no call of the server, ever writes the record of the guard,
    "No glue IP and NS same as original domain". *)
Theorem cycle_guard_never_fires_in_the_server
    (env : Env) (datagrams : list DNS) (domain : string) (o : option string)
    (depth max_depth : Z) (s : State) (j : nat) (e : entry) :
  dotted_referrals env ->
  (length (log_entries (dns_log s)) <= j)%nat ->
  (dotless (default domain o) /\
   log_entries (dns_log (snd (resolve_iteratively env domain o depth
                                                 max_depth s))) !! j = Some e)
  \/ log_entries (dns_log (snd (start_dns_server env datagrams s))) !! j
     = Some e ->
  response_or_referral e <> "No glue IP and NS same as original domain".
Proof.
  intros Hdots Hj [[Hdotless He]|He].
  - eapply (resolve_iteratively_unguarded env Hdots); eassumption.
  - eapply (start_dns_server_unguarded env Hdots); eassumption.
Qed.

(** The query for example.com. on the network where the name server of
    example.com is example.com. itself: eleven levels of calls, two queries
    each, and the last record is that of the failed nested resolution. *)
Lemma cycle_guard_never_fires_in_the_server_witness :
  exists e,
    log_entries (dns_log (snd (start_dns_server Cases.self_referral_env
                                 [Scenario.query] initial_state))) !! 21%nat
      = Some e /\
    domain_name e = "example.com" /\
    resolution_mode e = "Iterative (Failed delegation)" /\
    response_or_referral e <> "No glue IP and NS same as original domain" /\
    length (sent (snd (start_dns_server Cases.self_referral_env
                         [Scenario.query] initial_state))) = 22%nat.
Proof.
  assert (Hdots : dotted_referrals Cases.self_referral_env).
  { intros n dst name d fallback_ns rest H Hns.
    unfold Cases.self_referral_env in H. simpl in H.
    destruct (String.eqb dst ROOT_SERVER_IP);
      [|destruct (String.eqb dst "199.43.135.53"); [|discriminate]];
      injection H as <-; vm_compute in Hns; injection Hns as <- <-;
      [exists "a.example-servers.net" | exists "example.com"]; reflexivity. }
  destruct (log_entries (dns_log (snd (start_dns_server Cases.self_referral_env
                                        [Scenario.query] initial_state)))
              !! 21%nat) as [e|] eqn:E; [|vm_compute in E; discriminate].
  exists e. split; [reflexivity|].
  pose proof E as E'. vm_compute in E'. injection E' as <-.
  split; [reflexivity|]. split; [reflexivity|]. split; [|reflexivity].
  apply (cycle_guard_never_fires_in_the_server Cases.self_referral_env
           [Scenario.query] "" None 0 0 initial_state 21 _ Hdots);
    [simpl; lia | right; exact E].
Defined.

(** ** The cache as a dictionary with expiry *)

(** X8.  [get] touches no key but the one it is asked; when it answers
    MISS the key is gone afterwards, so that it keeps answering MISS at any
    later reading until the name is stored again; and a name stored with
    [set] is served by [get] exactly while less than 3600 seconds have
    passed since, whatever was stored under it before. *)
Theorem cache_get_frame_and_expiry
    (cache : gmap string (string * Q)) (domain other ip : string)
    (now now' : Q) :
  (other <> domain ->
   snd (DnsCache.get domain now cache) !! other = cache !! other) /\
  (fst (fst (DnsCache.get domain now cache)) = None ->
   snd (DnsCache.get domain now cache) !! domain = None /\
   fst (DnsCache.get domain now' (snd (DnsCache.get domain now cache)))
     = (None, "MISS")) /\
  ((now' - now < 3600)%Q ->
   DnsCache.get domain now' (DnsCache.set domain ip now cache)
     = ((Some ip, "HIT"), DnsCache.set domain ip now cache)) /\
  (~ (now' - now < 3600)%Q ->
   DnsCache.get domain now' (DnsCache.set domain ip now cache)
     = ((None, "MISS"), delete domain cache)).
Proof.
  split; [|split; [|split]].
  - intros Hne. unfold DnsCache.get.
    destruct (cache !! domain) as [[a t]|]; [|reflexivity].
    destruct (QMicromega.Qlt_bool _ _); simpl; [reflexivity|].
    now apply lookup_delete_ne.
  - intros Hmiss.
    assert (Hgone : snd (DnsCache.get domain now cache) !! domain = None).
    { revert Hmiss. unfold DnsCache.get.
      destruct (cache !! domain) as [[a t]|] eqn:E; [|intros _; exact E].
      destruct (QMicromega.Qlt_bool _ _); simpl; [discriminate|].
      intros _. apply lookup_delete_eq. }
    split; [exact Hgone|].
    now rewrite (CacheFacts.get_lookup_None _ _ _ Hgone).
  - intros Hfresh. apply CacheFacts.get_fresh with now; [|exact Hfresh].
    unfold DnsCache.set. apply lookup_insert_eq.
  - intros Hstale.
    rewrite (CacheFacts.get_stale domain now' _ ip now);
      [|unfold DnsCache.set; apply lookup_insert_eq | exact Hstale].
    unfold DnsCache.set. now rewrite delete_insert_eq.
Qed.

Lemma cache_get_frame_and_expiry_witness :
  snd (DnsCache.get "example.com" 4000
         (DnsCache.set "example.org" "192.0.2.7" 3990
            (DnsCache.set "example.com" "93.184.216.34" 0 ∅)))
    !! "example.org" = Some ("192.0.2.7", 3990%Q) /\
  (snd (DnsCache.get "example.com" 4000
          (DnsCache.set "example.com" "93.184.216.34" 0 ∅))
     !! "example.com" = None /\
   fst (DnsCache.get "example.com" 1
          (snd (DnsCache.get "example.com" 4000
                  (DnsCache.set "example.com" "93.184.216.34" 0 ∅))))
     = (None, "MISS")) /\
  DnsCache.get "example.com" 3599
    (DnsCache.set "example.com" "93.184.216.34" 0 ∅)
    = ((Some "93.184.216.34", "HIT"),
       DnsCache.set "example.com" "93.184.216.34" 0 ∅) /\
  DnsCache.get "example.com" 3600
    (DnsCache.set "example.com" "93.184.216.34" 0 ∅)
    = ((None, "MISS"), delete "example.com" ∅).
Proof.
  split; [|split; [|split]].
  - pose proof (cache_get_frame_and_expiry
                  (DnsCache.set "example.org" "192.0.2.7" 3990
                     (DnsCache.set "example.com" "93.184.216.34" 0 ∅))
                  "example.com" "example.org" "" 4000 0) as (H & _).
    rewrite H by discriminate. reflexivity.
  - apply (cache_get_frame_and_expiry
             (DnsCache.set "example.com" "93.184.216.34" 0 ∅)
             "example.com" "" "" 4000 1). reflexivity.
  - apply (cache_get_frame_and_expiry ∅ "example.com" "" "93.184.216.34"
             0 3599). reflexivity.
  - apply (cache_get_frame_and_expiry ∅ "example.com" "" "93.184.216.34"
             0 3600). intros H. vm_compute in H. discriminate.
Defined.

(** ** The server loop *)

Lemma serve_one_no_question env dns_query s :
  has_question dns_query = false -> serve_one env dns_query s = (None, s).
Proof.
  unfold has_question, serve_one. now destruct (qd dns_query).
Qed.

Lemma serve_one_reply env dns_query s :
  has_question dns_query = true ->
  exists pkt, fst (serve_one env dns_query s) = Some pkt /\
              reply_to dns_query pkt.
Proof.
  unfold has_question, serve_one. destruct (qd dns_query) as [|q rest] eqn:Hqd;
    [discriminate|]. intros _.
  destruct (resolve_iteratively env (query_domain q) None 0 10 s)
    as [[resp|] s'] eqn:E; simpl.
  - pose proof (resolve_success_answers _ _ _ _ _ _ _ _ E) as Hans.
    destruct (an resp) as [|rr records] eqn:Han.
    + exfalso. apply Hans. unfold answers. now rewrite Han.
    + eexists. split; [reflexivity|]. unfold reply_to. simpl.
      do 3 (split; [first [reflexivity | congruence]|]). left.
      split; [reflexivity|]. split; [reflexivity|discriminate].
  - eexists. split; [reflexivity|]. unfold reply_to. simpl.
    do 3 (split; [first [reflexivity | congruence]|]). right. now repeat split.
Qed.

(** X9.  Over any sequence of datagrams the server sends exactly one packet
    for each datagram that has a question, in the order of arrival, and each
    packet replies to its datagram: same ID, same question section, QR = 1,
    and either RCODE 0 with AA = 1 and a non-empty answer section or
    RCODE 2 with no answer record.  The datagrams without a question leave
    no trace: dropping them from the sequence gives the same packets and the
    same final log, cache and clock. *)
Theorem server_replies_in_order
    (env : Env) (datagrams : list DNS) (s : State) :
  start_dns_server env (List.filter has_question datagrams) s
    = start_dns_server env datagrams s /\
  Forall2 reply_to (List.filter has_question datagrams)
          (fst (start_dns_server env datagrams s)).
Proof.
  revert s. induction datagrams as [|d rest IH]; intros s.
  - split; [reflexivity|constructor].
  - cbn [List.filter start_dns_server].
    destruct (has_question d) eqn:Hq.
    + cbn [start_dns_server].
      destruct (serve_one_reply env d s Hq) as (pkt & Hout & Hpkt).
      destruct (serve_one env d s) as [out s1]. simpl in Hout. subst out.
      destruct (IH s1) as [Heq Hall]. rewrite Heq.
      destruct (start_dns_server env rest s1) as [outs s2].
      split; [reflexivity|]. simpl. constructor; assumption.
    + rewrite (serve_one_no_question env d s Hq).
      destruct (IH s) as [Heq Hall]. rewrite Heq.
      destruct (start_dns_server env rest s) as [outs s2].
      split; [reflexivity|]. exact Hall.
Qed.

(** ** The data for the plot and the log *)

(** X10.  Whatever is registered for the plot after a call, or after the
    server has handled any datagrams, was registered before or is explained
    by a record written since for the same name: a Resolved record, or a
    Cached record and then with one server visited; the latency registered
    is the total time of that record.  The names of name servers resolved
    by nested calls are registered like any other.  In particular every
    datum of a server started with a new logger has its record in the
    log. *)
Theorem plot_data_have_records
    (env : Env) (datagrams : list DNS) (domain : string) (o : option string)
    (depth max_depth : Z) (s : State) (d : string) (x : plot_datum) :
  ((d, x) ∈ plot_data (dns_log (snd (resolve_iteratively env domain o depth
                                                         max_depth s))) ->
   (d, x) ∈ plot_data (dns_log s) \/
   exists j e,
     (length (log_entries (dns_log s)) <= j)%nat /\
     log_entries (dns_log (snd (resolve_iteratively env domain o depth
                                                   max_depth s))) !! j
       = Some e /\
     domain_name e = d /\
     total_time_to_resolution e = Some (total_latency x) /\
     (resolution_mode e = "Iterative (Resolved)" \/
      resolution_mode e = "Iterative (Cached)" /\
      total_servers_visited x = 1)) /\
  ((d, x) ∈ plot_data (dns_log (snd (start_dns_server env datagrams
                                                      initial_state))) ->
   exists e,
     e ∈ log_entries (dns_log (snd (start_dns_server env datagrams
                                                  initial_state))) /\
     domain_name e = d /\
     total_time_to_resolution e = Some (total_latency x) /\
     (resolution_mode e = "Iterative (Resolved)" \/
      resolution_mode e = "Iterative (Cached)" /\
      total_servers_visited x = 1)).
Proof.
  split.
  - apply resolve_iteratively_plot_backed.
  - intros Hx.
    destruct (start_dns_server_satisfies env plot_backed datagrams
                plot_backed_refl plot_backed_trans
                (resolve_iteratively_plot_backed env) initial_state)
      as [_ Hback].
    destruct (Hback d x Hx) as [Hinit|(j & e & _ & He & Hm)].
    + simpl in Hinit. now apply elem_of_nil in Hinit.
    + exists e. split; [|exact Hm]. eapply list_elem_of_lookup_2, He.
Qed.

(** The datum of example.com after the glue chain has its record. *)
Lemma plot_data_have_records_witness :
  (exists j e,
     (length (log_entries (dns_log initial_state)) <= j)%nat /\
     log_entries (dns_log (snd (resolve_iteratively Scenario.glue_env
                                  "example.com" None 0 10 initial_state))) !! j
       = Some e /\
     domain_name e = "example.com" /\
     total_time_to_resolution e = Some 7%Q /\
     (resolution_mode e = "Iterative (Resolved)" \/
      resolution_mode e = "Iterative (Cached)" /\ 2 = 1)) /\
  (exists e,
     e ∈ log_entries (dns_log (snd (start_dns_server Scenario.glue_env
                                      [Scenario.query] initial_state))) /\
     domain_name e = "example.com" /\
     total_time_to_resolution e = Some 7%Q /\
     (resolution_mode e = "Iterative (Resolved)" \/
      resolution_mode e = "Iterative (Cached)" /\ 2 = 1)).
Proof.
  pose proof (plot_data_have_records Scenario.glue_env
                [Scenario.query] "example.com" None 0 10 initial_state
                "example.com"
                (mkDatum 2 7))
    as [Hcall Hserver].
  split.
  - destruct Hcall as [Hinit|H]; [vm_compute; apply list_elem_of_here| |exact H].
    simpl in Hinit. now apply elem_of_nil in Hinit.
  - apply Hserver. vm_compute. apply list_elem_of_here.
Defined.

(** ** A name server that refers to itself *)

Section SelfReferring.
Variable env : Env.

(** The name server comes without usable glue and the nested call for it
    fails: the turn fails with one record, written after those of the
    nested call. *)
Lemma hop_nested_failed self domain original depth t0 sv ip s d fallback_ns
    rest s1 :
  dns_of (sr1 env (length (sent s)) ip domain) = Some d ->
  answers d = [] ->
  ns_names d = fallback_ns :: rest ->
  (forall glue, glue_ip d = Some glue -> Py.truthy glue = false) ->
  fallback_ns <> original ->
  self fallback_ns (Some original) (depth + 1) 10
       (tick (tick (push_query ip domain (tick s)))) = Some (None, s1) ->
  hop env self domain original depth t0 sv ip s
  = Some (Return None,
          upd_log (Log.log_step
                     (mkEntry (clock env (S (S (ticks s)))) domain
                        "Iterative (Failed delegation)" ip (get_step_type ip)
                        ("Failed to resolve next NS IP: " ++ fallback_ns)
                        (clock env (S (ticks s)) - clock env (ticks s))%Q
                        None "MISS")) s1).
Proof.
  intros H Ha Hn Hg Hne Hself. apply String.eqb_neq in Hne.
  open_goal. rewrite H, Ha, Hn, Hne.
  destruct (glue_ip d) as [glue|]; [rewrite (Hg glue eq_refl)|];
    first [ rewrite Hself
          | unfold tick, push_query in Hself; simpl in Hself; rewrite Hself ];
    reflexivity.
Qed.

(** The call made by a turn at a depth within the limit is run with enough
    budget. *)
Lemma nested_call_run name o depth s :
  depth <= 10 ->
  resolve_fuel env (S (Z.to_nat (10 - depth))) name o (depth + 1) 10 s
  = Some (resolve_iteratively env name o (depth + 1) 10 s).
Proof.
  intros Hd. destruct (Z.eq_dec depth 10) as [->|Hne].
  - unfold resolve_iteratively, fuel_for.
    now rewrite !resolve_fuel_unfold, (gtb_true (10 + 1) 10) by lia.
  - apply resolve_fuel_enough. unfold fuel_for.
    replace (10 - (depth + 1)) with (Z.pred (10 - depth)) by lia.
    rewrite Z2Nat.inj_pred. lia.
Qed.

Lemma cache_get_absent domain s :
  dns_cache s !! domain = None ->
  cache_get env domain s = Some ((None, "MISS"), s).
Proof. intros H. unfold cache_get. now rewrite H. Qed.

Variables (name original : string).
Hypothesis Hne : name <> original.
Hypothesis Hroot : self_referring env name.

Lemma self_referring_calls k :
  forall depth s,
    depth = 11 - Z.of_nat k ->
    dns_cache s !! name = None ->
    exists s',
      resolve_iteratively env name (Some original) depth 10 s = (None, s') /\
      sent s' = (sent s ++ replicate k (ROOT_SERVER_IP, name))%list /\
      map summary (log_entries (dns_log s'))
        = (map summary (log_entries (dns_log s))
           ++ replicate k (name, "Iterative (Failed delegation)",
                           ROOT_SERVER_IP,
                           ("Failed to resolve next NS IP: " ++ name)%string))%list /\
      dns_cache s' = dns_cache s /\
      plot_data (dns_log s') = plot_data (dns_log s).
Proof.
  induction k as [|k IH]; intros depth s Hd Hcache.
  - exists s. unfold resolve_iteratively, fuel_for.
    rewrite resolve_fuel_unfold, (gtb_true depth 10) by lia.
    simpl. now rewrite !app_nil_r.
  - assert (Hdepth : depth <= 10) by lia.
    destruct (Hroot (length (sent s))) as (d & rest & Hd0 & Ha & Hn & Hg).
    destruct (IH (depth + 1) (tick (tick (push_query ROOT_SERVER_IP name
                                            (tick (tick s))))))
      as (s1 & Hrun & Hsent & Hlog & Hc & Hp); [lia | exact Hcache |].
    unfold resolve_iteratively, fuel_for.
    rewrite (resolve_fuel_miss env _ name (Some original) depth 10 s
               (None, "MISS") (tick s) Hdepth);
      [| now apply cache_get_absent | discriminate].
    change (Z.to_nat 10) with 10%nat. cbn [hop_loop default]. unfold bind at 1.
    rewrite (hop_nested_failed _ name original depth _ 0 ROOT_SERVER_IP
               (tick s) d name rest s1 Hd0 Ha Hn Hg Hne);
      [| rewrite (nested_call_run name (Some original) depth _ Hdepth);
         now rewrite Hrun ].
    unfold ret. eexists. split; [reflexivity|]. open_state.
    rewrite List.map_app, Hsent, Hlog, Hc, Hp. simpl.
    split; [now rewrite <- app_assoc|]. split; [|now split].
    rewrite <- app_assoc. f_equal. symmetry. apply (replicate_S_end k).
Qed.

End SelfReferring.

(** X11.  The cycle guard compares the name server with the original domain
    only.  A name server that differs from it, that is not in the cache and
    that the root server refers to itself without usable glue is resolved by
    a nested call that meets the same referral, and so on: only the depth
    limit ends the descent.  A call for it at [depth] (nested calls carry
    the original domain) returns [None] after [11 - depth] queries to the
    root server, all for that name, and as many Failed delegation records;
    a call for a domain that the root server refers to such a name server
    returns [None] after eleven queries.  Neither writes to the cache or
    registers anything for the plot. *)
Theorem self_referring_name_server_ends_at_depth_limit
    (env : Env) (name original : string) (depth : Z) (s : State) (d : DNS)
    (rest : list string) :
  name <> original ->
  depth <= 11 ->
  self_referring env name ->
  dns_cache s !! name = None ->
  (exists s',
     resolve_iteratively env name (Some original) depth 10 s = (None, s') /\
     sent s' = (sent s ++ replicate (Z.to_nat (11 - depth))
                                    (ROOT_SERVER_IP, name))%list /\
     map summary (log_entries (dns_log s'))
       = (map summary (log_entries (dns_log s))
          ++ replicate (Z.to_nat (11 - depth))
               (name, "Iterative (Failed delegation)", ROOT_SERVER_IP,
                ("Failed to resolve next NS IP: " ++ name)%string))%list /\
     dns_cache s' = dns_cache s /\
     plot_data (dns_log s') = plot_data (dns_log s)) /\
  (dns_cache s !! original = None ->
   dns_of (sr1 env (length (sent s)) ROOT_SERVER_IP original) = Some d ->
   answers d = [] ->
   ns_names d = name :: rest ->
   (forall glue, glue_ip d = Some glue -> Py.truthy glue = false) ->
   exists s',
     resolve_iteratively env original None 0 10 s = (None, s') /\
     sent s' = (sent s ++ (ROOT_SERVER_IP, original)
                       :: replicate 10 (ROOT_SERVER_IP, name))%list /\
     map summary (log_entries (dns_log s'))
       = (map summary (log_entries (dns_log s))
          ++ replicate 10
               (name, "Iterative (Failed delegation)", ROOT_SERVER_IP,
                ("Failed to resolve next NS IP: " ++ name)%string)
          ++ [(original, "Iterative (Failed delegation)", ROOT_SERVER_IP,
               ("Failed to resolve next NS IP: " ++ name)%string)])%list /\
     dns_cache s' = dns_cache s /\
     plot_data (dns_log s') = plot_data (dns_log s)).
Proof.
  intros Hne Hdepth Hroot Hcache. split.
  - apply self_referring_calls; [exact Hne | exact Hroot | lia | exact Hcache].
  - intros Hc0 Hd Ha Hn Hg.
    destruct (self_referring_calls env name original Hne Hroot 10 (0 + 1)
                (tick (tick (push_query ROOT_SERVER_IP original
                               (tick (tick s))))))
      as (s1 & Hrun & Hsent & Hlog & Hc & Hp); [lia | exact Hcache |].
    unfold resolve_iteratively, fuel_for.
    rewrite (resolve_fuel_miss env _ original None 0 10 s
               (None, "MISS") (tick s));
      [| lia | now apply cache_get_absent | discriminate].
    change (Z.to_nat 10) with 10%nat. cbn [hop_loop default]. unfold bind at 1.
    rewrite (hop_nested_failed env _ original original 0 _ 0 ROOT_SERVER_IP
               (tick s) d name rest s1 Hd Ha Hn Hg Hne);
      [| rewrite (nested_call_run env name (Some original) 0 _);
         [now rewrite Hrun | lia] ].
    unfold ret. eexists. split; [reflexivity|]. open_state.
    rewrite List.map_app, Hsent, Hlog, Hc, Hp. simpl.
    split; [now rewrite <- app_assoc|]. split; [now rewrite <- app_assoc|].
    now split.
Qed.

(** ns.example.net., asked for on behalf of example.com, at depth 1; and
    example.com itself. *)
Lemma self_referring_name_server_ends_at_depth_limit_witness :
  (exists s',
     resolve_iteratively Cases.loop_env "ns.example.net."
                         (Some "example.com") 1 10 initial_state = (None, s') /\
     sent s' = (sent initial_state
                ++ replicate (Z.to_nat (11 - 1))
                     (ROOT_SERVER_IP, "ns.example.net."))%list /\
     map summary (log_entries (dns_log s'))
       = (map summary (log_entries (dns_log initial_state))
          ++ replicate (Z.to_nat (11 - 1))
               ("ns.example.net.", "Iterative (Failed delegation)",
                ROOT_SERVER_IP,
                "Failed to resolve next NS IP: ns.example.net."))%list /\
     dns_cache s' = dns_cache initial_state /\
     plot_data (dns_log s') = plot_data (dns_log initial_state)) /\
  (exists s',
     resolve_iteratively Cases.loop_env "example.com" None 0 10 initial_state
       = (None, s') /\
     sent s' = (sent initial_state
                ++ (ROOT_SERVER_IP, "example.com")
                   :: replicate 10 (ROOT_SERVER_IP, "ns.example.net."))%list /\
     map summary (log_entries (dns_log s'))
       = (map summary (log_entries (dns_log initial_state))
          ++ replicate 10
               ("ns.example.net.", "Iterative (Failed delegation)",
                ROOT_SERVER_IP,
                "Failed to resolve next NS IP: ns.example.net.")
          ++ [("example.com", "Iterative (Failed delegation)", ROOT_SERVER_IP,
               "Failed to resolve next NS IP: ns.example.net.")])%list /\
     dns_cache s' = dns_cache initial_state /\
     plot_data (dns_log s') = plot_data (dns_log initial_state)).
Proof.
  assert (Hroot : self_referring Cases.loop_env "ns.example.net.").
  { intros n. eexists _, _. split; [reflexivity|]. split; [reflexivity|].
    split; [reflexivity|]. intros glue H. vm_compute in H. discriminate. }
  pose proof (self_referring_name_server_ends_at_depth_limit Cases.loop_env
                "ns.example.net." "example.com" 1 initial_state
                (Scenario.response []
                   [Scenario.NS_record "example.net." "ns.example.net."] [])
                [] ltac:(discriminate) ltac:(lia) Hroot
                ltac:(apply lookup_empty)) as [Hnested Htop].
  split; [exact Hnested|].
  apply Htop; [apply lookup_empty | reflexivity | reflexivity | reflexivity |].
  intros glue H. vm_compute in H. discriminate.
Defined.
